(** * vite-plugin-import-map: a shallow embedding of [src/index.ts]

    The plugin keeps three tables in the closure that [importMapPlugin]
    creates ([chunkMapping], [baseNameCounts], [importMap]) and exposes three
    hooks: [configResolved], [generateBundle] and [transformIndexHtml].  The
    embedding below passes that closure state explicitly, models the bundle
    as the ordered JavaScript object it is, and returns thrown errors as
    values.

    Conventions.
    - A JavaScript string is a [string]; its characters stand for the UTF-16
      code units below U+0100, so every operation on code units is exact and
      the UTF-8 encoding fed to the digest is the one of that range.
    - Offsets into source text are [nat].
    - The host's library functions appear where the source calls them: the
      parser and tree walker (acorn) and the collation behind
      [String.prototype.localeCompare] are parameters; [MagicString], the
      SHA-256 digest and its base64url encoding are written out.
    - Console output is not part of the model. *)

From Stdlib Require Import List String Ascii Bool Arith NArith ZArith Lia.
From Stdlib Require Import Permutation Sorted.
Import ListNotations.

Local Open Scope string_scope.
Local Open Scope list_scope.

(* ================================================================== *)
(** ** JavaScript strings *)

Module JsString.

(** Truthiness of a string: only the empty string is falsy. *)
Definition truthy (s : string) : bool :=
  match s with
  | EmptyString => false
  | String _ _ => true
  end.

(** [s.slice(0, n)] and [s.slice(n)]. *)
Fixpoint take (n : nat) (s : string) : string :=
  match n, s with
  | O, _ => EmptyString
  | S _, EmptyString => EmptyString
  | S n', String c s' => String c (take n' s')
  end.

Fixpoint drop (n : nat) (s : string) : string :=
  match n, s with
  | O, _ => s
  | S _, EmptyString => EmptyString
  | S n', String _ s' => drop n' s'
  end.

(** [s.slice(i, j)]. *)
Definition slice (i j : nat) (s : string) : string :=
  take (j - i) (drop i s).

(** [s.startsWith(p)]. *)
Definition startsWith (s p : string) : bool := String.prefix p s.

(** [s.endsWith(p)]. *)
Definition endsWith (s p : string) : bool :=
  Nat.leb (String.length p) (String.length s)
  && (drop (String.length s - String.length p) s =? p).

(** [s.includes(c)] for a one-character needle. *)
Fixpoint includesChar (c : ascii) (s : string) : bool :=
  match s with
  | EmptyString => false
  | String d s' => Ascii.eqb c d || includesChar c s'
  end.

(** [s.split(c)] for a one-character separator: never empty. *)
Fixpoint split (c : ascii) (s : string) : list string :=
  match s with
  | EmptyString => [EmptyString]
  | String d s' =>
      if Ascii.eqb c d then EmptyString :: split c s'
      else match split c s' with
           | [] => [String d EmptyString]
           | seg :: segs => String d seg :: segs
           end
  end.

(** [parts.pop()!] on the array a split returns. *)
Definition pop (parts : list string) : string := List.last parts EmptyString.

(** [parts.slice(0, -1)]. *)
Definition init (parts : list string) : list string := List.removelast parts.

(** [parts.join(sep)]. *)
Definition join (sep : string) (parts : list string) : string :=
  String.concat sep parts.

(** Template literals: plain concatenation. *)
Definition cat (parts : list string) : string := String.concat EmptyString parts.

End JsString.

Definition slash : ascii := "/"%char.
Definition dash : ascii := "-"%char.

(* ================================================================== *)
(** ** Ordered containers

    [JsMap] is a JavaScript [Map] with string keys: [set] on a present key
    keeps the key's place, on a new key appends; iteration follows
    insertion.  [JsObject] is an ordinary object used as a record: its own
    keys enumerate array indices first, in ascending numeric order, then the
    other keys in insertion order. *)

Module JsMap.

Definition t (V : Type) : Type := list (string * V).

Definition empty {V} : t V := [].

Fixpoint get {V} (k : string) (m : t V) : option V :=
  match m with
  | [] => None
  | (k', v) :: m' => if (k' =? k)%string then Some v else get k m'
  end.

Fixpoint set {V} (k : string) (v : V) (m : t V) : t V :=
  match m with
  | [] => [(k, v)]
  | (k', v') :: m' =>
      if (k' =? k)%string then (k, v) :: m' else (k', v') :: set k v m'
  end.

Definition entries {V} (m : t V) : list (string * V) := m.

Definition keys {V} (m : t V) : list string := List.map fst m.

End JsMap.

Module JsObject.

Definition t (V : Type) : Type := list (string * V).

Definition empty {V} : t V := [].

Definition isDigit (c : ascii) : bool :=
  let n := N_of_ascii c in (48 <=? n)%N && (n <=? 57)%N.

Fixpoint digitsValue (acc : N) (s : string) : option N :=
  match s with
  | EmptyString => Some acc
  | String c s' =>
      if isDigit c then digitsValue (acc * 10 + (N_of_ascii c - 48))%N s'
      else None
  end.

(** The array index a key denotes, if it is the canonical decimal form of
    an integer below 2^32 - 1. *)
Definition arrayIndex (k : string) : option N :=
  match k with
  | EmptyString => None
  | String c rest =>
      if Ascii.eqb c "0"%char && JsString.truthy rest then None
      else match digitsValue 0 k with
           | Some n => if (n <? 4294967295)%N then Some n else None
           | None => None
           end
  end.

Fixpoint get {V} (k : string) (o : t V) : option V :=
  match o with
  | [] => None
  | (k', v) :: o' => if (k' =? k)%string then Some v else get k o'
  end.

Fixpoint has {V} (k : string) (o : t V) : bool :=
  match o with
  | [] => false
  | (k', _) :: o' => (k' =? k)%string || has k o'
  end.

(** Placing a new array-index key [k] (value [n]) among the keys. *)
Fixpoint insertIndex {V} (n : N) (k : string) (v : V) (o : t V) : t V :=
  match o with
  | [] => [(k, v)]
  | (k', v') :: o' =>
      match arrayIndex k' with
      | Some n' =>
          if (n <? n')%N then (k, v) :: (k', v') :: o'
          else (k', v') :: insertIndex n k v o'
      | None => (k, v) :: (k', v') :: o'
      end
  end.

Fixpoint replace {V} (k : string) (v : V) (o : t V) : t V :=
  match o with
  | [] => []
  | (k', v') :: o' =>
      if (k' =? k)%string then (k, v) :: o' else (k', v') :: replace k v o'
  end.

(** [o[k] = v]. *)
Definition set {V} (k : string) (v : V) (o : t V) : t V :=
  if has k o then replace k v o
  else match arrayIndex k with
       | Some n => insertIndex n k v o
       | None => o ++ [(k, v)]
       end.

(** [delete o[k]]. *)
Fixpoint delete {V} (k : string) (o : t V) : t V :=
  match o with
  | [] => []
  | (k', v') :: o' =>
      if (k' =? k)%string then o' else (k', v') :: delete k o'
  end.

(** [Object.entries(o)] and [Object.keys(o)]. *)
Definition entries {V} (o : t V) : list (string * V) := o.

Definition keys {V} (o : t V) : list string := List.map fst o.

End JsObject.

(** [Array.prototype.sort(cmp)]: a stable sort; a negative [cmp a b]
    places [a] first.  Written as a stable insertion sort: an element goes
    in front of the first later element it does not have to follow. *)
Module JsArray.

Section Sort.
Context {A : Type} (cmp : A -> A -> Z).

Fixpoint insert (x : A) (l : list A) : list A :=
  match l with
  | [] => [x]
  | y :: l' => if (cmp x y <=? 0)%Z then x :: y :: l' else y :: insert x l'
  end.

Fixpoint sort (l : list A) : list A :=
  match l with
  | [] => []
  | x :: l' => insert x (sort l')
  end.
End Sort.

End JsArray.

(* ================================================================== *)
(** ** The digest: SHA-256, base64url, first eight characters *)

Module Sha256.

Local Open Scope N_scope.

Definition mask32 : N := 4294967295.

Definition add32 (a b : N) : N := (a + b) mod 4294967296.

Definition rotr (n x : N) : N :=
  N.lor (N.shiftr x n) (N.land (N.shiftl x (32 - n)) mask32).

Definition Ch (x y z : N) : N :=
  N.lxor (N.land x y) (N.land (N.lxor x mask32) z).

Definition Maj (x y z : N) : N :=
  N.lxor (N.lxor (N.land x y) (N.land x z)) (N.land y z).

Definition Sigma0 (x : N) : N := N.lxor (N.lxor (rotr 2 x) (rotr 13 x)) (rotr 22 x).
Definition Sigma1 (x : N) : N := N.lxor (N.lxor (rotr 6 x) (rotr 11 x)) (rotr 25 x).
Definition sigma0 (x : N) : N := N.lxor (N.lxor (rotr 7 x) (rotr 18 x)) (N.shiftr x 3).
Definition sigma1 (x : N) : N := N.lxor (N.lxor (rotr 17 x) (rotr 19 x)) (N.shiftr x 10).

Definition K : list N :=
  [ 1116352408; 1899447441; 3049323471; 3921009573; 961987163; 1508970993;
    2453635748; 2870763221; 3624381080; 310598401; 607225278; 1426881987;
    1925078388; 2162078206; 2614888103; 3248222580; 3835390401; 4022224774;
    264347078; 604807628; 770255983; 1249150122; 1555081692; 1996064986;
    2554220882; 2821834349; 2952996808; 3210313671; 3336571891; 3584528711;
    113926993; 338241895; 666307205; 773529912; 1294757372; 1396182291;
    1695183700; 1986661051; 2177026350; 2456956037; 2730485921; 2820302411;
    3259730800; 3345764771; 3516065817; 3600352804; 4094571909; 275423344;
    430227734; 506948616; 659060556; 883997877; 958139571; 1322822218;
    1537002063; 1747873779; 1955562222; 2024104815; 2227730452; 2361852424;
    2428436474; 2756734187; 3204031479; 3329325298 ].

(** The eight working words. *)
Record state : Type := mkState {
  h0 : N; h1 : N; h2 : N; h3 : N; h4 : N; h5 : N; h6 : N; h7 : N
}.

Definition initial : state :=
  mkState 1779033703 3144134277 1013904242 2773480762
          1359893119 2600822924 528734635 1541459225.

(** Padding: a one bit, zeros up to 56 modulo 64, the bit length on eight
    bytes, big end first. *)
Definition be_bytes (count : nat) (x : N) : list N :=
  List.map (fun i => N.land (N.shiftr x (8 * N.of_nat i)) 255)
           (List.rev (List.seq 0 count)).

Definition pad (msg : list N) : list N :=
  let len := N.of_nat (List.length msg) in
  let zeros := N.to_nat ((64 - ((len + 9) mod 64)) mod 64) in
  msg ++ [128] ++ List.repeat 0 zeros ++ be_bytes 8 (8 * len).

(** Big-endian 32-bit words of a byte list. *)
Fixpoint words (bytes : list N) : list N :=
  match bytes with
  | a :: b :: c :: d :: rest =>
      (N.shiftl a 24 + N.shiftl b 16 + N.shiftl c 8 + d) :: words rest
  | _ => []
  end.

(** The message schedule, newest word first. *)
Fixpoint extend (n : nat) (w : list N) : list N :=
  match n with
  | O => w
  | S n' =>
      let x := add32 (add32 (sigma1 (List.nth 1 w 0)) (List.nth 6 w 0))
                     (add32 (sigma0 (List.nth 14 w 0)) (List.nth 15 w 0)) in
      extend n' (x :: w)
  end.

Definition schedule (block : list N) : list N :=
  List.rev (extend 48 (List.rev block)).

Definition round (s : state) (kw : N * N) : state :=
  let '(k, w) := kw in
  let t1 := add32 (add32 (add32 (add32 (h7 s) (Sigma1 (h4 s)))
                                (Ch (h4 s) (h5 s) (h6 s))) k) w in
  let t2 := add32 (Sigma0 (h0 s)) (Maj (h0 s) (h1 s) (h2 s)) in
  mkState (add32 t1 t2) (h0 s) (h1 s) (h2 s) (add32 (h3 s) t1) (h4 s) (h5 s) (h6 s).

Definition compress (s : state) (block : list N) : state :=
  let r := List.fold_left round (List.combine K (schedule block)) s in
  mkState (add32 (h0 s) (h0 r)) (add32 (h1 s) (h1 r)) (add32 (h2 s) (h2 r))
          (add32 (h3 s) (h3 r)) (add32 (h4 s) (h4 r)) (add32 (h5 s) (h5 r))
          (add32 (h6 s) (h6 r)) (add32 (h7 s) (h7 r)).

(** One block of sixteen words at a time; [fuel] bounds the block count. *)
Fixpoint blocks (fuel : nat) (s : state) (ws : list N) : state :=
  match fuel with
  | O => s
  | S fuel' =>
      match ws with
      | [] => s
      | _ => blocks fuel' (compress s (List.firstn 16 ws)) (List.skipn 16 ws)
      end
  end.

Definition word_bytes (w : N) : list N := be_bytes 4 w.

Definition digest (msg : list N) : list N :=
  let ws := words (pad msg) in
  let s := blocks (List.length ws) initial ws in
  word_bytes (h0 s) ++ word_bytes (h1 s) ++ word_bytes (h2 s)
  ++ word_bytes (h3 s) ++ word_bytes (h4 s) ++ word_bytes (h5 s)
  ++ word_bytes (h6 s) ++ word_bytes (h7 s).

End Sha256.

Module Base64Url.

Local Open Scope N_scope.

Definition alphabet : string :=
  "ABCDEFGHIJKLMNOPQRSTUVWXYZabcdefghijklmnopqrstuvwxyz0123456789-_".

Definition symbol (i : N) : ascii :=
  match String.get (N.to_nat i) alphabet with
  | Some c => c
  | None => "A"%char
  end.

(** Three bytes give four symbols; a tail of one or two bytes gives two or
    three, with no padding character. *)
Fixpoint encode (bytes : list N) : string :=
  match bytes with
  | [] => EmptyString
  | [a] =>
      String (symbol (N.shiftr a 2))
        (String (symbol (N.land (N.shiftl a 4) 63)) EmptyString)
  | [a; b] =>
      String (symbol (N.shiftr a 2))
        (String (symbol (N.land (N.lor (N.shiftl a 4) (N.shiftr b 4)) 63))
           (String (symbol (N.land (N.shiftl b 2) 63)) EmptyString))
  | a :: b :: c :: rest =>
      String (symbol (N.shiftr a 2))
        (String (symbol (N.land (N.lor (N.shiftl a 4) (N.shiftr b 4)) 63))
           (String (symbol (N.land (N.lor (N.shiftl b 2) (N.shiftr c 6)) 63))
              (String (symbol (N.land c 63)) (encode rest))))
  end.

End Base64Url.

(** The UTF-8 bytes of a string whose code units are below U+0100. *)
Fixpoint utf8 (s : string) : list N :=
  match s with
  | EmptyString => []
  | String c s' =>
      let n := N_of_ascii c in
      if (n <? 128)%N then n :: utf8 s'
      else (192 + N.shiftr n 6)%N :: (128 + N.land n 63)%N :: utf8 s'
  end.

(** [computeHash], lines 13-18. *)
Definition computeHash (input : string) : string :=
  JsString.take 8 (Base64Url.encode (Sha256.digest (utf8 input))).


(* ================================================================== *)
(** ** Thrown errors *)

Inductive Result (A : Type) : Type :=
| Ok (value : A)
| Throw (message : string).

Arguments Ok {A} value.
Arguments Throw {A} message.

Definition bind {A B : Type} (r : Result A) (k : A -> Result B) : Result B :=
  match r with
  | Ok a => k a
  | Throw e => Throw e
  end.

Notation "'let*' x ':=' r 'in' k" := (bind r (fun x => k))
  (at level 10, x pattern, r at level 100, k at level 200).

(* ================================================================== *)
(** ** MagicString

    The piece table of the magic-string library, for the two calls the
    plugin makes: [overwrite] and [toString].  A piece covers the range
    [pstart, pend) of the original text; the pieces tile the text in order.
    Ranges handed to [overwrite] come from string literals of one parse, so
    [start < end]; a reversed range is reported as the library's split-point
    error. *)

Module MagicString.

Local Open Scope nat_scope.

Record Piece : Type := mkPiece {
  pstart : nat;
  pend : nat;
  poriginal : string;
  pcontent : string;
  pedited : bool
}.

Record t : Type := mk {
  original : string;
  pieces : list Piece
}.

(** [new MagicString(code)]. *)
Definition create (code : string) : t :=
  mk code [mkPiece 0 (String.length code) code code false].

(** [Chunk.edit(content)]. *)
Definition edit (content : string) (p : Piece) : Piece :=
  mkPiece (pstart p) (pend p) (poriginal p) content true.

(** [Chunk.contains(index)]. *)
Definition contains (index : nat) (p : Piece) : bool :=
  (pstart p <? index) && (index <? pend p).

(** [Chunk.split(index)]: the piece and the new piece after it. *)
Definition splitPiece (index : nat) (p : Piece) : Piece * Piece :=
  let sliceIndex := index - pstart p in
  let originalBefore := JsString.take sliceIndex (poriginal p) in
  let originalAfter := JsString.drop sliceIndex (poriginal p) in
  if pedited p then
    (mkPiece (pstart p) index originalBefore EmptyString true,
     mkPiece index (pend p) originalAfter EmptyString true)
  else
    (mkPiece (pstart p) index originalBefore originalBefore false,
     mkPiece index (pend p) originalAfter originalAfter false).

(** [_splitChunk] on the piece that contains [index]. *)
Fixpoint splitContaining (index : nat) (ps : list Piece) : Result (list Piece) :=
  match ps with
  | [] => Ok []
  | p :: rest =>
      if contains index p then
        if pedited p && JsString.truthy (pcontent p) then
          Throw "Cannot split a chunk that has already been edited"
        else let '(before, after) := splitPiece index p in
             Ok (before :: after :: rest)
      else
        let* rest' := splitContaining index rest in Ok (p :: rest')
  end.

(** [_split(index)]: nothing to do at a boundary. *)
Definition split (index : nat) (ps : list Piece) : Result (list Piece) :=
  if List.existsb (fun p => (pstart p =? index) || (pend p =? index)) ps
  then Ok ps
  else splitContaining index ps.

(** The pieces after the first, up to the one that ends at [e], lose their
    content. *)
Fixpoint blankUntil (e : nat) (ps : list Piece) : list Piece :=
  match ps with
  | [] => []
  | p :: rest =>
      if pend p =? e then edit EmptyString p :: rest
      else edit EmptyString p :: blankUntil e rest
  end.

Fixpoint editFrom (s e : nat) (content : string) (ps : list Piece) : list Piece :=
  match ps with
  | [] => []
  | p :: rest =>
      if pstart p =? s then
        edit content p :: (if pend p =? e then rest else blankUntil e rest)
      else p :: editFrom s e content rest
  end.

(** [overwrite(start, end, content)]. *)
Definition overwrite (s e : nat) (content : string) (ms : t) : Result t :=
  if String.length (original ms) <? e then Throw "end is out of bounds"
  else if s =? e then
    Throw "Cannot overwrite a zero-length range - use appendLeft or prependRight instead"
  else if e <? s then Throw "Cannot overwrite across a split point"
  else
    let* ps1 := split s (pieces ms) in
    let* ps2 := split e ps1 in
    Ok (mk (original ms) (editFrom s e content ps2)).

(** [toString()]. *)
Definition toString (ms : t) : string :=
  JsString.cat (List.map pcontent (pieces ms)).

End MagicString.

(* ================================================================== *)
(** ** The bundle and the syntax tree *)

Record SourceMap : Type := mkSourceMap {
  map_file : string;
  map_sources : option (list string);
  map_sourcesContent : option (list string);
  map_mappings : string
}.

(** A chunk of Rollup's output bundle: the fields the plugin reads or
    writes.  [moduleIds] and the keys of [modules] are lists; an absent
    field and an empty one take the same branch in the source. *)
Record OutputChunk : Type := mkChunk {
  fileName : string;
  name : string;
  code : string;
  map : option SourceMap;
  facadeModuleId : option string;
  moduleIds : list string;
  modules : list string
}.

(** [chunk.type]: ['chunk'] or ['asset']. *)
Inductive Output : Type :=
| Chunk (c : OutputChunk)
| Asset (fileName : string).

Definition OutputBundle : Type := JsObject.t Output.

(** [chunk.code = ...; chunk.map = ...] and [chunk.fileName = ...]. *)
Definition setCodeAndMap (code' : string) (map' : option SourceMap)
    (chunk : OutputChunk) : OutputChunk :=
  mkChunk (fileName chunk) (name chunk) code' map'
          (facadeModuleId chunk) (moduleIds chunk) (modules chunk).

Definition setFileName (fileName' : string) (chunk : OutputChunk) : OutputChunk :=
  mkChunk fileName' (name chunk) (code chunk) (map chunk)
          (facadeModuleId chunk) (moduleIds chunk) (modules chunk).

(** The value of a literal: a string or anything else. *)
Inductive LiteralValue : Type :=
| StringValue (s : string)
| OtherValue (truthy : bool).

(** [node.source]: a literal with its range, or another expression. *)
Inductive Expression : Type :=
| Literal (value : LiteralValue) (start end_ : nat)
| NotLiteral.

(** The nodes the four visitors are called on. *)
Inductive Node : Type :=
| ImportDeclaration (source : Expression)
| ExportNamedDeclaration (source : option Expression)
| ExportAllDeclaration (source : Expression)
| ImportExpression (source : Expression).

(** What [Parser.parse] followed by acorn-walk's [simple] hands the
    visitors: the visited nodes in visiting order, or the parser's error as
    [String(error)] renders it. *)
Inductive ParseResult : Type :=
| Parsed (visited : list Node)
| SyntaxError (rendered : string).

Record RewriteOp : Type := mkOp {
  op_start : nat;
  op_end : nat;
  replacement : string
}.

(** The ways [handleImportSource] returns. *)
Inductive SiteOutcome : Type :=
| Ignored
| NotFound (warning : option string)
| Push (op : RewriteOp).

(* ================================================================== *)
(** ** The plugin *)

Record ImportMapPluginOptions : Type := mkOptions {
  opt_assetsDir : option string;
  opt_useAbsolutePaths : option bool
}.

(** The closure of one [importMapPlugin(options)] call, lines 26-34. *)
Record Plugin : Type := mkPlugin {
  options : option ImportMapPluginOptions;
  useAbsolutePaths : bool;
  chunkMapping : JsMap.t string;
  baseNameCounts : JsMap.t N;
  imports : JsObject.t string;
  resolvedAssetsDir : string
}.

(** [options?.assetsDir]. *)
Definition optionsAssetsDir (options : option ImportMapPluginOptions) : option string :=
  match options with
  | Some o => opt_assetsDir o
  | None => None
  end.

Definition importMapPlugin (options : option ImportMapPluginOptions) : Plugin :=
  let assetsDir :=
    match optionsAssetsDir options with
    | Some d => d
    | None => "assets"
    end in
  let useAbsolutePaths :=
    match options with
    | Some o => match opt_useAbsolutePaths o with Some b => b | None => true end
    | None => true
    end in
  mkPlugin options useAbsolutePaths JsMap.empty JsMap.empty JsObject.empty assetsDir.

(** [configResolved(config)], lines 38-43; [buildAssetsDir] is
    [config.build?.assetsDir]. *)
Definition configResolved (buildAssetsDir : option string) (p : Plugin) : Plugin :=
  let unset :=
    match optionsAssetsDir (options p) with
    | Some d => negb (JsString.truthy d)
    | None => true
    end in
  match buildAssetsDir with
  | Some d =>
      if unset && JsString.truthy d then
        mkPlugin (options p) (useAbsolutePaths p) (chunkMapping p)
                 (baseNameCounts p) (imports p) d
      else p
  | None => p
  end.

Definition dotJs : string := ".js".

(** [fileName.includes('/') ? fileName.split('/').pop()! : fileName]. *)
Definition filenameOnlyOf (fileName : string) : string :=
  if JsString.includesChar slash fileName
  then JsString.pop (JsString.split slash fileName)
  else fileName.

(** [useAbsolutePaths ? '/' : './']. *)
Definition pathPrefix (p : Plugin) : string :=
  if useAbsolutePaths p then "/" else "./".

(** The path a specifier resolves to, lines 98 and 251. *)
Definition resolvedPath (p : Plugin) (filenameOnly : string) : string :=
  JsString.cat [pathPrefix p; resolvedAssetsDir p; "/"; filenameOnly].

(** *** First pass, lines 49-54 *)

Definition countOf (baseName : string) (counts : JsMap.t N) : N :=
  match JsMap.get baseName counts with
  | Some n => n
  | None => 0%N
  end.

Definition countEntry (counts : JsMap.t N) (entry : string * Output) : JsMap.t N :=
  match entry with
  | (fileName, Chunk chunk) =>
      if negb (JsString.endsWith fileName dotJs) then counts
      else JsMap.set (name chunk) (countOf (name chunk) counts + 1)%N counts
  | (_, Asset _) => counts
  end.

Definition firstPass (bundleEntries : list (string * Output)) (p : Plugin) : Plugin :=
  mkPlugin (options p) (useAbsolutePaths p) (chunkMapping p)
           (List.fold_left countEntry bundleEntries (baseNameCounts p))
           (imports p) (resolvedAssetsDir p).

(** *** Second pass, lines 57-99 *)

(** Lines 69-79. *)
Definition sourcePathOf (chunk : OutputChunk) : string :=
  match facadeModuleId chunk with
  | Some id =>
      if JsString.truthy id then id
      else match moduleIds chunk with
           | first :: _ => first
           | [] => match modules chunk with
                   | key :: _ => key
                   | [] => EmptyString
                   end
           end
  | None =>
      match moduleIds chunk with
      | first :: _ => first
      | [] => match modules chunk with
              | key :: _ => key
              | [] => EmptyString
              end
      end
  end.

(** Line 82. *)
Definition hashInputOf (chunk : OutputChunk) : string :=
  let sourcePath := sourcePathOf chunk in
  if JsString.truthy sourcePath
  then JsString.cat [sourcePath; ":"; name chunk]
  else name chunk.

(** Line 83. *)
Definition moduleSpecOf (counts : JsMap.t N) (chunk : OutputChunk) : string :=
  let baseName := name chunk in
  let count := countOf baseName counts in
  if (1 <? count)%N
  then JsString.cat [baseName; "-"; computeHash (hashInputOf chunk)]
  else baseName.

Definition mapEntry (p : Plugin) (entry : string * Output) : Plugin :=
  match entry with
  | (fileName, Chunk chunk) =>
      if negb (JsString.endsWith fileName dotJs) then p
      else
        let baseName := name chunk in
        let moduleSpec := moduleSpecOf (baseNameCounts p) chunk in
        let filenameOnly := filenameOnlyOf fileName in
        let mapping :=
          JsMap.set baseName moduleSpec
            (JsMap.set filenameOnly moduleSpec
               (JsMap.set fileName moduleSpec (chunkMapping p))) in
        mkPlugin (options p) (useAbsolutePaths p) mapping (baseNameCounts p)
                 (JsObject.set moduleSpec (resolvedPath p filenameOnly) (imports p))
                 (resolvedAssetsDir p)
  | (_, Asset _) => p
  end.

Definition secondPass (bundleEntries : list (string * Output)) (p : Plugin) : Plugin :=
  List.fold_left mapEntry bundleEntries p.

(** *** Third pass, lines 105-230 *)

(** [handleImportSource], lines 124-154. *)
Definition handleImportSource (p : Plugin) (fileName : string)
    (source : option Expression) (importType : string) : SiteOutcome :=
  match source with
  | None => Ignored
  | Some NotLiteral => Ignored
  | Some (Literal (OtherValue _) _ _) => Ignored
  | Some (Literal (StringValue specifier) start end_) =>
      if negb (JsString.truthy specifier) then Ignored
      else
        let isRelative := JsString.startsWith specifier "./" in
        let isAbsolute :=
          JsString.startsWith specifier (JsString.cat ["/"; resolvedAssetsDir p; "/"]) in
        let isAbsoluteWithDot :=
          JsString.startsWith specifier (JsString.cat ["./"; resolvedAssetsDir p; "/"]) in
        if negb isRelative && negb isAbsolute && negb isAbsoluteWithDot then Ignored
        else
          let filename := JsString.pop (JsString.split slash specifier) in
          match JsMap.get filename (chunkMapping p) with
          | Some (String c spec) =>
              Push (mkOp (start + 1) (end_ - 1) (String c spec))
          | _ =>
              if JsString.includesChar dash filename && JsString.endsWith filename dotJs
              then NotFound (Some (JsString.cat
                     ["[import-map] No module spec found for "; importType;
                      " import: "; filename; " in "; fileName]))
              else NotFound None
          end
  end.

(** The four visitors, lines 157-165. *)
Definition visit (p : Plugin) (fileName : string) (node : Node) : SiteOutcome :=
  match node with
  | ImportDeclaration source => handleImportSource p fileName (Some source) "static"
  | ExportNamedDeclaration source => handleImportSource p fileName source "named export"
  | ExportAllDeclaration source => handleImportSource p fileName (Some source) "export all"
  | ImportExpression source =>
      match source with
      | Literal _ _ _ => handleImportSource p fileName (Some source) "dynamic"
      | NotLiteral => Ignored
      end
  end.

(** [importsToTransform] once the walk is over. *)
Fixpoint importsToTransform (p : Plugin) (fileName : string) (visited : list Node)
    : list RewriteOp :=
  match visited with
  | [] => []
  | node :: rest =>
      match visit p fileName node with
      | Push op => op :: importsToTransform p fileName rest
      | _ => importsToTransform p fileName rest
      end
  end.

(** [(a, b) => b.start - a.start], line 168. *)
Definition byStartDescending (a b : RewriteOp) : Z :=
  (Z.of_nat (op_start b) - Z.of_nat (op_start a))%Z.

(** The loop of lines 169-172. *)
Fixpoint overwriteAll (ops : list RewriteOp) (ms : MagicString.t) : Result MagicString.t :=
  match ops with
  | [] => Ok ms
  | op :: rest =>
      let* ms' := MagicString.overwrite (op_start op) (op_end op) (replacement op) ms in
      overwriteAll rest ms'
  end.

(** Line 182: every [//# sourceMappingURL=] comment goes, up to the end of
    its line. *)
Definition sourceMappingURL : string := "//# sourceMappingURL=".

Definition isLineTerminator (c : ascii) : bool :=
  Ascii.eqb c (ascii_of_nat 10) || Ascii.eqb c (ascii_of_nat 13).

Fixpoint stripFrom (inComment : bool) (s : string) : string :=
  match s with
  | EmptyString => EmptyString
  | String c s' =>
      if inComment then
        if isLineTerminator c then String c (stripFrom false s')
        else stripFrom true s'
      else if JsString.startsWith s sourceMappingURL then stripFrom true s'
      else String c (stripFrom false s')
  end.

Definition stripSourceMaps (transformedCode : string) : string :=
  stripFrom false transformedCode.

(** Lines 188-191. *)
Definition newFileNameOf (chunk : OutputChunk) (fileName newHash : string) : string :=
  let baseName := name chunk in
  if JsString.truthy baseName
  then JsString.cat [baseName; "-"; newHash; dotJs]
  else filenameOnlyOf fileName.

Definition newFilePathOf (fileName newFileName : string) : string :=
  if JsString.includesChar slash fileName
  then JsString.cat
         [JsString.join "/" (JsString.init (JsString.split slash fileName));
          "/"; newFileName]
  else newFileName.

Section Host.

(** acorn's parser and walker. *)
Variable parse : string -> ParseResult.

(** [magicString.generateMap({source, file, ...})]; [None] when it throws. *)
Variable generateMap : MagicString.t -> string -> string -> option SourceMap.

(** Line 197: the first [//# sourceMappingURL=... .map] comment of the code
    pointed at [newFileName + '.map']. *)
Variable replaceMapComment : string -> string -> string.

(** The [try] block, lines 113-175: the rewritten text and [transformed]. *)
Definition rewriteCode (p : Plugin) (fileName code : string)
    : Result (bool * MagicString.t) :=
  let magicString := MagicString.create code in
  match parse code with
  | SyntaxError error => Throw (JsString.cat ["Error parsing code: "; error])
  | Parsed visited =>
      let ops := JsArray.sort byStartDescending (importsToTransform p fileName visited) in
      match overwriteAll ops magicString with
      | Throw message =>
          Throw (JsString.cat ["Error parsing code: "; "Error: "; message])
      | Ok ms => Ok (match ops with [] => false | _ :: _ => true end, ms)
      end
  end.

(** Lines 195-226. *)
Definition updateMap (chunk : OutputChunk) (fileName newFileName transformedCode : string)
    (ms : MagicString.t) : string * option SourceMap :=
  match map chunk with
  | None => (transformedCode, None)
  | Some existingMap =>
      (replaceMapComment transformedCode newFileName,
       match generateMap ms fileName newFileName with
       | Some newMap =>
           Some (mkSourceMap newFileName
                   (match map_sources existingMap with
                    | Some s => Some s
                    | None => map_sources newMap
                    end)
                   (match map_sourcesContent existingMap with
                    | Some s => Some s
                    | None => map_sourcesContent newMap
                    end)
                   (map_mappings newMap))
       | None => Some existingMap
       end)
  end.

(** One turn of the loop of line 105: the entry as the turn leaves it and
    the rename it stages, if any. *)
Definition transformEntry (p : Plugin) (fileName : string) (out : Output)
    : Result (Output * option string) :=
  match out with
  | Asset _ => Ok (out, None)
  | Chunk chunk =>
      if negb (JsString.truthy (code chunk)) || negb (JsString.endsWith fileName dotJs)
      then Ok (out, None)
      else
        let* (transformed, magicString) := rewriteCode p fileName (code chunk) in
        if negb transformed then Ok (out, None)
        else
          let transformedCode := MagicString.toString magicString in
          let codeWithoutSourceMaps := stripSourceMaps transformedCode in
          let newHash := computeHash codeWithoutSourceMaps in
          let newFileName := newFileNameOf chunk fileName newHash in
          let newFilePath := newFilePathOf fileName newFileName in
          let '(finalCode, newMap) :=
            updateMap chunk fileName newFileName transformedCode magicString in
          Ok (Chunk (setCodeAndMap finalCode newMap chunk), Some newFilePath)
  end.

Fixpoint thirdPass (p : Plugin) (bundleEntries : list (string * Output))
    (fileRenames : JsMap.t string)
    : Result (list (string * Output) * JsMap.t string) :=
  match bundleEntries with
  | [] => Ok ([], fileRenames)
  | (fileName, out) :: rest =>
      let* (out', staged) := transformEntry p fileName out in
      let fileRenames' :=
        match staged with
        | Some newFilePath => JsMap.set fileName newFilePath fileRenames
        | None => fileRenames
        end in
      let* (rest', renames) := thirdPass p rest fileRenames' in
      Ok ((fileName, out') :: rest', renames)
  end.

(** *** Fourth pass, lines 233-257 *)

Definition commitRename (state : OutputBundle * Plugin) (rename : string * string)
    : OutputBundle * Plugin :=
  let '(bundle, p) := state in
  let '(oldFileName, newFileName) := rename in
  match JsObject.get oldFileName bundle with
  | Some (Chunk chunk) =>
      let bundle' :=
        JsObject.set newFileName (Chunk (setFileName newFileName chunk))
          (JsObject.delete oldFileName bundle) in
      let filenameOnly := filenameOnlyOf oldFileName in
      match JsMap.get filenameOnly (chunkMapping p) with
      | Some (String c spec) =>
          let moduleSpec := String c spec in
          let newFilenameOnly := filenameOnlyOf newFileName in
          (bundle',
           mkPlugin (options p) (useAbsolutePaths p)
             (JsMap.set filenameOnly moduleSpec
                (JsMap.set newFilenameOnly moduleSpec
                   (JsMap.set newFileName moduleSpec (chunkMapping p))))
             (baseNameCounts p)
             (JsObject.set moduleSpec (resolvedPath p newFilenameOnly) (imports p))
             (resolvedAssetsDir p))
      | _ => (bundle', p)
      end
  | _ => (bundle, p)
  end.

Definition fourthPass (fileRenames : JsMap.t string) (bundle : OutputBundle)
    (p : Plugin) : OutputBundle * Plugin :=
  List.fold_left commitRename (JsMap.entries fileRenames) (bundle, p).

(** [generateBundle(_options, bundle)], lines 44-260: the bundle and the
    closure as the hook leaves them, or the error it throws. *)
Definition generateBundle (p : Plugin) (bundle : OutputBundle)
    : Result (OutputBundle * Plugin) :=
  let bundleEntries := JsObject.entries bundle in
  let p1 := firstPass bundleEntries p in
  let p2 := secondPass bundleEntries p1 in
  let* (bundle3, fileRenames) := thirdPass p2 bundleEntries JsMap.empty in
  Ok (fourthPass fileRenames bundle3 p2).

(** The renames the third pass stages, for the statements below. *)
Definition stagedRenames (p : Plugin) (bundle : OutputBundle)
    : Result (JsMap.t string) :=
  let bundleEntries := JsObject.entries bundle in
  let p2 := secondPass bundleEntries (firstPass bundleEntries p) in
  let* (_, fileRenames) := thirdPass p2 bundleEntries JsMap.empty in
  Ok fileRenames.

End Host.

Section Collation.

(** [a.localeCompare(b)] in the host's default locale. *)
Variable localeCompare : string -> string -> Z.

(** [transformIndexHtml()], lines 261-283: the closure with its table
    replaced by the sorted one, and the table as serialised into the tag. *)
Definition sortedImportsOf (table : JsObject.t string) : JsObject.t string :=
  let entries :=
    JsArray.sort (fun a b => localeCompare (fst a) (fst b)) (JsObject.entries table) in
  List.fold_left (fun sortedImports kv => JsObject.set (fst kv) (snd kv) sortedImports)
                 entries JsObject.empty.

Definition transformIndexHtml (p : Plugin) : Plugin * JsObject.t string :=
  let sortedImports := sortedImportsOf (imports p) in
  (mkPlugin (options p) (useAbsolutePaths p) (chunkMapping p) (baseNameCounts p)
            sortedImports (resolvedAssetsDir p),
   sortedImports).

End Collation.

(* ================================================================== *)
(** ** Reference definitions for the statements *)

(** The text a list of rewrite operations denotes when the operations are
    given from the highest range down and no two ranges meet: the text
    after the range stays, the range becomes the replacement, and the
    lower operations act on the text before the range. *)
Fixpoint spliceOps (text : string) (ops : list RewriteOp) : string :=
  match ops with
  | [] => text
  | op :: rest =>
      spliceOps (JsString.take (op_start op) text) rest
      ++ replacement op ++ JsString.drop (op_end op) text
  end.

(** Ranges from the highest down, each non-empty, below [bound] and below
    the one before. *)
Fixpoint separated (bound : nat) (ops : list RewriteOp) : Prop :=
  match ops with
  | [] => True
  | op :: rest =>
      op_start op < op_end op /\ op_end op <= bound /\ separated (op_start op) rest
  end.

(** Two ranges that do not meet. *)
Definition apart (a b : RewriteOp) : Prop :=
  op_end a <= op_start b \/ op_end b <= op_start a.

(** The ranges of a list of operations lie in a text of [len] characters,
    are not empty, and are pairwise apart. *)
Definition wellFormedOps (len : nat) (ops : list RewriteOp) : Prop :=
  List.Forall (fun op => op_start op < op_end op /\ op_end op <= len) ops
  /\ List.ForallOrdPairs apart ops.

(** A specifier the rewriter considers, lines 134-137. *)
Definition isCandidate (p : Plugin) (specifier : string) : bool :=
  JsString.startsWith specifier "./"
  || JsString.startsWith specifier (JsString.cat ["/"; resolvedAssetsDir p; "/"])
  || JsString.startsWith specifier (JsString.cat ["./"; resolvedAssetsDir p; "/"]).

(** A script chunk of the bundle: [chunk.type === 'chunk'] under a key that
    ends in [.js]. *)
Definition isScript (entry : string * Output) : bool :=
  match entry with
  | (fileName, Chunk _) => JsString.endsWith fileName dotJs
  | (_, Asset _) => false
  end.

(** How many script chunks of the entries carry the base name. *)
Fixpoint occurrences (baseName : string) (entries : list (string * Output)) : N :=
  match entries with
  | [] => 0%N
  | (fileName, Chunk chunk) :: rest =>
      if JsString.endsWith fileName dotJs && (name chunk =? baseName)%string
      then (occurrences baseName rest + 1)%N
      else occurrences baseName rest
  | (_, Asset _) :: rest => occurrences baseName rest
  end.

(** The characters of the base64url alphabet. *)
Definition urlSafe (c : ascii) : bool :=
  JsString.includesChar c Base64Url.alphabet.

Fixpoint allChars (f : ascii -> bool) (s : string) : bool :=
  match s with
  | EmptyString => true
  | String c s' => f c && allChars f s'
  end.

(** Comparison by code units: the order of [<] on JavaScript strings. *)
Definition codeUnitCompare (a b : string) : Z :=
  match String.compare a b with
  | Lt => (-1)%Z
  | Eq => 0%Z
  | Gt => 1%Z
  end.

(** The string literal a visited node hands to [handleImportSource]: its
    value and the range of the literal, quotes included. *)
Definition siteLiteral (node : Node) : option (string * nat * nat) :=
  match node with
  | ImportDeclaration (Literal (StringValue s) a b)
  | ExportNamedDeclaration (Some (Literal (StringValue s) a b))
  | ExportAllDeclaration (Literal (StringValue s) a b)
  | ImportExpression (Literal (StringValue s) a b) => Some (s, a, b)
  | _ => None
  end.

(** The stable specifier the mapping holds for the bare filename of a
    specifier, lines 139-141; an empty one counts as none. *)
Definition stableSpecifierFor (p : Plugin) (specifier : string) : option string :=
  match JsMap.get (JsString.pop (JsString.split slash specifier)) (chunkMapping p) with
  | Some (String c m) => Some (String c m)
  | _ => None
  end.



(** ** Concrete hosts for the examples *)

Definition doubleQuote : string := String (ascii_of_nat 34) EmptyString.

(** A parser known on the texts of a table; anything else is reported as a
    syntax error. *)
Fixpoint acornOn (table : list (string * list Node)) (code : string) : ParseResult :=
  match table with
  | [] => SyntaxError "SyntaxError: Unexpected token (1:0)"
  | (text, visited) :: rest =>
      if (text =? code)%string then Parsed visited else acornOn rest code
  end.

Definition noGenerateMap (_ : MagicString.t) (_ _ : string) : option SourceMap := None.

Definition keepMapComment (code _ : string) : string := code.

(** [import x from "./button-abc123.js"]: the literal spans offsets 14-34. *)
Definition importButton : string :=
  JsString.cat ["import x from "; doubleQuote; "./button-abc123.js"; doubleQuote].

Definition importButtonVisited : list Node :=
  [ImportDeclaration (Literal (StringValue "./button-abc123.js") 14 34)].

Definition importButtonRewritten : string :=
  JsString.cat ["import x from "; doubleQuote; "button"; doubleQuote].

(** [import "lodash"]: the literal spans offsets 7-15. *)
Definition importLodash : string :=
  JsString.cat ["import "; doubleQuote; "lodash"; doubleQuote].

Definition importLodashVisited : list Node :=
  [ImportDeclaration (Literal (StringValue "lodash") 7 15)].

(** [import("./dynamic-" + x + ".js")]: the source is a binary expression. *)
Definition importComputed : string :=
  JsString.cat ["import("; doubleQuote; "./dynamic-"; doubleQuote; " + x + ";
                doubleQuote; ".js"; doubleQuote; ")"].

Definition importComputedVisited : list Node := [ImportExpression NotLiteral].

Definition buttonHost : string -> ParseResult :=
  acornOn [(importButton, importButtonVisited)].

Definition buttonPlugin : Plugin :=
  mkPlugin None true [("button-abc123.js", "button")] JsMap.empty JsObject.empty "assets".

(** A chunk with no source map and no identity hints. *)
Definition plainChunk (fileName name code : string) : Output :=
  Chunk (mkChunk fileName name code None None [] []).

(** [export const z = 1;]: one export with no source. *)
Definition exportConst : string := "export const z = 1;".

Definition exportConstVisited : list Node := [ExportNamedDeclaration None].

(** [import x from "../button-abc123.js"]: the literal spans offsets 14-35. *)
Definition importParent : string :=
  JsString.cat ["import x from "; doubleQuote; "../button-abc123.js"; doubleQuote].

Definition importParentVisited : list Node :=
  [ImportDeclaration (Literal (StringValue "../button-abc123.js") 14 35)].

(** The parser on the example texts. *)
Definition exampleHost : string -> ParseResult :=
  acornOn [(importButton, importButtonVisited);
           (importLodash, importLodashVisited);
           (importComputed, importComputedVisited);
           (exportConst, exportConstVisited);
           (importParent, importParentVisited)].


(** ** Reference definitions for the passes *)


(** The closure after the first two passes over a bundle. *)
Definition afterSecondPass (p : Plugin) (bundle : OutputBundle) : Plugin :=
  secondPass (JsObject.entries bundle) (firstPass (JsObject.entries bundle) p).

(** The staged new names are pairwise different and none is a key of the
    bundle. *)
Definition freshTargets (bundle : OutputBundle) (renames : JsMap.t string) : Prop :=
  NoDup (List.map snd renames)
  /\ forall o n, In (o, n) renames -> ~ In n (JsObject.keys bundle).


(** Every staged old name is a chunk of the bundle, no staged new name is a
    key of it, and neither the old nor the new names repeat. *)
Definition committable (bundle : OutputBundle) (renames : list (string * string)) : Prop :=
  NoDup (List.map fst renames) /\ NoDup (List.map snd renames)
  /\ forall o n, In (o, n) renames ->
                 (exists c, JsObject.get o bundle = Some (Chunk c))
                 /\ JsObject.get n bundle = None.

Definition commitAll (renames : list (string * string)) (state : OutputBundle * Plugin)
    : OutputBundle * Plugin :=
  List.fold_left commitRename renames state.

(** What the plugin is configured with. *)
Definition sameSettings (p q : Plugin) : Prop :=
  options q = options p /\ useAbsolutePaths q = useAbsolutePaths p
  /\ resolvedAssetsDir q = resolvedAssetsDir p.

(** Keys of the two tables are never removed. *)
Definition tablesGrow (p q : Plugin) : Prop :=
  (forall k, JsMap.get k (chunkMapping p) <> None -> JsMap.get k (chunkMapping q) <> None)
  /\ (forall k, JsObject.has k (imports p) = true -> JsObject.has k (imports q) = true).

(** The renames a run of the third pass stages, in order. *)
Definition stagedBy (parse : string -> ParseResult)
    (generateMap : MagicString.t -> string -> string -> option SourceMap)
    (replaceMapComment : string -> string -> string)
    (p : Plugin) (entries : list (string * Output))
    (staged : list (string * string)) : Prop :=
  (forall f n, In (f, n) staged <->
               exists out out', In (f, out) entries
                                /\ transformEntry parse generateMap replaceMapComment
                                     p f out = Ok (out', Some n))
  /\ incl (List.map fst staged) (List.map fst entries)
  /\ NoDup (List.map fst staged).

(** Pieces of a [MagicString] at or after an offset, their text, and the
    piece no edit has reached. *)
Definition above (m : nat) (piece : MagicString.Piece) : Prop :=
  m <= MagicString.pstart piece /\ MagicString.pstart piece <= MagicString.pend piece.

Definition contents (ps : list MagicString.Piece) : string :=
  JsString.cat (List.map MagicString.pcontent ps).

Definition untouched (m : nat) (code : string) : MagicString.Piece :=
  MagicString.mkPiece 0 m (JsString.take m code) (JsString.take m code) false.

(** [a] may stand before [b] under a comparator. *)
Definition precedes {A : Type} (cmp : A -> A -> Z) (a b : A) : Prop := (cmp a b <= 0)%Z.

(** ** More example data *)

(** A bundle of one chunk that imports nothing, and the same code under
    another bundler hash. *)
Definition leafBundle : OutputBundle :=
  [("assets/button-abc123.js", plainChunk "assets/button-abc123.js" "button" exportConst)].

Definition leafBundle' : OutputBundle :=
  [("assets/button-def456.js", plainChunk "assets/button-def456.js" "button" exportConst)].







(** A flat bundle: an application chunk that imports the button chunk. *)
Definition appChunk : OutputChunk :=
  mkChunk "assets/app-1a2b3c4d.js" "app" importButton None (Some "/src/app.ts") [] [].

Definition flatBundle : OutputBundle :=
  [("assets/app-1a2b3c4d.js", Chunk appChunk);
   ("assets/button-abc123.js", plainChunk "assets/button-abc123.js" "button" exportConst)].

(** [import {]: acorn stops at the end of the text. *)
Definition importBroken : string := "import {".

Definition brokenHost (code : string) : ParseResult :=
  if (code =? importBroken)%string
  then SyntaxError "SyntaxError: Unexpected token (1:8)"
  else exampleHost code.

(** The flat bundle of a later build: the button chunk changed, so the
    bundler renamed it and, with it, the application chunk that imports
    it. *)
Definition importButton' : string :=
  JsString.cat ["import x from "; doubleQuote; "./button-xyz789.js"; doubleQuote].

Definition importButtonVisited' : list Node :=
  [ImportDeclaration (Literal (StringValue "./button-xyz789.js") 14 34)].

Definition exportConst' : string := "export const z = 2;".

Definition appChunk' : OutputChunk :=
  mkChunk "assets/app-9f8e7d6c.js" "app" importButton' None (Some "/src/app.ts") [] [].

Definition flatBundle' : OutputBundle :=
  [("assets/app-9f8e7d6c.js", Chunk appChunk');
   ("assets/button-xyz789.js", plainChunk "assets/button-xyz789.js" "button" exportConst')].

Definition laterHost (code : string) : ParseResult :=
  acornOn [(importButton', importButtonVisited'); (exportConst', exportConstVisited)] code.

Definition twoBuildsHost (code : string) : ParseResult :=
  match exampleHost code with
  | Parsed visited => Parsed visited
  | SyntaxError _ => laterHost code
  end.

(** A collation that tells letters apart before case: ASCII capitals are
    compared as their small letters. *)
Definition toLower (c : ascii) : ascii :=
  let n := N_of_ascii c in
  if (65 <=? n)%N && (n <=? 90)%N then ascii_of_N (n + 32) else c.

Fixpoint lowered (s : string) : string :=
  match s with
  | EmptyString => EmptyString
  | String c s' => String (toLower c) (lowered s')
  end.

Definition alphabeticCompare (a b : string) : Z :=
  codeUnitCompare (lowered a) (lowered b).

(** Chunks named by numbers, and chunks named by letters of both cases. *)
Definition numberedBundle : OutputBundle :=
  [("assets/9-1a2b3c4d.js", plainChunk "assets/9-1a2b3c4d.js" "9" exportConst);
   ("assets/10-5e6f7a8b.js", plainChunk "assets/10-5e6f7a8b.js" "10" exportConst)].

Definition letteredBundle : OutputBundle :=
  [("assets/B-1a2b3c4d.js", plainChunk "assets/B-1a2b3c4d.js" "B" exportConst);
   ("assets/a-5e6f7a8b.js", plainChunk "assets/a-5e6f7a8b.js" "a" exportConst)].

(* ================================================================== *)
(** ** Reference definitions for the properties of the passes *)





(** A table value that lies directly in the assets directory. *)
Definition insideAssets (p : Plugin) (value : string) : Prop :=
  exists file, JsString.includesChar slash file = false /\ value = resolvedPath p file.

(** A text with no line terminator, and a text in which the source-map
    marker starts nowhere. *)
Definition oneLine (s : string) : bool :=
  allChars (fun c => negb (isLineTerminator c)) s.

Definition markerFree (s : string) : Prop :=
  forall i, JsString.startsWith (JsString.drop i s) sourceMappingURL = false.

(** The text ends here or goes on with a line terminator. *)
Definition atLineEnd (s : string) : bool :=
  match s with
  | EmptyString => true
  | String c _ => isLineTerminator c
  end.

(** Reading base64url back: the place of a character in the alphabet, and
    the three bytes of every four characters. *)
Fixpoint placeIn (alphabet : string) (c : ascii) : N :=
  match alphabet with
  | EmptyString => 0%N
  | String d rest => if Ascii.eqb c d then 0%N else (1 + placeIn rest c)%N
  end.

Definition sextetOf (c : ascii) : N := placeIn Base64Url.alphabet c.

Fixpoint decodeQuads (s : string) : list N :=
  match s with
  | String c0 (String c1 (String c2 (String c3 rest))) =>
      let s0 := sextetOf c0 in
      let s1 := sextetOf c1 in
      let s2 := sextetOf c2 in
      let s3 := sextetOf c3 in
      (s0 * 4 + s1 / 16)%N :: ((s1 mod 16) * 16 + s2 / 4)%N
        :: ((s2 mod 4) * 64 + s3)%N :: decodeQuads rest
  | _ => []
  end.

(** The byte values. *)
Definition byteValues : list N := List.map N.of_nat (List.seq 0 256).

(** The two middle characters of a quad, as [Base64Url.encode] computes
    them from neighbouring bytes. *)
Definition sextet1 (a b : N) : N := N.land (N.lor (N.shiftl a 4) (N.shiftr b 4)) 63.
Definition sextet2 (b c : N) : N := N.land (N.lor (N.shiftl b 2) (N.shiftr c 6)) 63.

(** Every value of the table lies directly in the assets directory. *)
Definition tableInsideAssets (p : Plugin) : Prop :=
  forall spec value, JsObject.get spec (imports p) = Some value -> insideAssets p value.

(** ** Example data for the properties of the passes *)

(** [import a from "./a-1.js";import b from "./b-2.js";]: the literals span
    offsets 14-24 and 39-49.  The walker may hand over the two declarations
    in either order. *)
Definition twoImports : string :=
  JsString.cat ["import a from "; doubleQuote; "./a-1.js"; doubleQuote; ";";
                "import b from "; doubleQuote; "./b-2.js"; doubleQuote; ";"].

Definition twoImportsVisited : list Node :=
  [ImportDeclaration (Literal (StringValue "./a-1.js") 14 24);
   ImportDeclaration (Literal (StringValue "./b-2.js") 39 49)].

Definition twoImportsPlugin : Plugin :=
  mkPlugin None true [("a-1.js", "a"); ("b-2.js", "b")] JsMap.empty JsObject.empty "assets".

(** A style sheet and a chunk whose key does not end in [.js]. *)
Definition staticBundle : OutputBundle :=
  [("assets/style-1a2b3c4d.css", Asset "assets/style-1a2b3c4d.css");
   ("assets/worker-5e6f7a8b.mjs",
    plainChunk "assets/worker-5e6f7a8b.mjs" "worker" importButton)].

(** The flat bundle with a style sheet beside the chunks. *)
Definition styledBundle : OutputBundle :=
  [("assets/app-1a2b3c4d.js", Chunk appChunk);
   ("assets/button-abc123.js", plainChunk "assets/button-abc123.js" "button" exportConst);
   ("assets/style-1a2b3c4d.css", Asset "assets/style-1a2b3c4d.css")].

(** The mapping holds a non-empty specifier for an alias. *)
Definition aliased (alias : string) (p : Plugin) : Prop :=
  exists c spec, JsMap.get alias (chunkMapping p) = Some (String c spec).

(** A closure whose table holds the two entries of the flat bundle. *)
Definition flatTablePlugin : Plugin :=
  mkPlugin None true JsMap.empty JsMap.empty
    [("button", "/assets/button-abc123.js"); ("app", "/assets/app-tfL_2xSU.js")] "assets".

(* ================================================================== *)
(** * Properties *)

Local Open Scope list_scope.
Local Open Scope string_scope.

(* ------------------------------------------------------------------ *)
(** ** Strings *)

(* ================================================================== *)
(** * Strings *)

Module StringFacts.
Import JsString.

Lemma append_nil_r (s : string) : s ++ EmptyString = s.
Proof. induction s as [|c s IH]; simpl; [reflexivity | now rewrite IH]. Qed.

Lemma append_assoc (a b c : string) : (a ++ b) ++ c = a ++ (b ++ c).
Proof. induction a as [|x a IH]; simpl; [reflexivity | now rewrite IH]. Qed.

Lemma length_append (a b : string) :
  String.length (a ++ b) = String.length a + String.length b.
Proof. induction a as [|x a IH]; simpl; [reflexivity | now rewrite IH]. Qed.

Lemma cat_cons (x : string) (l : list string) : cat (x :: l) = x ++ cat l.
Proof.
  unfold cat. destruct l as [|y l]; simpl.
  - now rewrite append_nil_r.
  - reflexivity.
Qed.

Lemma cat_app (l1 l2 : list string) : cat (l1 ++ l2) = cat l1 ++ cat l2.
Proof.
  induction l1 as [|x l1 IH].
  - reflexivity.
  - change ((x :: l1) ++ l2)%list with (x :: (l1 ++ l2))%list.
    now rewrite !cat_cons, IH, append_assoc.
Qed.

Lemma take_0 (s : string) : take 0 s = EmptyString.
Proof. now destruct s. Qed.

Lemma take_all (s : string) (n : nat) : String.length s <= n -> take n s = s.
Proof.
  revert n. induction s as [|c s IH]; intros [|n] H; simpl in *; try reflexivity; try lia.
  now rewrite IH by lia.
Qed.

Lemma drop_all (s : string) (n : nat) : String.length s <= n -> drop n s = EmptyString.
Proof.
  revert n. induction s as [|c s IH]; intros [|n] H; simpl in *; try reflexivity; try lia.
  now rewrite IH by lia.
Qed.


Lemma take_take (i j : nat) (s : string) : i <= j -> take i (take j s) = take i s.
Proof.
  revert j s. induction i as [|i IH]; intros [|j] [|c s] H; simpl; try reflexivity; try lia.
  now rewrite IH by lia.
Qed.

Lemma drop_take (i j : nat) (s : string) : drop i (take j s) = slice i j s.
Proof.
  unfold slice. revert j s. induction i as [|i IH]; intros j s.
  - simpl. now rewrite Nat.sub_0_r.
  - destruct j as [|j], s as [|c s]; simpl; try reflexivity.
    + now destruct (j - i).
    + apply IH.
Qed.


Lemma length_drop (n : nat) (s : string) :
  String.length (drop n s) = String.length s - n.
Proof.
  revert s. induction n as [|n IH]; intros [|c s]; simpl; try reflexivity.
  apply IH.
Qed.


Lemma take_app_le (n : nat) (a b : string) :
  n <= String.length a -> take n (a ++ b) = take n a.
Proof.
  revert a. induction n as [|n IH]; intros a H.
  - now rewrite !take_0.
  - destruct a as [|c a]; simpl in *; [lia|]. now rewrite IH by lia.
Qed.

Lemma drop_app_le (n : nat) (a b : string) :
  n <= String.length a -> drop n (a ++ b) = drop n a ++ b.
Proof.
  revert a. induction n as [|n IH]; intros a H.
  - reflexivity.
  - destruct a as [|c a]; simpl in *; [lia|]. now rewrite IH by lia.
Qed.

Lemma drop_drop (i j : nat) (s : string) : drop i (drop j s) = drop (j + i) s.
Proof.
  revert s. induction j as [|j IH]; intros s; simpl.
  - reflexivity.
  - destruct s as [|c s]; [now destruct i | apply IH].
Qed.

Lemma drop_slice (i j k : nat) (s : string) :
  i <= j -> j <= k -> drop (j - i) (slice i k s) = slice j k s.
Proof.
  intros Hij Hjk. unfold slice at 1. rewrite drop_take. unfold slice.
  rewrite drop_drop. f_equal; [lia | f_equal; lia].
Qed.

End StringFacts.

(* ------------------------------------------------------------------ *)
(** ** The piece table *)

Module MagicStringFacts.
Import JsString StringFacts MagicString.

Lemma contents_cons p ps : contents (p :: ps) = pcontent p ++ contents ps.
Proof. unfold contents. simpl List.map. apply cat_cons. Qed.

Lemma no_boundary_above (m index : nat) (tail : list Piece) :
  Forall (above m) tail -> index < m ->
  List.existsb (fun p => (pstart p =? index)%nat || (pend p =? index)%nat) tail = false.
Proof.
  intros H Hlt. induction H as [|p tail [Hp Hq] _ IH]; simpl; [reflexivity|].
  rewrite IH, orb_false_r.
  destruct (Nat.eqb_spec (pstart p) index), (Nat.eqb_spec (pend p) index); simpl; lia || reflexivity.
Qed.

Lemma above_weaken (m m' : nat) (tail : list Piece) :
  m' <= m -> Forall (above m) tail -> Forall (above m') tail.
Proof.
  intros Hle H. eapply Forall_impl; [|exact H]. unfold above. intros p [? ?]. lia.
Qed.

Ltac decide_tests :=
  repeat match goal with
         | |- context [(?a =? ?b)%nat] => destruct (Nat.eqb_spec a b); try lia
         | |- context [(?a <? ?b)%nat] => destruct (Nat.ltb_spec a b); try lia
         end.

(** One [overwrite] below every earlier one. *)
Lemma overwrite_untouched (code : string) (m s e : nat) (r : string) (tail : list Piece) :
  s < e -> e <= m -> m <= String.length code ->
  Forall (above m) tail ->
  exists tail',
    overwrite s e r (mk code (untouched m code :: tail))
    = Ok (mk code (if (s =? 0)%nat then tail' else untouched s code :: tail'))
    /\ contents tail' = r ++ slice e m code ++ contents tail
    /\ Forall (above s) tail'.
Proof.
  intros Hse Hem Hm Htail.
  pose proof (no_boundary_above m s tail Htail ltac:(lia)) as Hbs.
  assert (Hbe : e < m ->
    List.existsb (fun p => (pstart p =? e)%nat || (pend p =? e)%nat) tail = false)
    by (intro; now apply no_boundary_above with (m := m)).
  assert (Htail' : Forall (above s) tail) by (apply above_weaken with (m := m); [lia | exact Htail]).
  assert (Hslice : slice e e code = EmptyString)
    by (unfold slice; now rewrite Nat.sub_diag, take_0).
  unfold overwrite, split, untouched.
  destruct (Nat.eq_dec s 0) as [Hs0 | Hs0], (Nat.eq_dec e m) as [Hem' | Hem'];
    eexists;
    repeat first
      [ rewrite Hbs
      | rewrite Hbe by lia
      | progress unfold contains
      | progress cbn [original pieces List.existsb pstart pend pedited poriginal
                      orb andb bind splitContaining contains splitPiece editFrom]
      | match goal with
        | |- context [(?a =? ?b)%nat] => destruct (Nat.eqb_spec a b); try lia
        | |- context [(?a <? ?b)%nat] => destruct (Nat.ltb_spec a b); try lia
        end ];
    rewrite ?Nat.sub_0_r, ?take_take, ?drop_take by lia;
    (split; [reflexivity|]);
    rewrite ?contents_cons; cbn [edit pcontent].
  all: rewrite ?drop_slice by lia; subst; rewrite ?Hslice; (split; [reflexivity|]).
  all: repeat (constructor; [unfold above; cbn; lia|]); exact Htail'.
Qed.

(** The loop: operations from the highest range down. *)
Lemma overwriteAll_untouched (code : string) (ops : list RewriteOp) :
  forall (m : nat) (tail : list Piece),
    separated m ops -> m <= String.length code ->
    Forall (above m) tail ->
    exists ms,
      overwriteAll ops (mk code (untouched m code :: tail)) = Ok ms
      /\ toString ms = spliceOps (take m code) ops ++ contents tail.
Proof.
  induction ops as [|op rest IH]; intros m tail Hsep Hm Htail.
  - eexists. split; [reflexivity|].
    unfold toString. cbn [pieces]. fold (contents (untouched m code :: tail)).
    now rewrite contents_cons.
  - destruct Hsep as (Hse & Hem & Hrest).
    destruct (overwrite_untouched code m (op_start op) (op_end op) (replacement op) tail)
      as (tail' & Hover & Hcontents & Habove); try assumption.
    cbn [overwriteAll]. rewrite Hover. cbn [bind spliceOps].
    destruct (Nat.eqb_spec (op_start op) 0) as [H0 | H0].
    + destruct rest as [|op' rest'].
      * eexists. split; [reflexivity|].
        unfold toString. cbn [pieces spliceOps]. fold (contents tail').
        rewrite Hcontents, H0, !take_0. cbn [append].
        now rewrite drop_take, !append_assoc.
      * cbn in Hrest. lia.
    + destruct (IH (op_start op) tail') as (ms & Hall & Hstr); try assumption; try lia.
      exists ms. split; [exact Hall|].
      rewrite Hstr, Hcontents, take_take by lia.
      now rewrite drop_take, !append_assoc.
Qed.

Lemma take_length (s : string) : take (String.length s) s = s.
Proof. now apply take_all. Qed.

(** From a fresh [MagicString]. *)
Lemma overwriteAll_create (code : string) (ops : list RewriteOp) :
  separated (String.length code) ops ->
  exists ms,
    overwriteAll ops (create code) = Ok ms /\ toString ms = spliceOps code ops.
Proof.
  intro Hsep.
  destruct (overwriteAll_untouched code ops (String.length code) [] Hsep (le_n _) (Forall_nil _))
    as (ms & Hall & Hstr).
  exists ms. unfold create. unfold untouched in Hall. rewrite take_length in Hall.
  split; [exact Hall|].
  rewrite Hstr, take_length. unfold contents. cbn. apply append_nil_r.
Qed.

End MagicStringFacts.

(* ------------------------------------------------------------------ *)
(** ** Sorting and the rewrite of one chunk *)

Module SortFacts.
Import JsArray.

Section Generic.
Context {A : Type} (cmp : A -> A -> Z).

Lemma insert_perm (x : A) (l : list A) : Permutation (x :: l) (insert cmp x l).
Proof.
  induction l as [|y l IH]; simpl.
  - apply Permutation_refl.
  - destruct (cmp x y <=? 0)%Z.
    + apply Permutation_refl.
    + eapply perm_trans; [apply perm_swap | now apply perm_skip].
Qed.

Lemma sort_perm (l : list A) : Permutation l (sort cmp l).
Proof.
  induction l as [|x l IH]; simpl.
  - apply perm_nil.
  - eapply perm_trans; [apply perm_skip, IH | apply insert_perm].
Qed.

Lemma sort_Forall (P : A -> Prop) (l : list A) : Forall P l -> Forall P (sort cmp l).
Proof. intro H. eapply Permutation_Forall; [apply sort_perm | exact H]. Qed.

Lemma sort_nil_inv (l : list A) : sort cmp l = [] -> l = [].
Proof.
  intro H. apply Permutation_nil. rewrite <- H. apply Permutation_sym, sort_perm.
Qed.

(** With a comparator that is total and transitive the result ascends. *)
Hypothesis cmp_total : forall a b, precedes cmp a b \/ precedes cmp b a.
Hypothesis cmp_trans : forall a b c, precedes cmp a b -> precedes cmp b c -> precedes cmp a c.

Lemma insert_sorted (x : A) (l : list A) :
  StronglySorted (precedes cmp) l -> StronglySorted (precedes cmp) (insert cmp x l).
Proof.
  induction 1 as [|y l Hl IH Hy]; simpl.
  - repeat constructor.
  - destruct (Z.leb_spec (cmp x y) 0) as [Hxy | Hxy].
    + constructor; [now constructor|].
      constructor; [exact Hxy|].
      eapply Forall_impl; [|exact Hy]. intros z Hz. now apply cmp_trans with y.
    + constructor; [exact IH|].
      eapply Permutation_Forall; [apply insert_perm|].
      constructor; [|exact Hy].
      destruct (cmp_total x y) as [H | H]; [unfold precedes in H; lia | exact H].
Qed.

Lemma sort_sorted (l : list A) : StronglySorted (precedes cmp) (sort cmp l).
Proof.
  induction l as [|x l IH]; simpl; [constructor | now apply insert_sorted].
Qed.

End Generic.

(** Operations sorted by descending start, when their ranges are apart. *)
Lemma separated_insert (x : RewriteOp) (ops : list RewriteOp) :
  forall bound,
    op_start x < op_end x -> op_end x <= bound ->
    Forall (apart x) ops -> separated bound ops ->
    separated bound (insert byStartDescending x ops).
Proof.
  induction ops as [|y ops IH]; intros bound Hx Hb Hap Hsep; simpl.
  - auto.
  - inversion Hap as [|? ? Hxy Hrest]; subst.
    destruct Hsep as (Hy & Hyb & Hsep).
    unfold byStartDescending at 1.
    destruct (Z.leb_spec (Z.of_nat (op_start y) - Z.of_nat (op_start x)) 0) as [Hle | Hgt].
    + simpl. repeat split; try assumption; try lia.
      destruct Hxy as [H | H]; lia.
    + simpl. repeat split; try assumption.
      apply IH; try assumption.
      destruct Hxy as [H | H]; lia.
Qed.

Lemma sort_separated (len : nat) (ops : list RewriteOp) :
  wellFormedOps len ops -> separated len (sort byStartDescending ops).
Proof.
  intros [Hall Hpairs]. induction ops as [|x ops IH]; simpl; [exact I|].
  inversion Hall as [|? ? [Hx Hlen] Hall']; subst.
  inversion Hpairs as [|? ? Hxs Hpairs']; subst.
  apply separated_insert; try assumption.
  - now apply sort_Forall.
  - now apply IH.
Qed.

End SortFacts.

Module RewriteFacts.
Import JsString StringFacts MagicString MagicStringFacts SortFacts.

Section Host.
Variable parse : string -> ParseResult.

Lemma rewriteCode_splice (p : Plugin) (fileName code : string) (visited : list Node) :
  parse code = Parsed visited ->
  wellFormedOps (String.length code) (importsToTransform p fileName visited) ->
  exists ms,
    rewriteCode parse p fileName code
    = Ok (match importsToTransform p fileName visited with [] => false | _ :: _ => true end, ms)
    /\ toString ms
       = spliceOps code (JsArray.sort byStartDescending (importsToTransform p fileName visited)).
Proof.
  intros Hparse Hwf. unfold rewriteCode. rewrite Hparse.
  destruct (overwriteAll_create code _ (sort_separated _ _ Hwf)) as (ms & Hall & Hstr).
  rewrite Hall. exists ms. split; [|exact Hstr].
  f_equal. f_equal.
  destruct (importsToTransform p fileName visited) as [|op ops] eqn:E.
  - reflexivity.
  - destruct (JsArray.sort byStartDescending (op :: ops)) eqn:E'; [|reflexivity].
    apply sort_nil_inv in E'. discriminate.
Qed.


End Host.
End RewriteFacts.

(* ------------------------------------------------------------------ *)
(** ** Reference sites and splices *)

Module SiteFacts.
Import JsString StringFacts.

Lemma candidate_truthy (p : Plugin) (s : string) : isCandidate p s = true -> truthy s = true.
Proof.
  unfold isCandidate, startsWith. destruct s as [|c s]; [|reflexivity].
  cbn. destruct (resolvedAssetsDir p); cbn; discriminate.
Qed.

(** [handleImportSource] on a string literal, by cases. *)
Lemma handle_literal (p : Plugin) (fileName importType s : string) (a b : nat) :
  handleImportSource p fileName (Some (Literal (StringValue s) a b)) importType
  = if isCandidate p s then
      match stableSpecifierFor p s with
      | Some m => Push (mkOp (a + 1) (b - 1) m)
      | None =>
          handleImportSource p fileName (Some (Literal (StringValue s) a b)) importType
      end
    else Ignored.
Proof.
  destruct (isCandidate p s) eqn:Hc.
  - unfold handleImportSource, stableSpecifierFor.
    rewrite (candidate_truthy _ _ Hc). cbn [negb].
    unfold isCandidate in Hc. apply orb_true_iff in Hc.
    rewrite orb_true_iff in Hc.
    replace (negb (startsWith s "./")
             && negb (startsWith s (cat ["/"; resolvedAssetsDir p; "/"]))
             && negb (startsWith s (cat ["./"; resolvedAssetsDir p; "/"])))
      with false
      by (destruct Hc as [[-> | ->] | ->]; cbn; rewrite ?andb_false_r; reflexivity).
    destruct (JsMap.get (pop (split slash s)) (chunkMapping p)) as [[|c m]|]; reflexivity.
  - unfold handleImportSource. unfold isCandidate in Hc.
    apply orb_false_iff in Hc. destruct Hc as [Hc H3].
    apply orb_false_iff in Hc. destruct Hc as [H1 H2].
    rewrite H1, H2, H3. cbn. now destruct (negb (truthy s)).
Qed.

Lemma handle_not_found (p : Plugin) (fileName importType s : string) (a b : nat) :
  stableSpecifierFor p s = None ->
  forall op, handleImportSource p fileName (Some (Literal (StringValue s) a b)) importType
             <> Push op.
Proof.
  unfold stableSpecifierFor, handleImportSource. intros H op.
  destruct (negb (truthy s)); [discriminate|].
  destruct (_ && _); [discriminate|].
  destruct (JsMap.get (pop (split slash s)) (chunkMapping p)) as [[|c m]|];
    try discriminate H; destruct (_ && _); discriminate.
Qed.

(** When a visitor records an operation. *)
Lemma visit_push (p : Plugin) (fileName : string) (node : Node) (op : RewriteOp) :
  visit p fileName node = Push op <->
  exists s a b m,
    siteLiteral node = Some (s, a, b) /\ isCandidate p s = true
    /\ stableSpecifierFor p s = Some m /\ op = mkOp (a + 1) (b - 1) m.
Proof.
  split.
  - intro H.
    assert (Hlit : forall ty s a b,
               handleImportSource p fileName (Some (Literal (StringValue s) a b)) ty = Push op ->
               exists m, isCandidate p s = true /\ stableSpecifierFor p s = Some m
                         /\ op = mkOp (a + 1) (b - 1) m).
    { intros ty s a b Hh. rewrite handle_literal in Hh.
      destruct (isCandidate p s); [|discriminate].
      destruct (stableSpecifierFor p s) as [m|] eqn:Hm.
      - exists m. injection Hh as <-. auto.
      - now apply handle_not_found in Hh. }
    destruct node as [[[s|t] a b|] | [[[s|t] a b|]|] | [[s|t] a b|] | [[s|t] a b|]];
      cbn [visit] in H; try discriminate H;
      destruct (Hlit _ _ _ _ H) as (m & ? & ? & ?); exists s, a, b, m; cbn; auto.
  - intros (s & a & b & m & Hsite & Hc & Hm & ->).
    destruct node as [[[s'|t] a' b'|] | [[[s'|t] a' b'|]|] | [[s'|t] a' b'|] | [[s'|t] a' b'|]];
      cbn in Hsite; try discriminate Hsite; injection Hsite as -> -> ->;
      cbn [visit]; rewrite handle_literal, Hc, Hm; reflexivity.
Qed.


Lemma in_importsToTransform (p : Plugin) (fileName : string) (visited : list Node)
    (op : RewriteOp) :
  In op (importsToTransform p fileName visited)
  <-> exists node, In node visited /\ visit p fileName node = Push op.
Proof.
  induction visited as [|node rest IH]; cbn [importsToTransform].
  - split; [intros [] | intros (? & [] & _)].
  - destruct (visit p fileName node) as [| |op'] eqn:Hv.
    + rewrite IH. split.
      * intros (n & Hin & Hn). exists n. split; [now right | exact Hn].
      * intros (n & [-> | Hin] & Hn); [congruence | now exists n].
    + rewrite IH. split.
      * intros (n & Hin & Hn). exists n. split; [now right | exact Hn].
      * intros (n & [-> | Hin] & Hn); [congruence | now exists n].
    + split.
      * intros [<- | Hin].
        -- exists node. split; [now left | exact Hv].
        -- apply IH in Hin. destruct Hin as (n & Hin & Hn).
           exists n. split; [now right | exact Hn].
      * intros (n & [-> | Hin] & Hn).
        -- left. congruence.
        -- right. apply IH. now exists n.
Qed.


End SiteFacts.

Module SpliceFacts.
Import JsString StringFacts.


Lemma separated_weaken (bound bound' : nat) (ops : list RewriteOp) :
  bound <= bound' -> separated bound ops -> separated bound' ops.
Proof.
  destruct ops as [|op rest]; [auto|]. intros Hle (Hse & Hb & Hrest).
  repeat split; try assumption; lia.
Qed.






End SpliceFacts.

(* ------------------------------------------------------------------ *)
(** ** The digest *)

Module DigestFacts.
Import JsString StringFacts.

(** A digest starts with at least six bytes, each below 256. *)
Lemma digest_six (msg : list N) :
  exists b0 b1 b2 b3 b4 b5 rest,
    Sha256.digest msg
    = N.land b0 255 :: N.land b1 255 :: N.land b2 255
      :: N.land b3 255 :: N.land b4 255 :: N.land b5 255 :: rest.
Proof.
  unfold Sha256.digest.
  set (s := Sha256.blocks _ _ _).
  unfold Sha256.word_bytes, Sha256.be_bytes.
  cbn [List.seq List.rev List.map List.app].
  do 7 eexists. reflexivity.
Qed.

Lemma symbol_urlSafe (i : N) : (i < 64)%N -> urlSafe (Base64Url.symbol i) = true.
Proof.
  intro H. unfold Base64Url.symbol.
  assert (Hn : N.to_nat i < 64) by lia.
  generalize dependent (N.to_nat i). intros n Hn.
  do 64 (destruct n as [|n]; [reflexivity|]). lia.
Qed.

Lemma land_63 (x : N) : (N.land x 63 < 64)%N.
Proof.
  change 63%N with (N.ones 6). rewrite N.land_ones. now apply N.mod_lt.
Qed.

Lemma shiftr_byte (x : N) : (N.shiftr (N.land x 255) 2 < 64)%N.
Proof.
  rewrite N.shiftr_div_pow2. change (2 ^ 2)%N with 4%N.
  assert (H : (N.land x 255 < 256)%N).
  { change 255%N with (N.ones 8). rewrite N.land_ones. now apply N.mod_lt. }
  apply N.Div0.div_lt_upper_bound. exact H.
Qed.

(** [computeHash] yields eight characters of the base64url alphabet. *)
Lemma computeHash_shape (input : string) :
  String.length (computeHash input) = 8
  /\ allChars urlSafe (computeHash input) = true.
Proof.
  unfold computeHash.
  destruct (digest_six (utf8 input)) as (b0 & b1 & b2 & b3 & b4 & b5 & rest & ->).
  cbn [Base64Url.encode take String.length allChars].
  split; [reflexivity|].
  rewrite !symbol_urlSafe; try reflexivity;
    try apply land_63; try apply shiftr_byte.
Qed.

End DigestFacts.

(* ------------------------------------------------------------------ *)
(** ** Ordered containers *)

Module MapFacts.
Import JsMap.

Section Values.
Context {V : Type}.
Implicit Types (m : JsMap.t V) (k : string) (v : V).

Lemma map_get_set_same k v m : get k (set k v m) = Some v.
Proof.
  induction m as [|[k' v'] m IH]; cbn.
  - now rewrite String.eqb_refl.
  - destruct (String.eqb_spec k' k) as [-> | Hne]; cbn.
    + now rewrite String.eqb_refl.
    + destruct (String.eqb_spec k' k); [contradiction | exact IH].
Qed.

Lemma map_get_set_other k k' v m : k' <> k -> get k' (set k v m) = get k' m.
Proof.
  intro Hne. induction m as [|[k0 v0] m IH]; cbn.
  - destruct (String.eqb_spec k k'); [congruence | reflexivity].
  - destruct (String.eqb_spec k0 k) as [-> | Hk]; cbn.
    + destruct (String.eqb_spec k k'); [congruence | reflexivity].
    + destruct (String.eqb_spec k0 k'); [reflexivity | exact IH].
Qed.

Lemma map_get_none_keys k m : get k m = None <-> ~ In k (keys m).
Proof.
  induction m as [|[k' v'] m IH]; cbn.
  - tauto.
  - destruct (String.eqb_spec k' k) as [-> | Hne].
    + split; [discriminate | intro H; exfalso; apply H; now left].
    + rewrite IH. split; [intros H [? | ?]; [contradiction | now apply H] | tauto].
Qed.

Lemma map_set_new k v m : get k m = None -> set k v m = (m ++ [(k, v)])%list.
Proof.
  induction m as [|[k' v'] m IH]; cbn; [reflexivity|].
  destruct (String.eqb_spec k' k); [discriminate|].
  intro H. now rewrite IH.
Qed.

Lemma map_get_app k m1 m2 :
  get k (m1 ++ m2)%list = match get k m1 with Some v => Some v | None => get k m2 end.
Proof.
  induction m1 as [|[k' v'] m1 IH]; cbn; [reflexivity|].
  now destruct (String.eqb_spec k' k).
Qed.

Lemma map_get_in k v m : get k m = Some v -> In (k, v) m.
Proof.
  induction m as [|[k' v'] m IH]; cbn; [discriminate|].
  destruct (String.eqb_spec k' k) as [-> | Hne].
  - intros [= ->]. now left.
  - intro H. right. now apply IH.
Qed.

Lemma map_in_get k v m : NoDup (keys m) -> In (k, v) m -> get k m = Some v.
Proof.
  induction m as [|[k' v'] m IH]; cbn; [tauto|].
  intros Hnd [[= -> ->] | Hin].
  - now rewrite String.eqb_refl.
  - inversion Hnd as [|? ? Hk Hnd']; subst.
    destruct (String.eqb_spec k' k) as [-> | Hne].
    + exfalso. apply Hk. change k with (fst (k, v)). now apply in_map.
    + now apply IH.
Qed.

End Values.
End MapFacts.

Module ObjectFacts.
Import JsObject.

Section Values.
Context {V : Type}.
Implicit Types (o : JsObject.t V) (k : string) (v : V).

Lemma obj_has_get k o : has k o = true <-> get k o <> None.
Proof.
  induction o as [|[k' v'] o IH]; cbn.
  - split; [discriminate | congruence].
  - destruct (String.eqb_spec k' k); cbn; [split; [discriminate | reflexivity] | exact IH].
Qed.

Lemma obj_has_false_get k o : has k o = false <-> get k o = None.
Proof.
  induction o as [|[k' v'] o IH]; cbn.
  - tauto.
  - destruct (String.eqb_spec k' k); cbn; [split; discriminate | exact IH].
Qed.

Lemma obj_get_none_keys k o : get k o = None <-> ~ In k (keys o).
Proof.
  induction o as [|[k' v'] o IH]; cbn.
  - tauto.
  - destruct (String.eqb_spec k' k) as [-> | Hne].
    + split; [discriminate | intro H; exfalso; apply H; now left].
    + rewrite IH. split; [intros H [? | ?]; [contradiction | now apply H] | tauto].
Qed.

Lemma obj_get_in k v o : get k o = Some v -> In (k, v) o.
Proof.
  induction o as [|[k' v'] o IH]; cbn; [discriminate|].
  destruct (String.eqb_spec k' k) as [-> | Hne].
  - intros [= ->]. now left.
  - intro H. right. now apply IH.
Qed.

Lemma obj_in_get k v o : NoDup (keys o) -> In (k, v) o -> get k o = Some v.
Proof.
  induction o as [|[k' v'] o IH]; cbn; [tauto|].
  intros Hnd [[= -> ->] | Hin].
  - now rewrite String.eqb_refl.
  - inversion Hnd as [|? ? Hk Hnd']; subst.
    destruct (String.eqb_spec k' k) as [-> | Hne].
    + exfalso. apply Hk. change k with (fst (k, v)). now apply in_map.
    + now apply IH.
Qed.

Lemma obj_get_app k o1 o2 :
  get k (o1 ++ o2)%list = match get k o1 with Some v => Some v | None => get k o2 end.
Proof.
  induction o1 as [|[k' v'] o1 IH]; cbn; [reflexivity|].
  now destruct (String.eqb_spec k' k).
Qed.

(** [replace] *)
Lemma obj_get_replace_same k v o : get k o <> None -> get k (replace k v o) = Some v.
Proof.
  induction o as [|[k' v'] o IH]; cbn; [congruence|].
  destruct (String.eqb_spec k' k) as [-> | Hne]; cbn.
  - now rewrite String.eqb_refl.
  - destruct (String.eqb_spec k' k); [contradiction | exact IH].
Qed.

Lemma obj_get_replace_other k k' v o : k' <> k -> get k' (replace k v o) = get k' o.
Proof.
  intro Hne. induction o as [|[k0 v0] o IH]; cbn; [reflexivity|].
  destruct (String.eqb_spec k0 k) as [-> | Hk]; cbn.
  - destruct (String.eqb_spec k k'); [congruence | reflexivity].
  - destruct (String.eqb_spec k0 k'); [reflexivity | exact IH].
Qed.

Lemma obj_keys_replace k v o : keys (replace k v o) = keys o.
Proof.
  unfold keys. induction o as [|[k' v'] o IH]; cbn; [reflexivity|].
  destruct (String.eqb_spec k' k) as [-> | Hne]; cbn; [reflexivity | now rewrite IH].
Qed.

(** [insertIndex] *)
Lemma obj_get_insertIndex_same n k v o : get k o = None -> get k (insertIndex n k v o) = Some v.
Proof.
  induction o as [|[k' v'] o IH]; cbn.
  - now rewrite String.eqb_refl.
  - destruct (String.eqb_spec k' k) as [-> | Hne]; [discriminate|]. intro H.
    destruct (arrayIndex k') as [n'|]; [destruct (n <? n')%N|]; cbn;
      rewrite ?String.eqb_refl; try reflexivity.
    destruct (String.eqb_spec k' k); [contradiction | now apply IH].
Qed.

Lemma obj_get_insertIndex_other n k k' v o :
  k' <> k -> get k' (insertIndex n k v o) = get k' o.
Proof.
  intro Hne. induction o as [|[k0 v0] o IH]; cbn.
  - destruct (String.eqb_spec k k'); [congruence | reflexivity].
  - destruct (arrayIndex k0) as [n'|]; [destruct (n <? n')%N|]; cbn;
      destruct (String.eqb_spec k k'); try congruence;
      destruct (String.eqb_spec k0 k'); try reflexivity; exact IH.
Qed.

Lemma obj_keys_insertIndex n k v o : Permutation (k :: keys o) (keys (insertIndex n k v o)).
Proof.
  induction o as [|[k0 v0] o IH]; cbn; [apply Permutation_refl|].
  destruct (arrayIndex k0) as [n'|]; [destruct (n <? n')%N|]; cbn;
    try apply Permutation_refl.
  eapply perm_trans; [apply perm_swap | now apply perm_skip].
Qed.

(** [o[k] = v] *)
Lemma obj_get_set_same k v o : get k (set k v o) = Some v.
Proof.
  unfold set. destruct (has k o) eqn:Hh.
  - apply obj_get_replace_same. now apply obj_has_get.
  - apply obj_has_false_get in Hh. destruct (arrayIndex k).
    + now apply obj_get_insertIndex_same.
    + rewrite obj_get_app, Hh. cbn. now rewrite String.eqb_refl.
Qed.

Lemma obj_get_set_other k k' v o : k' <> k -> get k' (set k v o) = get k' o.
Proof.
  intro Hne. unfold set. destruct (has k o).
  - now apply obj_get_replace_other.
  - destruct (arrayIndex k).
    + now apply obj_get_insertIndex_other.
    + rewrite obj_get_app. cbn. destruct (String.eqb_spec k k'); [congruence|].
      now destruct (get k' o).
Qed.


Lemma obj_has_set_mono k k' v o : has k' o = true -> has k' (set k v o) = true.
Proof.
  intro H. apply obj_has_get. destruct (String.eqb_spec k' k) as [-> | Hne].
  - rewrite obj_get_set_same. discriminate.
  - rewrite obj_get_set_other by exact Hne. now apply obj_has_get.
Qed.

Lemma obj_NoDup_set k v o : NoDup (keys o) -> NoDup (keys (set k v o)).
Proof.
  intro Hnd. unfold set. destruct (has k o) eqn:Hh.
  - now rewrite obj_keys_replace.
  - apply obj_has_false_get, obj_get_none_keys in Hh. destruct (arrayIndex k).
    + eapply Permutation_NoDup; [apply obj_keys_insertIndex|]. now constructor.
    + unfold keys. rewrite map_app. cbn.
      eapply Permutation_NoDup; [apply Permutation_cons_append|]. now constructor.
Qed.

Lemma obj_set_plain k v o :
  get k o = None -> arrayIndex k = None -> set k v o = (o ++ [(k, v)])%list.
Proof.
  intros Hg Hi. unfold set. apply obj_has_false_get in Hg. now rewrite Hg, Hi.
Qed.

(** [delete o[k]] *)
Lemma obj_get_delete_other k k' o : k' <> k -> get k' (delete k o) = get k' o.
Proof.
  intro Hne. induction o as [|[k0 v0] o IH]; cbn; [reflexivity|].
  destruct (String.eqb_spec k0 k) as [-> | Hk]; cbn.
  - destruct (String.eqb_spec k k'); [congruence | reflexivity].
  - destruct (String.eqb_spec k0 k'); [reflexivity | exact IH].
Qed.

Lemma obj_keys_delete_incl k o : incl (keys (delete k o)) (keys o).
Proof.
  induction o as [|[k0 v0] o IH]; cbn; [apply incl_refl|].
  destruct (String.eqb_spec k0 k); cbn.
  - apply incl_tl, incl_refl.
  - intros x [-> | Hx]; [now left | right; now apply IH].
Qed.

Lemma obj_NoDup_delete k o : NoDup (keys o) -> NoDup (keys (delete k o)).
Proof.
  induction o as [|[k0 v0] o IH]; cbn; [auto|].
  intro Hnd. inversion Hnd as [|? ? Hk Hnd']; subst.
  destruct (String.eqb_spec k0 k); cbn; [exact Hnd'|].
  constructor; [|now apply IH].
  intro Hin. apply Hk. now apply (obj_keys_delete_incl k o).
Qed.

Lemma obj_get_delete_same k o : NoDup (keys o) -> get k (delete k o) = None.
Proof.
  induction o as [|[k0 v0] o IH]; cbn; [reflexivity|].
  intro Hnd. inversion Hnd as [|? ? Hk Hnd']; subst.
  destruct (String.eqb_spec k0 k) as [-> | Hne]; cbn.
  - now apply obj_get_none_keys.
  - destruct (String.eqb_spec k0 k); [contradiction | now apply IH].
Qed.

End Values.
End ObjectFacts.

(* ------------------------------------------------------------------ *)
(** ** The first two passes *)

Module PassFacts.
Import JsString StringFacts.

(** *** First pass *)

Lemma countOf_set (k k' : string) (n : N) (counts : JsMap.t N) :
  countOf k' (JsMap.set k n counts) = if (k =? k')%string then n else countOf k' counts.
Proof.
  unfold countOf. destruct (String.eqb_spec k k') as [-> | Hne].
  - now rewrite MapFacts.map_get_set_same.
  - rewrite MapFacts.map_get_set_other by congruence. reflexivity.
Qed.

Lemma count_entries (baseName : string) (entries : list (string * Output)) :
  forall counts,
    countOf baseName (List.fold_left countEntry entries counts)
    = (countOf baseName counts + occurrences baseName entries)%N.
Proof.
  induction entries as [|[fileName [chunk | asset]] rest IH]; intro counts;
    cbn [List.fold_left occurrences countEntry].
  - now rewrite N.add_0_r.
  - rewrite IH. destruct (endsWith fileName dotJs); cbn [negb andb].
    + rewrite countOf_set.
      destruct (String.eqb_spec (name chunk) baseName) as [-> | Hne]; lia.
    + reflexivity.
  - apply IH.
Qed.

Lemma firstPass_counts (baseName : string) (entries : list (string * Output)) (p : Plugin) :
  countOf baseName (baseNameCounts (firstPass entries p))
  = (countOf baseName (baseNameCounts p) + occurrences baseName entries)%N.
Proof. apply count_entries. Qed.

Lemma importMapPlugin_empty (options : option ImportMapPluginOptions) :
  chunkMapping (importMapPlugin options) = JsMap.empty
  /\ baseNameCounts (importMapPlugin options) = JsMap.empty
  /\ imports (importMapPlugin options) = JsObject.empty.
Proof. repeat split. Qed.

(** *** Second pass *)

Lemma sameSettings_refl p : sameSettings p p.
Proof. repeat split. Qed.

Lemma sameSettings_trans p q r : sameSettings p q -> sameSettings q r -> sameSettings p r.
Proof. unfold sameSettings. intuition congruence. Qed.

Lemma sameSettings_path p q s : sameSettings p q -> resolvedPath q s = resolvedPath p s.
Proof. unfold sameSettings, resolvedPath, pathPrefix. intros (_ & -> & ->). reflexivity. Qed.

Lemma firstPass_settings entries p : sameSettings p (firstPass entries p).
Proof. repeat split. Qed.

Lemma firstPass_tables entries p :
  chunkMapping (firstPass entries p) = chunkMapping p
  /\ imports (firstPass entries p) = imports p.
Proof. split; reflexivity. Qed.

Lemma mapEntry_settings p entry :
  sameSettings p (mapEntry p entry) /\ baseNameCounts (mapEntry p entry) = baseNameCounts p.
Proof.
  destruct entry as [fileName [chunk | asset]]; cbn [mapEntry].
  - destruct (negb (endsWith fileName dotJs)); repeat split.
  - repeat split.
Qed.

Lemma secondPass_settings entries :
  forall p, sameSettings p (secondPass entries p)
            /\ baseNameCounts (secondPass entries p) = baseNameCounts p.
Proof.
  unfold secondPass. induction entries as [|entry rest IH]; intro p; cbn [List.fold_left].
  - repeat split.
  - destruct (mapEntry_settings p entry) as [Hs Hc].
    destruct (IH (mapEntry p entry)) as [Hs' Hc'].
    split; [eapply sameSettings_trans; eassumption | congruence].
Qed.

Lemma tablesGrow_refl p : tablesGrow p p.
Proof. split; auto. Qed.

Lemma tablesGrow_trans p q r : tablesGrow p q -> tablesGrow q r -> tablesGrow p r.
Proof. unfold tablesGrow. intros [? ?] [? ?]. split; auto. Qed.

Lemma map_set_grows (k k' v : string) (m : JsMap.t string) :
  JsMap.get k' m <> None -> JsMap.get k' (JsMap.set k v m) <> None.
Proof.
  intro H. destruct (String.eqb_spec k' k) as [-> | Hne].
  - rewrite MapFacts.map_get_set_same. discriminate.
  - now rewrite MapFacts.map_get_set_other.
Qed.

Lemma mapEntry_grows p entry : tablesGrow p (mapEntry p entry).
Proof.
  destruct entry as [fileName [chunk | asset]]; cbn [mapEntry]; [|apply tablesGrow_refl].
  destruct (negb (endsWith fileName dotJs)); [apply tablesGrow_refl|].
  split; cbn [chunkMapping imports]; intros k H.
  - now repeat apply map_set_grows.
  - now apply ObjectFacts.obj_has_set_mono.
Qed.

Lemma secondPass_grows entries : forall p, tablesGrow p (secondPass entries p).
Proof.
  unfold secondPass. induction entries as [|entry rest IH]; intro p; cbn [List.fold_left].
  - apply tablesGrow_refl.
  - eapply tablesGrow_trans; [apply mapEntry_grows | apply IH].
Qed.



End PassFacts.

(* ------------------------------------------------------------------ *)
(** ** The third pass *)

Module ThirdPassFacts.
Import JsString StringFacts PassFacts.

Section Host.
Variable parse : string -> ParseResult.
Variable generateMap : MagicString.t -> string -> string -> option SourceMap.
Variable replaceMapComment : string -> string -> string.


Lemma thirdPass_shape (p : Plugin) (entries : list (string * Output)) :
  forall fileRenames entries' renames,
    NoDup (List.map fst entries) ->
    (forall k, In k (List.map fst entries) -> JsMap.get k fileRenames = None) ->
    thirdPass parse generateMap replaceMapComment p entries fileRenames = Ok (entries', renames) ->
    List.map fst entries' = List.map fst entries
    /\ (forall f out, In (f, out) entries ->
          exists out' staged,
            transformEntry parse generateMap replaceMapComment p f out = Ok (out', staged) /\ In (f, out') entries')
    /\ exists staged, renames = (fileRenames ++ staged)%list /\ stagedBy parse generateMap replaceMapComment p entries staged.
Proof.
  induction entries as [|[f out] rest IH]; intros fr entries' renames Hnd Hfresh Hrun.
  - cbn in Hrun. injection Hrun as <- <-.
    split; [reflexivity|]. split; [intros ? ? []|].
    exists []. rewrite app_nil_r. split; [reflexivity|].
    split; [|split].
    + intros f n. split; [intros [] | intros (? & ? & [] & _)].
    + intros ? [].
    + constructor.
  - cbn [thirdPass] in Hrun.
    destruct (transformEntry parse generateMap replaceMapComment p f out) as [[out' staged]|e] eqn:Hentry; [|discriminate].
    cbn [bind] in Hrun.
    set (fr' := match staged with
                | Some newFilePath => JsMap.set f newFilePath fr
                | None => fr
                end) in Hrun.
    destruct (thirdPass parse generateMap replaceMapComment p rest fr') as [[rest' renames']|e] eqn:Hrest; [|discriminate].
    cbn [bind] in Hrun. injection Hrun as <- <-.
    inversion Hnd as [|? ? Hf Hnd']; subst.
    assert (Hget : JsMap.get f fr = None) by (apply Hfresh; now left).
    assert (Hfr' : fr' = (fr ++ match staged with Some n => [(f, n)] | None => [] end)%list).
    { subst fr'. destruct staged; [now apply MapFacts.map_set_new | now rewrite app_nil_r]. }
    destruct (IH fr' rest' renames' Hnd') as (Hkeys & Hall & stagedRest & Hren & Hst & Hincl & Hndst);
      try assumption.
    { intros k Hk. rewrite Hfr', MapFacts.map_get_app.
      rewrite Hfresh by now right. destruct staged; [|reflexivity].
      cbn. destruct (String.eqb_spec f k); [subst; contradiction | reflexivity]. }
    split; [cbn; now rewrite Hkeys|]. split.
    + intros f0 out0 [[= -> ->] | Hin].
      * exists out', staged. split; [exact Hentry | now left].
      * destruct (Hall f0 out0 Hin) as (o' & s' & ? & ?).
        exists o', s'. split; [assumption | now right].
    + exists (match staged with Some n => [(f, n)] | None => [] end ++ stagedRest)%list.
      split; [rewrite Hren, Hfr'; now rewrite app_assoc|].
      assert (Hnot : forall n, ~ In (f, n) stagedRest).
      { intros n Hin. apply Hf. apply Hincl.
        change f with (fst (f, n)). now apply in_map. }
      repeat split.
      * intros Hin. apply in_app_or in Hin. destruct Hin as [Hin | Hin].
        -- destruct staged as [n0|]; [|destruct Hin].
           destruct Hin as [[= <- <-] | []].
           exists out, out'. split; [now left | exact Hentry].
        -- apply Hst in Hin. destruct Hin as (o & o' & Hin & Ht).
           exists o, o'. split; [now right | exact Ht].
      * intros (o & o' & [Heq | Hin] & Ht).
        -- injection Heq as Hf1 Ho1. subst o. subst f0.
           rewrite Hentry in Ht. injection Ht as _ Hs.
           apply in_or_app. left. rewrite Hs. now left.
        -- apply in_or_app. right. apply Hst. now exists o, o'.
      * rewrite map_app. intros k Hk. apply in_app_or in Hk. destruct Hk as [Hk | Hk].
        -- destruct staged; [destruct Hk as [<- | []]; now left | destruct Hk].
        -- right. now apply Hincl.
      * rewrite map_app. destruct staged as [n0|]; cbn; [|exact Hndst].
        constructor; [|exact Hndst].
        intro Hin. apply Hf. now apply Hincl.
Qed.

(** From an empty [fileRenames]. *)
Lemma thirdPass_staged (p : Plugin) (entries entries' : list (string * Output))
    (renames : JsMap.t string) :
  NoDup (List.map fst entries) ->
  thirdPass parse generateMap replaceMapComment p entries JsMap.empty = Ok (entries', renames) ->
  List.map fst entries' = List.map fst entries
  /\ (forall f out, In (f, out) entries ->
        exists out' staged,
          transformEntry parse generateMap replaceMapComment p f out = Ok (out', staged)
          /\ In (f, out') entries'
          /\ JsMap.get f renames = staged)
  /\ stagedBy parse generateMap replaceMapComment p entries renames.
Proof.
  intros Hnd Hrun.
  destruct (thirdPass_shape p entries JsMap.empty entries' renames Hnd) as
    (Hkeys & Hall & staged & -> & Hst); [reflexivity | exact Hrun |].
  cbn [JsMap.empty app]. split; [exact Hkeys|]. split; [|exact Hst].
  intros f out Hin. destruct (Hall f out Hin) as (out' & st & Ht & Hin').
  exists out', st. repeat split; try assumption.
  destruct Hst as (Hiff & _ & Hndst). destruct st as [n|].
  - apply MapFacts.map_in_get; [exact Hndst|]. apply Hiff. now exists out, out'.
  - apply MapFacts.map_get_none_keys. intro Hk.
    apply in_map_iff in Hk. destruct Hk as ([f' n] & Hfst & Hk). cbn in Hfst. subst f'.
    apply Hiff in Hk. destruct Hk as (o & o' & Hino & Ht').
    assert (o = out).
    { assert (Some o = Some out); [|congruence].
      rewrite <- (ObjectFacts.obj_in_get f o entries Hnd Hino).
      now rewrite <- (ObjectFacts.obj_in_get f out entries Hnd Hin). }
    subst o. rewrite Ht in Ht'. discriminate.
Qed.

End Host.
End ThirdPassFacts.

(* ------------------------------------------------------------------ *)
(** ** The fourth pass *)

Module CommitFacts.
Import JsString StringFacts PassFacts.

Lemma commit_bundle (bundle : OutputBundle) (p : Plugin) (o n : string) :
  fst (commitRename (bundle, p) (o, n))
  = match JsObject.get o bundle with
    | Some (Chunk chunk) =>
        JsObject.set n (Chunk (setFileName n chunk)) (JsObject.delete o bundle)
    | _ => bundle
    end.
Proof.
  cbn [commitRename]. destruct (JsObject.get o bundle) as [[chunk | asset]|]; try reflexivity.
  destruct (JsMap.get (filenameOnlyOf o) (chunkMapping p)) as [[|c m]|]; reflexivity.
Qed.

Lemma commit_settings (state : OutputBundle * Plugin) (rename : string * string) :
  sameSettings (snd state) (snd (commitRename state rename))
  /\ baseNameCounts (snd (commitRename state rename)) = baseNameCounts (snd state).
Proof.
  destruct state as [bundle p], rename as [o n]. cbn [commitRename snd].
  destruct (JsObject.get o bundle) as [[chunk | asset]|]; try (repeat split).
  all: destruct (JsMap.get (filenameOnlyOf o) (chunkMapping p)) as [[|c m]|]; reflexivity.
Qed.

Lemma commit_grows (state : OutputBundle * Plugin) (rename : string * string) :
  tablesGrow (snd state) (snd (commitRename state rename)).
Proof.
  destruct state as [bundle p], rename as [o n]. cbn [commitRename snd].
  destruct (JsObject.get o bundle) as [[chunk | asset]|]; try apply tablesGrow_refl.
  destruct (JsMap.get (filenameOnlyOf o) (chunkMapping p)) as [[|c m]|];
    try apply tablesGrow_refl.
  split; cbn [chunkMapping imports snd]; intros k H.
  - now repeat apply map_set_grows.
  - now apply ObjectFacts.obj_has_set_mono.
Qed.



Lemma commitAll_settings (renames : list (string * string)) :
  forall state,
    sameSettings (snd state) (snd (commitAll renames state))
    /\ baseNameCounts (snd (commitAll renames state)) = baseNameCounts (snd state).
Proof.
  unfold commitAll. induction renames as [|r rest IH]; intro state; cbn [List.fold_left].
  - repeat split.
  - destruct (commit_settings state r) as [Hs Hc].
    destruct (IH (commitRename state r)) as [Hs' Hc'].
    split; [eapply sameSettings_trans; eassumption | congruence].
Qed.

Lemma commitAll_grows (renames : list (string * string)) :
  forall state, tablesGrow (snd state) (snd (commitAll renames state)).
Proof.
  unfold commitAll. induction renames as [|r rest IH]; intro state; cbn [List.fold_left].
  - apply tablesGrow_refl.
  - eapply tablesGrow_trans; [apply commit_grows | apply IH].
Qed.

(** Keys no rename names keep their entry. *)
Lemma commitAll_bundle_other (renames : list (string * string)) (k : string) :
  forall state,
    (forall o n, In (o, n) renames -> k <> o /\ k <> n) ->
    JsObject.get k (fst (commitAll renames state)) = JsObject.get k (fst state).
Proof.
  unfold commitAll. induction renames as [|[o n] rest IH]; intros [bundle p] Hk;
    cbn [List.fold_left]; [reflexivity|].
  rewrite IH by (intros o' n' Hin; apply Hk; now right).
  rewrite commit_bundle. cbn [fst].
  destruct (Hk o n (or_introl eq_refl)) as [Ho Hn].
  destruct (JsObject.get o bundle) as [[chunk | asset]|]; try reflexivity.
  rewrite ObjectFacts.obj_get_set_other by exact Hn.
  now apply ObjectFacts.obj_get_delete_other.
Qed.

Lemma commit_NoDup (state : OutputBundle * Plugin) (rename : string * string) :
  NoDup (JsObject.keys (fst state)) ->
  NoDup (JsObject.keys (fst (commitRename state rename))).
Proof.
  destruct state as [bundle p], rename as [o n]. rewrite commit_bundle. cbn [fst].
  intro Hnd. destruct (JsObject.get o bundle) as [[chunk | asset]|]; try exact Hnd.
  now apply ObjectFacts.obj_NoDup_set, ObjectFacts.obj_NoDup_delete.
Qed.


Lemma committable_step (bundle : OutputBundle) (p : Plugin) (o n : string)
    (rest : list (string * string)) :
  NoDup (JsObject.keys bundle) ->
  committable bundle ((o, n) :: rest) ->
  committable (fst (commitRename (bundle, p) (o, n))) rest
  /\ (forall o' n' c, In (o', n') rest -> JsObject.get o' bundle = Some (Chunk c) ->
        JsObject.get o' (fst (commitRename (bundle, p) (o, n))) = Some (Chunk c))
  /\ (forall o' n', In (o', n') rest -> o <> o' /\ o <> n' /\ n <> o' /\ n <> n').
Proof.
  intros Hnd (Hno & Hnn & Hall).
  inversion Hno as [|? ? Ho Hno']; subst. inversion Hnn as [|? ? Hn Hnn']; subst.
  destruct (Hall o n (or_introl eq_refl)) as [[c Hc] Hnew].
  assert (Hsep : forall o' n', In (o', n') rest -> o <> o' /\ o <> n' /\ n <> o' /\ n <> n').
  { intros o' n' Hin.
    destruct (Hall o' n' (or_intror Hin)) as [[c' Hc'] Hnew'].
    repeat split; intros ->.
    - apply Ho. change o' with (fst (o', n')). now apply in_map.
    - congruence.
    - congruence.
    - apply Hn. change n' with (snd (o', n')). now apply in_map. }
  rewrite commit_bundle. cbn [fst]. rewrite Hc.
  split; [|split; [|exact Hsep]].
  - split; [exact Hno'|]. split; [exact Hnn'|].
    intros o' n' Hin. destruct (Hsep o' n' Hin) as (H1 & H2 & H3 & H4).
    destruct (Hall o' n' (or_intror Hin)) as [[c' Hc'] Hnew'].
    split.
    + exists c'. rewrite ObjectFacts.obj_get_set_other by congruence.
      rewrite ObjectFacts.obj_get_delete_other by congruence. exact Hc'.
    + rewrite ObjectFacts.obj_get_set_other by congruence.
      rewrite ObjectFacts.obj_get_delete_other by congruence. exact Hnew'.
  - intros o' n' c' Hin Hc'. destruct (Hsep o' n' Hin) as (H1 & H2 & H3 & H4).
    rewrite ObjectFacts.obj_get_set_other by congruence.
    rewrite ObjectFacts.obj_get_delete_other by congruence. exact Hc'.
Qed.

(** The commit pass on the bundle. *)
Lemma commitAll_bundle (renames : list (string * string)) :
  forall state,
    NoDup (JsObject.keys (fst state)) -> committable (fst state) renames ->
    forall o n c,
      In (o, n) renames -> JsObject.get o (fst state) = Some (Chunk c) ->
      JsObject.get n (fst (commitAll renames state)) = Some (Chunk (setFileName n c))
      /\ JsObject.get o (fst (commitAll renames state)) = None.
Proof.
  induction renames as [|[o1 n1] rest IH]; intros [bundle p] Hnd Hc o n c Hin Hget;
    [destruct Hin|].
  cbn [fst] in Hnd, Hc, Hget.
  destruct (committable_step bundle p o1 n1 rest Hnd Hc) as (Hc' & Hkeep & Hsep).
  pose proof (commit_NoDup (bundle, p) (o1, n1) Hnd) as Hnd'.
  unfold commitAll. cbn [List.fold_left]. fold (commitAll rest (commitRename (bundle, p) (o1, n1))).
  destruct Hin as [[= -> ->] | Hin].
  - rewrite !commitAll_bundle_other.
    + rewrite commit_bundle. cbn [fst]. rewrite Hget.
      split; [apply ObjectFacts.obj_get_set_same|].
      destruct Hc as (_ & _ & Hall). destruct (Hall o n (or_introl eq_refl)) as [_ Hnew].
      rewrite ObjectFacts.obj_get_set_other by congruence.
      now apply ObjectFacts.obj_get_delete_same.
    + intros o' n' Hin. destruct (Hsep o' n' Hin) as (? & ? & ? & ?). auto.
    + intros o' n' Hin. destruct (Hsep o' n' Hin) as (? & ? & ? & ?). auto.
  - apply IH; try assumption. now apply Hkeep with n.
Qed.


End CommitFacts.

(* ------------------------------------------------------------------ *)
(** ** The hook, pass by pass *)

Module BuildFacts.
Import JsString StringFacts PassFacts ThirdPassFacts CommitFacts RewriteFacts.

Section Host.
Variable parse : string -> ParseResult.
Variable generateMap : MagicString.t -> string -> string -> option SourceMap.
Variable replaceMapComment : string -> string -> string.

(** A turn of the third pass that stages a rename. *)
Lemma transformEntry_staged (p : Plugin) (f n : string) (out out' : Output) :
  transformEntry parse generateMap replaceMapComment p f out = Ok (out', Some n) ->
  exists chunk ms,
    out = Chunk chunk
    /\ truthy (code chunk) = true /\ endsWith f dotJs = true
    /\ rewriteCode parse p f (code chunk) = Ok (true, ms)
    /\ n = newFilePathOf f
             (newFileNameOf chunk f (computeHash (stripSourceMaps (MagicString.toString ms))))
    /\ exists code' map', out' = Chunk (setCodeAndMap code' map' chunk).
Proof.
  unfold transformEntry. destruct out as [chunk | asset]; [|discriminate].
  destruct (truthy (code chunk)) eqn:Hcode; [|discriminate].
  destruct (endsWith f dotJs) eqn:Hjs; [|discriminate]. cbn [negb orb].
  destruct (rewriteCode parse p f (code chunk)) as [[transformed ms]|e] eqn:Hrw;
    [|discriminate].
  cbn [bind]. destruct transformed; [|discriminate]. cbn [negb].
  match goal with
  | |- context [updateMap ?gm ?rc ?ch ?fn ?nn ?tc ?m] =>
      destruct (updateMap gm rc ch fn nn tc m) as [finalCode newMap]
  end.
  intros [= <- <-]. exists chunk, ms.
  do 5 (split; [reflexivity || assumption|]). now exists finalCode, newMap.
Qed.

Lemma transformEntry_rewritten (p : Plugin) (f : string) (chunk : OutputChunk)
    (ms : MagicString.t) :
  truthy (code chunk) = true -> endsWith f dotJs = true ->
  rewriteCode parse p f (code chunk) = Ok (true, ms) ->
  exists code' map',
    transformEntry parse generateMap replaceMapComment p f (Chunk chunk)
    = Ok (Chunk (setCodeAndMap code' map' chunk),
          Some (newFilePathOf f
                  (newFileNameOf chunk f
                     (computeHash (stripSourceMaps (MagicString.toString ms)))))).
Proof.
  intros Hcode Hjs Hrw. unfold transformEntry. rewrite Hcode, Hjs, Hrw. cbn [negb orb bind].
  match goal with
  | |- context [updateMap ?gm ?rc ?ch ?fn ?nn ?tc ?m] =>
      destruct (updateMap gm rc ch fn nn tc m) as [finalCode newMap]
  end.
  now exists finalCode, newMap.
Qed.

(** The hook, pass by pass. *)
Lemma generateBundle_passes (p : Plugin) (bundle bundle' : OutputBundle) (p' : Plugin) :
  generateBundle parse generateMap replaceMapComment p bundle = Ok (bundle', p') ->
  exists entries' renames,
    thirdPass parse generateMap replaceMapComment (afterSecondPass p bundle)
              bundle JsMap.empty = Ok (entries', renames)
    /\ stagedRenames parse generateMap replaceMapComment p bundle = Ok renames
    /\ commitAll renames (entries', afterSecondPass p bundle) = (bundle', p').
Proof.
  unfold generateBundle, stagedRenames, afterSecondPass, JsObject.entries, fourthPass,
    JsMap.entries, commitAll.
  destruct (thirdPass parse generateMap replaceMapComment _ bundle JsMap.empty)
    as [[entries' renames]|e]; [|discriminate].
  cbn [bind]. intros [= H]. exists entries', renames. repeat split. exact H.
Qed.

Lemma stagedRenames_passes (p : Plugin) (bundle : OutputBundle) (renames : JsMap.t string) :
  stagedRenames parse generateMap replaceMapComment p bundle = Ok renames ->
  exists entries',
    thirdPass parse generateMap replaceMapComment (afterSecondPass p bundle)
              bundle JsMap.empty = Ok (entries', renames).
Proof.
  unfold stagedRenames, afterSecondPass, JsObject.entries.
  destruct (thirdPass parse generateMap replaceMapComment _ bundle JsMap.empty)
    as [[entries' renames']|e]; [|discriminate].
  cbn [bind]. intros [= <-]. now exists entries'.
Qed.

(** What the third pass hands the fourth when the staged names are fresh. *)
Lemma staged_committable (p : Plugin) (bundle entries' : OutputBundle)
    (renames : JsMap.t string) :
  NoDup (JsObject.keys bundle) ->
  thirdPass parse generateMap replaceMapComment p bundle JsMap.empty = Ok (entries', renames) ->
  freshTargets bundle renames ->
  NoDup (JsObject.keys entries') /\ committable entries' renames.
Proof.
  intros Hnd Hrun [Hnn Hfresh].
  destruct (thirdPass_staged parse generateMap replaceMapComment p bundle entries' renames
              Hnd Hrun) as (Hkeys & Hall & Hiff & Hincl & Hno).
  assert (Hnd' : NoDup (JsObject.keys entries')) by (unfold JsObject.keys; now rewrite Hkeys).
  split; [exact Hnd'|]. split; [exact Hno|]. split; [exact Hnn|].
  intros o n Hin. split.
  - apply Hiff in Hin. destruct Hin as (out & out' & Hin & Ht).
    destruct (transformEntry_staged _ _ _ _ _ Ht) as (chunk & ms & _ & _ & _ & _ & _ & c' & m' & ->).
    destruct (Hall o out Hin) as (out'' & st & Ht' & Hin' & _).
    rewrite Ht in Ht'. injection Ht' as <- _.
    eexists. apply ObjectFacts.obj_in_get; [exact Hnd' | exact Hin'].
  - apply ObjectFacts.obj_get_none_keys. unfold JsObject.keys. rewrite Hkeys.
    now apply (Hfresh o n).
Qed.

End Host.
End BuildFacts.

(* ------------------------------------------------------------------ *)
(** ** Claims on the rewriter (C2, C4, C8) *)

Import JsString StringFacts MagicStringFacts SortFacts RewriteFacts SiteFacts SpliceFacts.


(** C2.  Reference rewriting correctness.  For every text the parser
    accepts, when the ranges inside the quotes of the rewritten literals lie
    in the text and do not meet: every import, re-export or literal dynamic
    import whose specifier is a candidate and whose bare filename has a
    stable specifier in the mapping is recorded as the operation that
    replaces the characters strictly between its quotes by that specifier;
    the rewritten text is the original with exactly these ranges replaced
    ([spliceOps]), so the quotes and all other text stay; with one such
    site the text is the prefix up to and including the opening quote, the
    specifier, and the suffix from the closing quote on.  In particular
    [import x from "./button-abc123.js"] with the mapping
    [button-abc123.js -> button] becomes [import x from "button"]. *)
Theorem C2_reference_rewriting_correctness :
  forall (parse : string -> ParseResult) (p : Plugin) (fileName : string),
    (forall (code : string) (visited : list Node),
        parse code = Parsed visited ->
        wellFormedOps (String.length code) (importsToTransform p fileName visited) ->
        (forall node s a b m,
            In node visited -> siteLiteral node = Some (s, a, b) ->
            isCandidate p s = true -> stableSpecifierFor p s = Some m ->
            In (mkOp (a + 1) (b - 1) m) (importsToTransform p fileName visited))
        /\ exists ms,
            rewriteCode parse p fileName code
            = Ok (match importsToTransform p fileName visited with
                  | [] => false
                  | _ :: _ => true
                  end, ms)
            /\ MagicString.toString ms
               = spliceOps code
                   (JsArray.sort byStartDescending (importsToTransform p fileName visited))
            /\ (forall op,
                   importsToTransform p fileName visited = [op] ->
                   MagicString.toString ms
                   = take (op_start op) code ++ replacement op ++ drop (op_end op) code))
    /\ (parse importButton = Parsed importButtonVisited ->
        chunkMapping p = [("button-abc123.js", "button")] ->
        exists ms,
          rewriteCode parse p fileName importButton = Ok (true, ms)
          /\ MagicString.toString ms = importButtonRewritten).
Proof.
  intros parse p fileName. split.
  - intros code visited Hparse Hwf. split.
    + intros node s a b m Hin Hsite Hc Hm.
      apply in_importsToTransform. exists node. split; [exact Hin|].
      apply visit_push. now exists s, a, b, m.
    + destruct (rewriteCode_splice parse p fileName code visited Hparse Hwf)
        as (ms & Hrw & Hstr).
      exists ms. repeat split; try assumption.
      intros op Hone. rewrite Hstr, Hone. reflexivity.
  - intros Hparse Hmap. unfold rewriteCode. rewrite Hparse.
    unfold importButtonVisited. cbn [importsToTransform visit].
    rewrite handle_literal.
    replace (isCandidate p "./button-abc123.js") with true by reflexivity.
    unfold stableSpecifierFor. rewrite Hmap.
    eexists. split; reflexivity.
Qed.

(** The example of C2 through the general statement and through the
    particular one. *)
Lemma C2_witness :
  (exists ms,
      rewriteCode buttonHost buttonPlugin "assets/app-1a2b3c4d.js" importButton = Ok (true, ms)
      /\ MagicString.toString ms
         = take 15 importButton ++ "button" ++ drop 33 importButton)
  /\ (exists ms,
         rewriteCode buttonHost buttonPlugin "assets/app-1a2b3c4d.js" importButton = Ok (true, ms)
         /\ MagicString.toString ms = importButtonRewritten).
Proof.
  pose proof (C2_reference_rewriting_correctness buttonHost buttonPlugin
                "assets/app-1a2b3c4d.js") as [Hgeneral Hexample].
  split.
  - destruct (Hgeneral importButton importButtonVisited) as (_ & ms & Hrw & _ & Hone).
    + reflexivity.
    + split.
      * repeat constructor; cbn; lia.
      * repeat constructor.
    + exists ms. split; [exact Hrw|]. exact (Hone (mkOp 15 33 "button") eq_refl).
  - apply Hexample; reflexivity.
Defined.






(* ------------------------------------------------------------------ *)
(** ** Claim on the specifiers (C3) *)

Import JsString StringFacts PassFacts ThirdPassFacts CommitFacts RewriteFacts BuildFacts DigestFacts.







(* ------------------------------------------------------------------ *)
(** ** Claim on the rehashed name (C1) *)

Import JsString StringFacts PassFacts ThirdPassFacts CommitFacts RewriteFacts BuildFacts DigestFacts.

Lemma newFileName_named (chunk : OutputChunk) (key newHash : string) :
  truthy (name chunk) = true ->
  newFileNameOf chunk key newHash = cat [name chunk; "-"; newHash; dotJs].
Proof. unfold newFileNameOf. now intros ->. Qed.

Section Host.
Variable parse : string -> ParseResult.
Variable generateMap : MagicString.t -> string -> string -> option SourceMap.
Variable replaceMapComment : string -> string -> string.

(** The rename staged for a rewritten chunk. *)
Lemma staged_for_rewritten (p : Plugin) (bundle : OutputBundle) (renames : JsMap.t string)
    (key : string) (chunk : OutputChunk) (ms : MagicString.t) :
  NoDup (JsObject.keys bundle) ->
  In (key, Chunk chunk) bundle ->
  truthy (code chunk) = true -> endsWith key dotJs = true ->
  stagedRenames parse generateMap replaceMapComment p bundle = Ok renames ->
  rewriteCode parse (afterSecondPass p bundle) key (code chunk) = Ok (true, ms) ->
  JsMap.get key renames
  = Some (newFilePathOf key
            (newFileNameOf chunk key
               (computeHash (stripSourceMaps (MagicString.toString ms))))).
Proof.
  intros Hnd Hin Hcode Hjs Hst Hrw.
  destruct (stagedRenames_passes parse generateMap replaceMapComment p bundle renames Hst)
    as (entries' & Hrun).
  destruct (thirdPass_staged parse generateMap replaceMapComment _ bundle entries' renames
              Hnd Hrun) as (_ & Hall & _).
  destruct (Hall key (Chunk chunk) Hin) as (out' & staged & Ht & _ & Hget).
  destruct (transformEntry_rewritten parse generateMap replaceMapComment
              _ key chunk ms Hcode Hjs Hrw) as (c' & m' & Ht').
  rewrite Ht' in Ht. injection Ht as _ <-. exact Hget.
Qed.

(** Where the commit pass leaves a rewritten chunk. *)
Lemma committed_rewritten (p : Plugin) (bundle final : OutputBundle) (q : Plugin)
    (renames : JsMap.t string) (key newPath : string) :
  NoDup (JsObject.keys bundle) ->
  generateBundle parse generateMap replaceMapComment p bundle = Ok (final, q) ->
  stagedRenames parse generateMap replaceMapComment p bundle = Ok renames ->
  freshTargets bundle renames ->
  In (key, newPath) renames ->
  exists original rewritten,
    In (key, Chunk original) bundle
    /\ transformEntry parse generateMap replaceMapComment (afterSecondPass p bundle)
         key (Chunk original) = Ok (Chunk rewritten, Some newPath)
    /\ JsObject.get newPath final = Some (Chunk (setFileName newPath rewritten))
    /\ JsObject.get key final = None.
Proof.
  intros Hnd Hgen Hst Hfresh Hin.
  destruct (generateBundle_passes parse generateMap replaceMapComment p bundle final q Hgen)
    as (entries' & renames0 & Hrun & Hst0 & Hcommit).
  rewrite Hst in Hst0. injection Hst0 as <-.
  destruct (staged_committable parse generateMap replaceMapComment _ bundle entries' renames
              Hnd Hrun Hfresh) as [Hnd' Hc].
  destruct (thirdPass_staged parse generateMap replaceMapComment _ bundle entries' renames
              Hnd Hrun) as (_ & Hall & Hiff & _).
  destruct (proj1 (Hiff key newPath) Hin) as (out & out' & Hino & Ht).
  destruct (transformEntry_staged parse generateMap replaceMapComment _ _ _ _ _ Ht)
    as (chunk & ms & -> & _ & _ & _ & _ & c' & m' & ->).
  destruct (Hall key (Chunk chunk) Hino) as (out'' & staged & Ht' & Hin' & _).
  rewrite Ht in Ht'. injection Ht' as <- _.
  exists chunk, (setCodeAndMap c' m' chunk). split; [exact Hino|]. split; [exact Ht|].
  replace final with (fst (commitAll renames (entries', afterSecondPass p bundle)))
    by now rewrite Hcommit.
  apply commitAll_bundle; try assumption.
  now apply ObjectFacts.obj_in_get.
Qed.

End Host.

(** C1, counterexample.  A chunk that imports nothing is not rewritten, so
    line 177 skips its rehash: it keeps the file name the bundler gave it,
    which is not baseName-digest.js, and the same code under two bundler
    names ends under two names. *)
Lemma C1_counterexample :
  exists final q final' q' chunk chunk',
    generateBundle exampleHost noGenerateMap keepMapComment (importMapPlugin None) leafBundle
    = Ok (final, q)
    /\ generateBundle exampleHost noGenerateMap keepMapComment (importMapPlugin None) leafBundle'
       = Ok (final', q')
    /\ JsObject.get "assets/button-abc123.js" final = Some (Chunk chunk)
    /\ JsObject.get "assets/button-def456.js" final' = Some (Chunk chunk')
    /\ code chunk = code chunk'
    /\ name chunk = name chunk'
    /\ fileName chunk <> fileName chunk'
    /\ filenameOnlyOf (fileName chunk)
       <> cat [name chunk; "-"; computeHash (stripSourceMaps (code chunk)); dotJs].
Proof.
  do 6 eexists.
  split; [vm_compute; reflexivity|]. split; [vm_compute; reflexivity|].
  split; [reflexivity|]. split; [reflexivity|].
  split; [reflexivity|]. split; [reflexivity|].
  split; [discriminate|]. vm_compute. discriminate.
Qed.

(** C1 (amended).  No cascade, for the chunks the rewrite pass changes.
    For a script chunk with code and a base name in which a rewrite is
    recorded, the third pass stages the name directory + baseName + '-' +
    digest + '.js', where digest is the eight-character base64url digest
    of the chunk's own rewritten text with its source-map comments
    stripped; when the staged names are fresh the commit pass leaves the
    chunk under that name; and a second build in which the chunk has the
    same base name and the same rewritten text stages the same file name,
    whatever the other chunks, the bundler's name for the chunk and the
    closure hold. *)
Theorem C1_no_cascade :
  forall (parse : string -> ParseResult)
         (generateMap : MagicString.t -> string -> string -> option SourceMap)
         (replaceMapComment : string -> string -> string)
         (p p' : Plugin) (bundle bundle' : OutputBundle) (renames renames' : JsMap.t string)
         (key key' : string) (chunk chunk' : OutputChunk) (ms ms' : MagicString.t),
    NoDup (JsObject.keys bundle) ->
    In (key, Chunk chunk) bundle ->
    truthy (code chunk) = true -> endsWith key dotJs = true -> truthy (name chunk) = true ->
    stagedRenames parse generateMap replaceMapComment p bundle = Ok renames ->
    rewriteCode parse (afterSecondPass p bundle) key (code chunk) = Ok (true, ms) ->
    let digest := computeHash (stripSourceMaps (MagicString.toString ms)) in
    let newFileName := cat [name chunk; "-"; digest; dotJs] in
    JsMap.get key renames = Some (newFilePathOf key newFileName)
    /\ String.length digest = 8
    /\ allChars urlSafe digest = true
    /\ (forall final q,
           generateBundle parse generateMap replaceMapComment p bundle = Ok (final, q) ->
           freshTargets bundle renames ->
           exists renamed,
             JsObject.get (newFilePathOf key newFileName) final = Some (Chunk renamed)
             /\ fileName renamed = newFilePathOf key newFileName
             /\ name renamed = name chunk)
    /\ (NoDup (JsObject.keys bundle') ->
        In (key', Chunk chunk') bundle' ->
        truthy (code chunk') = true -> endsWith key' dotJs = true ->
        stagedRenames parse generateMap replaceMapComment p' bundle' = Ok renames' ->
        rewriteCode parse (afterSecondPass p' bundle') key' (code chunk') = Ok (true, ms') ->
        name chunk' = name chunk ->
        MagicString.toString ms' = MagicString.toString ms ->
        JsMap.get key' renames' = Some (newFilePathOf key' newFileName)).
Proof.
  intros parse generateMap replaceMapComment p p' bundle bundle' renames renames'
         key key' chunk chunk' ms ms' Hnd Hin Hcode Hjs Hname Hst Hrw digest newFileName.
  pose proof (staged_for_rewritten parse generateMap replaceMapComment p bundle renames
                key chunk ms Hnd Hin Hcode Hjs Hst Hrw) as Hget.
  rewrite (newFileName_named _ _ _ Hname) in Hget.
  destruct (computeHash_shape (stripSourceMaps (MagicString.toString ms))) as [Hlen Hsafe].
  split; [exact Hget|]. split; [exact Hlen|]. split; [exact Hsafe|]. split.
  - intros final q Hgen Hfresh.
    destruct (committed_rewritten parse generateMap replaceMapComment p bundle final q renames
                key (newFilePathOf key newFileName) Hnd Hgen Hst Hfresh
                (MapFacts.map_get_in _ _ _ Hget))
      as (original & rewritten & Hino & Ht & Hnew & _).
    assert (original = chunk).
    { assert (Some (Chunk original) = Some (Chunk chunk)); [|congruence].
      rewrite <- (ObjectFacts.obj_in_get key (Chunk original) bundle Hnd Hino).
      now rewrite <- (ObjectFacts.obj_in_get key (Chunk chunk) bundle Hnd Hin). }
    subst original.
    destruct (transformEntry_staged parse generateMap replaceMapComment _ _ _ _ _ Ht)
      as (chunk0 & ms0 & [= <-] & _ & _ & _ & _ & c' & m' & [= ->]).
    eexists. split; [exact Hnew|]. split; reflexivity.
  - intros Hnd' Hin' Hcode' Hjs' Hst' Hrw' Hsame Htext.
    pose proof (staged_for_rewritten parse generateMap replaceMapComment p' bundle' renames'
                  key' chunk' ms' Hnd' Hin' Hcode' Hjs' Hst' Hrw') as Hget'.
    rewrite newFileName_named in Hget' by (now rewrite Hsame).
    rewrite Hget'. subst newFileName digest. now rewrite Hsame, Htext.
Qed.

(** Two builds of the flat bundle: the button chunk changed and the bundler
    renamed both chunks; the application chunk is staged under one name. *)
Lemma C1_witness :
  exists renames renames' newFileName,
    stagedRenames twoBuildsHost noGenerateMap keepMapComment (importMapPlugin None) flatBundle
    = Ok renames
    /\ stagedRenames twoBuildsHost noGenerateMap keepMapComment (importMapPlugin None) flatBundle'
       = Ok renames'
    /\ JsMap.get "assets/app-1a2b3c4d.js" renames
       = Some (newFilePathOf "assets/app-1a2b3c4d.js" newFileName)
    /\ JsMap.get "assets/app-9f8e7d6c.js" renames'
       = Some (newFilePathOf "assets/app-9f8e7d6c.js" newFileName).
Proof.
  do 3 eexists.
  split; [vm_compute; reflexivity|]. split; [vm_compute; reflexivity|].
  assert (Hnd : forall k1 k2 (o1 o2 : Output), k1 <> k2 ->
                  NoDup (JsObject.keys [(k1, o1); (k2, o2)])).
  { intros k1 k2 o1 o2 Hne. constructor; [intros [H | []]; cbn in H; congruence|].
    constructor; [intros [] | constructor]. }
  pose proof (C1_no_cascade twoBuildsHost noGenerateMap keepMapComment
                (importMapPlugin None) (importMapPlugin None) flatBundle flatBundle'
                [("assets/app-1a2b3c4d.js", "assets/app-tfL_2xSU.js")]
                [("assets/app-9f8e7d6c.js", "assets/app-tfL_2xSU.js")]
                "assets/app-1a2b3c4d.js" "assets/app-9f8e7d6c.js" appChunk appChunk') as H.
  edestruct H as (Hfirst & _ & _ & _ & Hsecond).
  - apply Hnd. discriminate.
  - left. reflexivity.
  - reflexivity.
  - reflexivity.
  - reflexivity.
  - vm_compute. reflexivity.
  - vm_compute. reflexivity.
  - split; [exact Hfirst|].
    apply Hsecond; try reflexivity.
    + apply Hnd. discriminate.
    + left. reflexivity.
Defined.

(* ------------------------------------------------------------------ *)
(** ** Claim on the commit pass (C5) *)

Import JsString StringFacts PassFacts ThirdPassFacts CommitFacts RewriteFacts BuildFacts DigestFacts.


Lemma afterSecondPass_settings (p : Plugin) (bundle : OutputBundle) :
  sameSettings p (afterSecondPass p bundle).
Proof.
  unfold afterSecondPass. eapply sameSettings_trans; [apply firstPass_settings|].
  apply secondPass_settings.
Qed.



Lemma flatBundle_NoDup : NoDup (JsObject.keys flatBundle).
Proof.
  constructor; [intros [H | []]; discriminate|].
  constructor; [intros [] | constructor].
Qed.


(* ------------------------------------------------------------------ *)
(** ** Claims on failure and on the closure (C7, C9) *)

Import JsString StringFacts PassFacts ThirdPassFacts CommitFacts RewriteFacts BuildFacts DigestFacts.

Section Host.
Variable parse : string -> ParseResult.
Variable generateMap : MagicString.t -> string -> string -> option SourceMap.
Variable replaceMapComment : string -> string -> string.




End Host.




(** C9, counterexample.  [generateBundle] twice on one plugin instance with
    the same chunk set: the second call starts with the counts of the
    first, counts the base name [button] a second time, and so assigns a
    digest specifier; mapping and table differ from those of one call. *)
Lemma C9_counterexample :
  exists bundle1 p1 bundle2 p2,
    generateBundle exampleHost noGenerateMap keepMapComment (importMapPlugin None) leafBundle
    = Ok (bundle1, p1)
    /\ generateBundle exampleHost noGenerateMap keepMapComment p1 leafBundle = Ok (bundle2, p2)
    /\ baseNameCounts p1 = [("button", 1%N)]
    /\ baseNameCounts p2 = [("button", 2%N)]
    /\ imports p1 = [("button", "/assets/button-abc123.js")]
    /\ imports p2 <> imports p1
    /\ chunkMapping p2 <> chunkMapping p1.
Proof.
  do 4 eexists.
  split; [vm_compute; reflexivity|]. split; [vm_compute; reflexivity|].
  split; [reflexivity|]. split; [reflexivity|]. split; [reflexivity|].
  split; discriminate.
Qed.

(** C9 (amended).  The tables live as long as the plugin instance.  A call
    of [importMapPlugin] starts with an empty mapping, no counts and an
    empty table.  A call of [generateBundle] resets none of them: every
    base-name count after the call is the count before it plus the
    occurrences in the bundle, and every alias of the mapping and every
    key of the table from before the call is still there. *)
Theorem C9_state_per_plugin_instance :
  (forall options,
      chunkMapping (importMapPlugin options) = JsMap.empty
      /\ baseNameCounts (importMapPlugin options) = JsMap.empty
      /\ imports (importMapPlugin options) = JsObject.empty)
  /\ forall (parse : string -> ParseResult)
            (generateMap : MagicString.t -> string -> string -> option SourceMap)
            (replaceMapComment : string -> string -> string)
            (p : Plugin) (bundle final : OutputBundle) (q : Plugin),
      generateBundle parse generateMap replaceMapComment p bundle = Ok (final, q) ->
      (forall baseName,
          countOf baseName (baseNameCounts q)
          = (countOf baseName (baseNameCounts p) + occurrences baseName bundle)%N)
      /\ (forall alias,
             JsMap.get alias (chunkMapping p) <> None ->
             JsMap.get alias (chunkMapping q) <> None)
      /\ (forall specifier,
             JsObject.has specifier (imports p) = true ->
             JsObject.has specifier (imports q) = true).
Proof.
  split; [intro options; apply importMapPlugin_empty|].
  intros parse generateMap replaceMapComment p bundle final q Hgen.
  destruct (generateBundle_passes parse generateMap replaceMapComment p bundle final q Hgen)
    as (entries' & renames & _ & _ & Hcommit).
  assert (Hq : q = snd (commitAll renames (entries', afterSecondPass p bundle)))
    by now rewrite Hcommit.
  destruct (commitAll_settings renames (entries', afterSecondPass p bundle)) as [_ Hcounts].
  destruct (commitAll_grows renames (entries', afterSecondPass p bundle)) as [Hmap Himp].
  destruct (secondPass_grows (JsObject.entries bundle) (firstPass (JsObject.entries bundle) p))
    as [Hmap2 Himp2].
  rewrite <- Hq in Hcounts, Hmap, Himp. cbn [snd] in Hcounts, Hmap, Himp.
  split; [|split].
  - intro baseName. rewrite Hcounts. unfold afterSecondPass.
    rewrite (proj2 (secondPass_settings _ _)). apply firstPass_counts.
  - intros alias H. apply Hmap. unfold afterSecondPass. now apply Hmap2.
  - intros specifier H. apply Himp. unfold afterSecondPass. now apply Himp2.
Qed.

(** A closure that has counted [button] once counts it twice. *)
Lemma C9_witness :
  exists final q,
    generateBundle exampleHost noGenerateMap keepMapComment
      (mkPlugin None true JsMap.empty [("button", 1%N)] JsObject.empty "assets") leafBundle
    = Ok (final, q)
    /\ countOf "button" (baseNameCounts q) = (1 + occurrences "button" leafBundle)%N.
Proof.
  do 2 eexists. split; [vm_compute; reflexivity|].
  match goal with
  | |- countOf _ (baseNameCounts ?q) = _ =>
      destruct (proj2 C9_state_per_plugin_instance exampleHost noGenerateMap keepMapComment
                  (mkPlugin None true JsMap.empty [("button", 1%N)] JsObject.empty "assets")
                  leafBundle
                  [("assets/button-abc123.js",
                    plainChunk "assets/button-abc123.js" "button" exportConst)]
                  q) as (Hcount & _)
  end.
  - vm_compute. reflexivity.
  - exact (Hcount "button").
Defined.

(* ------------------------------------------------------------------ *)
(** ** Claim on chunks left alone (C10) *)

Import JsString StringFacts PassFacts ThirdPassFacts CommitFacts RewriteFacts BuildFacts DigestFacts.




(* ------------------------------------------------------------------ *)
(** ** Claim on the emitted table (C6) *)

Import JsString StringFacts PassFacts SortFacts.

Module TableFacts.

(** Filling a fresh object with entries whose keys are no array indices
    keeps their order. *)
Lemma fill_plain (entries : list (string * string)) :
  forall acc : JsObject.t string,
    NoDup (List.map fst entries) ->
    (forall k, In k (List.map fst entries) ->
               JsObject.arrayIndex k = None /\ JsObject.get k acc = None) ->
    List.fold_left (fun o kv => JsObject.set (fst kv) (snd kv) o) entries acc
    = (acc ++ entries)%list.
Proof.
  induction entries as [|[k v] rest IH]; intros acc Hnd Hkeys; cbn [List.fold_left fst snd].
  - now rewrite app_nil_r.
  - inversion Hnd as [|? ? Hk Hnd']; subst.
    destruct (Hkeys k (or_introl eq_refl)) as [Hindex Hget].
    rewrite (ObjectFacts.obj_set_plain k v acc Hget Hindex).
    rewrite IH; [now rewrite <- app_assoc | exact Hnd' |].
    intros k' Hk'. destruct (Hkeys k' (or_intror Hk')) as [Hi Hg].
    split; [exact Hi|].
    rewrite ObjectFacts.obj_get_app, Hg. cbn.
    destruct (String.eqb_spec k k'); [subst; contradiction | reflexivity].
Qed.

Lemma sorted_keys (cmp : string -> string -> Z) (entries : list (string * string)) :
  StronglySorted (precedes (fun a b : string * string => cmp (fst a) (fst b))) entries ->
  StronglySorted (precedes cmp) (List.map fst entries).
Proof.
  induction 1 as [|kv rest Hrest IH Hall]; cbn; constructor; [exact IH|].
  apply Forall_map. exact Hall.
Qed.

Lemma sortedImportsOf_plain (cmp : string -> string -> Z) (table : JsObject.t string) :
  NoDup (JsObject.keys table) ->
  (forall k, In k (JsObject.keys table) -> JsObject.arrayIndex k = None) ->
  sortedImportsOf cmp table
  = JsArray.sort (fun a b => cmp (fst a) (fst b)) table.
Proof.
  intros Hnd Hplain. unfold sortedImportsOf, JsObject.entries.
  set (sorted := JsArray.sort _ table).
  assert (Hperm : Permutation (List.map fst table) (List.map fst sorted))
    by (apply Permutation_map, sort_perm).
  rewrite fill_plain; [reflexivity | |].
  - eapply Permutation_NoDup; [exact Hperm | exact Hnd].
  - intros k Hk. split; [|reflexivity].
    apply Hplain. eapply Permutation_in; [apply Permutation_sym, Hperm | exact Hk].
Qed.

(** Comparison by code units is a total preorder. *)
Lemma compare_not_gt_trans (a b c : string) :
  String.compare a b <> Gt -> String.compare b c <> Gt -> String.compare a c <> Gt.
Proof.
  revert b c. induction a as [|x a IH]; intros [|y b] [|z c]; cbn; try congruence.
  unfold Ascii.compare.
  destruct (N.compare_spec (N_of_ascii x) (N_of_ascii y)) as [Hxy | Hxy | Hxy];
    destruct (N.compare_spec (N_of_ascii y) (N_of_ascii z)) as [Hyz | Hyz | Hyz];
    destruct (N.compare_spec (N_of_ascii x) (N_of_ascii z)) as [Hxz | Hxz | Hxz];
    try congruence; try lia.
  apply IH.
Qed.

Lemma codeUnit_total (a b : string) :
  precedes codeUnitCompare a b \/ precedes codeUnitCompare b a.
Proof.
  unfold precedes, codeUnitCompare. rewrite (String.compare_antisym a b).
  destruct (String.compare b a); cbn; lia.
Qed.

Lemma codeUnit_precedes (a b : string) :
  precedes codeUnitCompare a b <-> String.compare a b <> Gt.
Proof.
  unfold precedes, codeUnitCompare. destruct (String.compare a b); split; try lia; congruence.
Qed.

Lemma codeUnit_trans (a b c : string) :
  precedes codeUnitCompare a b -> precedes codeUnitCompare b c ->
  precedes codeUnitCompare a c.
Proof. rewrite !codeUnit_precedes. apply compare_not_gt_trans. Qed.

End TableFacts.

Import TableFacts.

(** C6, counterexample.  Chunks named [9] and [10]: the sorted entries are
    written to a fresh object, whose array-index keys enumerate in numeric
    order, so the table is emitted as [9], [10] although [10] is below [9]
    as a string.  Chunks named [B] and [a]: the order is the one the host's
    [localeCompare] gives; a collation that puts letters before case emits
    [a], [B], comparison by code units [B], [a]. *)
Lemma C6_counterexample :
  (exists final q,
      generateBundle exampleHost noGenerateMap keepMapComment
                     (importMapPlugin None) numberedBundle = Ok (final, q)
      /\ JsObject.keys (snd (transformIndexHtml codeUnitCompare q)) = ["9"; "10"]
      /\ String.ltb "10" "9" = true
      /\ ~ StronglySorted (precedes codeUnitCompare)
           (JsObject.keys (snd (transformIndexHtml codeUnitCompare q))))
  /\ (exists final q,
         generateBundle exampleHost noGenerateMap keepMapComment
                        (importMapPlugin None) letteredBundle = Ok (final, q)
         /\ JsObject.keys (snd (transformIndexHtml alphabeticCompare q)) = ["a"; "B"]
         /\ JsObject.keys (snd (transformIndexHtml codeUnitCompare q)) = ["B"; "a"]
         /\ String.ltb "B" "a" = true
         /\ ~ StronglySorted (precedes codeUnitCompare)
              (JsObject.keys (snd (transformIndexHtml alphabeticCompare q)))).
Proof.
  split; do 2 eexists.
  - split; [vm_compute; reflexivity|]. split; [reflexivity|]. split; [reflexivity|].
    intro H. inversion H as [|? ? _ Hall]; subst.
    inversion Hall as [|? ? Hle _]; subst. vm_compute in Hle. now apply Hle.
  - split; [vm_compute; reflexivity|]. split; [reflexivity|]. split; [reflexivity|].
    split; [reflexivity|].
    intro H. inversion H as [|? ? _ Hall]; subst.
    inversion Hall as [|? ? Hle _]; subst. vm_compute in Hle. now apply Hle.
Qed.

(** C6 (amended).  Resolution table ordering.  For a host collation
    [localeCompare] that is total and transitive, and a table none of whose
    keys is an array index, [transformIndexHtml] emits the entries of the
    table, whatever order they were entered in, with keys ascending under
    [localeCompare], and leaves the closure with the table it emitted. *)
Theorem C6_table_sorted_by_localeCompare :
  forall (localeCompare : string -> string -> Z) (p : Plugin),
    (forall a b, precedes localeCompare a b \/ precedes localeCompare b a) ->
    (forall a b c, precedes localeCompare a b -> precedes localeCompare b c ->
                   precedes localeCompare a c) ->
    NoDup (JsObject.keys (imports p)) ->
    (forall k, In k (JsObject.keys (imports p)) -> JsObject.arrayIndex k = None) ->
    let emitted := snd (transformIndexHtml localeCompare p) in
    StronglySorted (precedes localeCompare) (JsObject.keys emitted)
    /\ Permutation (imports p) emitted
    /\ imports (fst (transformIndexHtml localeCompare p)) = emitted.
Proof.
  intros localeCompare p Htotal Htrans Hnd Hplain emitted.
  assert (Heq : emitted = JsArray.sort (fun a b => localeCompare (fst a) (fst b)) (imports p)).
  { subst emitted. unfold transformIndexHtml. cbn [snd].
    now apply sortedImportsOf_plain. }
  split; [|split].
  - rewrite Heq. apply sorted_keys. apply sort_sorted.
    + intros a b. apply Htotal.
    + intros a b c. apply Htrans.
  - rewrite Heq. apply sort_perm.
  - reflexivity.
Qed.

(** A table entered out of order, under comparison by code units. *)
Lemma C6_witness :
  StronglySorted (precedes codeUnitCompare)
    (JsObject.keys
       (snd (transformIndexHtml codeUnitCompare
               (mkPlugin None true JsMap.empty JsMap.empty
                  [("button", "/assets/button-abc123.js"); ("app", "/assets/app-tfL_2xSU.js")]
                  "assets")))).
Proof.
  refine (proj1 (C6_table_sorted_by_localeCompare codeUnitCompare
                   (mkPlugin None true JsMap.empty JsMap.empty
                      [("button", "/assets/button-abc123.js");
                       ("app", "/assets/app-tfL_2xSU.js")] "assets")
                   codeUnit_total codeUnit_trans _ _)).
  - constructor; [intros [H | []]; discriminate|].
    constructor; [intros [] | constructor].
  - intros k [<- | [<- | []]]; reflexivity.
Defined.

(* ------------------------------------------------------------------ *)
(** ** Paths and bare filenames *)

Import JsString StringFacts.

Module PathFacts.

Lemma split_not_nil (c : ascii) (s : string) : split c s <> [].
Proof.
  destruct s as [|d s]; cbn; [discriminate|].
  destruct (Ascii.eqb c d); [discriminate|].
  destruct (split c s); discriminate.
Qed.

(** No segment of a split holds the separator. *)
Lemma split_segments (c : ascii) (s : string) :
  Forall (fun seg => includesChar c seg = false) (split c s).
Proof.
  induction s as [|d s IH]; cbn.
  - constructor; [reflexivity|constructor].
  - destruct (Ascii.eqb c d) eqn:E.
    + constructor; [reflexivity|exact IH].
    + destruct (split c s) as [|seg segs].
      * constructor; [cbn; rewrite E; reflexivity|constructor].
      * inversion IH; subst. constructor; [cbn; rewrite E; assumption|assumption].
Qed.

Lemma split_plain (c : ascii) (s : string) :
  includesChar c s = false -> split c s = [s].
Proof.
  induction s as [|d s IH]; cbn; [reflexivity|].
  destruct (Ascii.eqb c d); cbn; [discriminate|].
  intros H. rewrite (IH H). reflexivity.
Qed.

(** A split at a separator is the split of the two sides. *)
Lemma split_app (c : ascii) (a b : string) :
  split c (a ++ String c b) = (split c a ++ split c b)%list.
Proof.
  induction a as [|d a IH]; cbn.
  - rewrite Ascii.eqb_refl. reflexivity.
  - destruct (Ascii.eqb c d); [rewrite IH; reflexivity|].
    rewrite IH. pose proof (split_not_nil c a) as Hne.
    destruct (split c a) as [|seg segs]; [congruence|reflexivity].
Qed.

Lemma last_app_not_nil (l1 l2 : list string) (d : string) :
  l2 <> [] -> List.last (l1 ++ l2)%list d = List.last l2 d.
Proof.
  intros Hne. induction l1 as [|x l1 IH]; [reflexivity|].
  cbn [app]. destruct (l1 ++ l2)%list eqn:E.
  - destruct l1; cbn in E; [congruence|discriminate].
  - cbn [List.last]. rewrite <- IH. reflexivity.
Qed.

Lemma pop_segment (c : ascii) (s : string) :
  includesChar c (pop (split c s)) = false.
Proof.
  pose proof (split_segments c s) as HF. pose proof (split_not_nil c s) as Hne.
  unfold pop. rewrite Forall_forall in HF. apply HF.
  destruct (split c s) as [|x l]; [congruence|].
  apply (@exists_last _ (x :: l)) in Hne. destruct Hne as (l' & y & E).
  rewrite E. rewrite last_last. apply in_or_app. right. left. reflexivity.
Qed.

(** Joining the segments with the separator gives the text back. *)
Lemma join_split (c : ascii) (s : string) :
  join (String c EmptyString) (split c s) = s.
Proof.
  unfold join. induction s as [|d s IH]; cbn; [reflexivity|].
  destruct (Ascii.eqb c d) eqn:E.
  - apply Ascii.eqb_eq in E. subst d.
    pose proof (split_not_nil c s) as Hne.
    destruct (split c s) as [|seg segs]; [congruence|].
    cbn [String.concat]. cbn [String.concat] in IH. cbn. f_equal. exact IH.
  - pose proof (split_not_nil c s) as Hne.
    destruct (split c s) as [|seg segs]; [congruence|].
    destruct segs as [|seg' segs]; cbn in *; f_equal; exact IH.
Qed.

Lemma concat_snoc (sep : string) (l : list string) (x : string) :
  l <> [] -> String.concat sep (l ++ [x])%list = String.concat sep l ++ sep ++ x.
Proof.
  induction l as [|y l IH]; [congruence|]. intros _.
  destruct l as [|z l].
  - cbn. reflexivity.
  - change ((y :: z :: l) ++ [x])%list with (y :: ((z :: l) ++ [x]))%list.
    assert (E : forall u w, String.concat sep (u :: (z :: l) ++ w)%list
                            = u ++ sep ++ String.concat sep ((z :: l) ++ w)%list)
      by (intros; reflexivity).
    rewrite E. rewrite IH by discriminate.
    change (String.concat sep (y :: z :: l)) with (y ++ sep ++ String.concat sep (z :: l)).
    rewrite !append_assoc. reflexivity.
Qed.

Lemma split_includes (c : ascii) (s : string) :
  includesChar c s = true -> init (split c s) <> [].
Proof.
  unfold init. induction s as [|d s IH]; cbn; [discriminate|].
  destruct (Ascii.eqb c d) eqn:E; cbn.
  - intros _. pose proof (split_not_nil c s) as Hne.
    destruct (split c s); [congruence|discriminate].
  - intros H. specialize (IH H).
    destruct (split c s) as [|seg segs]; [exact IH|].
    destruct segs; [cbn in IH; congruence|discriminate].
Qed.

(** The directory, a slash and the bare filename make the path again. *)
Lemma newFilePathOf_same (key : string) : newFilePathOf key (filenameOnlyOf key) = key.
Proof.
  unfold newFilePathOf, filenameOnlyOf.
  destruct (includesChar slash key) eqn:E; [|reflexivity].
  pose proof (split_includes slash key E) as Hinit.
  pose proof (split_not_nil slash key) as Hne.
  pose proof (join_split slash key) as Hjoin.
  rewrite (app_removelast_last EmptyString Hne) in Hjoin.
  unfold join in *. rewrite concat_snoc in Hjoin by exact Hinit.
  unfold cat, init, pop. cbn [String.concat append]. exact Hjoin.
Qed.

Lemma includesChar_app (c : ascii) (a b : string) :
  includesChar c (a ++ b) = includesChar c a || includesChar c b.
Proof.
  induction a as [|d a IH]; cbn; [reflexivity|]. rewrite IH. apply orb_assoc.
Qed.

Lemma filenameOnlyOf_plain (n : string) :
  includesChar slash n = false -> filenameOnlyOf n = n.
Proof. intros H. unfold filenameOnlyOf. rewrite H. reflexivity. Qed.

Lemma filenameOnlyOf_path (dir n : string) :
  includesChar slash n = false -> filenameOnlyOf (cat [dir; "/"; n]) = n.
Proof.
  intros H. unfold filenameOnlyOf, cat. cbn [String.concat].
  rewrite includesChar_app. cbn [includesChar append]. unfold slash at 2.
  rewrite Ascii.eqb_refl, orb_true_r.
  change ("/" ++ n) with (String slash n). rewrite split_app.
  unfold pop. rewrite last_app_not_nil by apply split_not_nil.
  pose proof (split_plain slash n H) as Hs. unfold slash in Hs. rewrite Hs. reflexivity.
Qed.

Lemma filenameOnlyOf_bare (key : string) : includesChar slash (filenameOnlyOf key) = false.
Proof.
  unfold filenameOnlyOf. destruct (includesChar slash key) eqn:E; [|exact E].
  apply pop_segment.
Qed.

Lemma endsWith_app (a b : string) : endsWith (a ++ b) b = true.
Proof.
  unfold endsWith. rewrite length_append.
  replace (String.length a + String.length b - String.length b) with (String.length a) by lia.
  rewrite drop_app_le by lia. rewrite drop_all by lia. cbn [append].
  rewrite String.eqb_refl. rewrite andb_true_r. apply Nat.leb_le. lia.
Qed.

End PathFacts.

(* ------------------------------------------------------------------ *)
(** ** Source-map comments and staged names *)

Import JsString StringFacts PathFacts DigestFacts.

Module StripFacts.

Lemma prefix_nil (s : string) : String.prefix EmptyString s = true.
Proof. destruct s; reflexivity. Qed.

(** A test for a prefix looks no further than the prefix is long. *)
Lemma prefix_window (q a x y : string) :
  String.length q <= String.length a ->
  String.prefix q (a ++ x) = String.prefix q (a ++ y).
Proof.
  revert a. induction q as [|c q IH]; intros a Hlen; [rewrite !prefix_nil; reflexivity|].
  destruct a as [|d a]; cbn in Hlen; [lia|].
  cbn. destruct (ascii_dec c d); [|reflexivity]. apply IH. lia.
Qed.

Lemma oneLine_app (a b : string) : oneLine (a ++ b) = oneLine a && oneLine b.
Proof.
  unfold oneLine. induction a as [|c a IH]; cbn; [reflexivity|].
  rewrite IH. apply andb_assoc.
Qed.

(** Inside a comment, the rest of the line is dropped. *)
Lemma stripFrom_comment (u rest : string) :
  oneLine u = true -> stripFrom true (u ++ rest) = stripFrom true rest.
Proof.
  unfold oneLine. induction u as [|c u IH]; cbn; [reflexivity|].
  intros H. apply andb_prop in H. destruct H as [Hc Hu].
  apply negb_true_iff in Hc. rewrite Hc. apply IH. exact Hu.
Qed.

Lemma marker_oneLine : oneLine sourceMappingURL = true.
Proof. reflexivity. Qed.

Lemma stripFrom_marker (b : bool) (u rest : string) :
  oneLine u = true ->
  stripFrom b (sourceMappingURL ++ u ++ rest) = stripFrom true rest.
Proof.
  intros Hu. destruct b.
  - rewrite <- append_assoc. apply stripFrom_comment.
    rewrite oneLine_app, Hu. reflexivity.
  - change (sourceMappingURL ++ u ++ rest)
      with (String "/" ("/# sourceMappingURL=" ++ u ++ rest)).
    cbn [stripFrom].
    replace (startsWith (String "/" ("/# sourceMappingURL=" ++ u ++ rest)) sourceMappingURL)
      with true.
    + rewrite <- append_assoc. apply stripFrom_comment.
      rewrite oneLine_app, Hu. reflexivity.
    + symmetry. unfold startsWith.
      change (String "/" ("/# sourceMappingURL=" ++ u ++ rest))
        with (sourceMappingURL ++ (u ++ rest)).
      rewrite <- (append_nil_r sourceMappingURL) at 1.
      generalize sourceMappingURL. intros m. induction m as [|c m IH]; cbn.
      * apply prefix_nil.
      * destruct (ascii_dec c c); [exact IH|congruence].
Qed.

(** What follows the marker on its line does not reach the result. *)
Lemma stripFrom_url (pre url url' post : string) :
  oneLine url = true -> oneLine url' = true ->
  forall b,
    stripFrom b (pre ++ sourceMappingURL ++ url ++ post)
    = stripFrom b (pre ++ sourceMappingURL ++ url' ++ post).
Proof.
  intros Hu Hu'. induction pre as [|c pre IH]; intros b.
  - cbn [append]. rewrite !stripFrom_marker by assumption. reflexivity.
  - cbn [append stripFrom]. destruct b.
    + destruct (isLineTerminator c); rewrite IH; reflexivity.
    + assert (E : startsWith (String c (pre ++ sourceMappingURL ++ url ++ post)) sourceMappingURL
                  = startsWith (String c (pre ++ sourceMappingURL ++ url' ++ post)) sourceMappingURL).
      { unfold startsWith.
        change (String c (pre ++ sourceMappingURL ++ url ++ post))
          with (String c pre ++ sourceMappingURL ++ url ++ post).
        change (String c (pre ++ sourceMappingURL ++ url' ++ post))
          with (String c pre ++ sourceMappingURL ++ url' ++ post).
        rewrite <- !(append_assoc (String c pre) sourceMappingURL).
        apply prefix_window. rewrite length_append. cbn. lia. }
      rewrite E, (IH true), (IH false). reflexivity.
Qed.

(** After a comment the result is empty or goes on with a line terminator. *)
Lemma stripFrom_comment_head (s : string) :
  atLineEnd (stripFrom true s) = true.
Proof.
  induction s as [|c s IH]; cbn; [reflexivity|].
  destruct (isLineTerminator c) eqn:E; [cbn; exact E|exact IH].
Qed.

(** One line at the head of the result stood at the head of the text. *)
Lemma prefix_of_stripped (t : string) :
  forall q, oneLine q = true ->
            String.prefix q (stripFrom false t) = true -> String.prefix q t = true.
Proof.
  induction t as [|c t IH]; intros q Hq H; [exact H|].
  destruct q as [|d q]; [apply prefix_nil|].
  unfold oneLine in Hq. cbn in Hq. apply andb_prop in Hq. destruct Hq as [Hd Hq].
  apply negb_true_iff in Hd.
  cbn [stripFrom] in H.
  destruct (startsWith (String c t) sourceMappingURL).
  - pose proof (stripFrom_comment_head t) as Hhead.
    destruct (stripFrom true t) as [|e out]; cbn in H; [discriminate|].
    cbn in Hhead. destruct (ascii_dec d e); [subst e; congruence|discriminate].
  - cbn in H |- *. destruct (ascii_dec d c); [|discriminate].
    apply IH; assumption.
Qed.

Lemma stripFrom_markerFree (s : string) :
  forall b i, startsWith (drop i (stripFrom b s)) sourceMappingURL = false.
Proof.
  induction s as [|c s IH]; intros b i.
  - cbn. destruct i; reflexivity.
  - assert (Hkeep : startsWith (String c s) sourceMappingURL = false ->
                    startsWith (drop i (String c (stripFrom false s))) sourceMappingURL = false).
    { intros E. destruct i as [|i]; [|apply IH].
      cbn [drop]. destruct (startsWith (String c (stripFrom false s)) sourceMappingURL) eqn:E';
        [|reflexivity].
      unfold startsWith in E'.
      assert (Hs : stripFrom false (String c s) = String c (stripFrom false s))
        by (cbn [stripFrom]; rewrite E; reflexivity).
      rewrite <- Hs in E'. apply prefix_of_stripped in E'; [|reflexivity].
      unfold startsWith in E. congruence. }
    cbn [stripFrom]. destruct b.
    + destruct (isLineTerminator c) eqn:E; [|apply IH].
      destruct i as [|i]; [|apply IH].
      cbn [drop]. unfold startsWith, sourceMappingURL. cbn [String.prefix].
      destruct (ascii_dec "/" c); [subst c; discriminate|reflexivity].
    + destruct (startsWith (String c s) sourceMappingURL) eqn:E; [apply IH|].
      apply Hkeep. reflexivity.
Qed.

Lemma stripFrom_fixed (s : string) : markerFree s -> stripFrom false s = s.
Proof.
  induction s as [|c s IH]; intros H; [reflexivity|].
  cbn [stripFrom]. pose proof (H 0) as H0. cbn [drop] in H0. rewrite H0. f_equal. apply IH.
  intros i. exact (H (S i)).
Qed.

End StripFacts.

Import StripFacts.

(** The path helpers of lines 186-191 undo each other.  The bare filename
    of a path holds no slash; putting the bare filename of a path back
    behind its directory gives the path; and the bare filename of a path
    rebuilt around a new slash-free file name is that file name, which is
    what line 249 reads back from the staged path. *)
Theorem bare_filename_round_trip :
  forall key newFileName : string,
    includesChar slash (filenameOnlyOf key) = false
    /\ newFilePathOf key (filenameOnlyOf key) = key
    /\ (includesChar slash newFileName = false ->
        filenameOnlyOf (newFilePathOf key newFileName) = newFileName).
Proof.
  intros key n. split; [apply filenameOnlyOf_bare|].
  split; [apply newFilePathOf_same|].
  intros Hn. unfold newFilePathOf.
  destruct (includesChar slash key).
  - apply filenameOnlyOf_path. exact Hn.
  - apply filenameOnlyOf_plain. exact Hn.
Qed.

(** The name staged for a script chunk keeps it a script chunk: it ends in
    [.js] whatever the digest is.  A chunk with an empty base name is
    staged under the very name it has, so the digest of its rewritten text
    does not reach its file name. *)
Theorem staged_name_is_script :
  forall (chunk : OutputChunk) (key newHash : string),
    endsWith key dotJs = true ->
    endsWith (newFilePathOf key (newFileNameOf chunk key newHash)) dotJs = true
    /\ (name chunk = EmptyString ->
        newFilePathOf key (newFileNameOf chunk key newHash) = key).
Proof.
  intros chunk key h Hkey.
  assert (Hempty : name chunk = EmptyString ->
                   newFilePathOf key (newFileNameOf chunk key h) = key).
  { intros E. unfold newFileNameOf. rewrite E. cbn [truthy]. apply newFilePathOf_same. }
  split; [|exact Hempty].
  destruct (name chunk) as [|c nm] eqn:E.
  - rewrite Hempty by reflexivity. exact Hkey.
  - unfold newFileNameOf, newFilePathOf. rewrite E. cbn [truthy].
    assert (Hname : String c (nm ++ String "-" (h ++ dotJs))
                    = (String c nm ++ "-" ++ h) ++ dotJs)
      by (rewrite !append_assoc; reflexivity).
    destruct (includesChar slash key); unfold cat; cbn [String.concat append];
      rewrite Hname.
    + change (String "/" ((String c nm ++ "-" ++ h) ++ dotJs))
        with (("/" ++ String c nm ++ "-" ++ h) ++ dotJs).
      rewrite <- append_assoc. apply endsWith_app.
    + apply endsWith_app.
Qed.

Lemma staged_name_is_script_witness :
  endsWith (newFilePathOf "assets/app-1a2b3c4d.js"
              (newFileNameOf appChunk "assets/app-1a2b3c4d.js" "tfL_2xSU")) dotJs = true
  /\ (name appChunk = EmptyString ->
      newFilePathOf "assets/app-1a2b3c4d.js"
        (newFileNameOf appChunk "assets/app-1a2b3c4d.js" "tfL_2xSU")
      = "assets/app-1a2b3c4d.js").
Proof.
  apply (staged_name_is_script appChunk "assets/app-1a2b3c4d.js" "tfL_2xSU").
  reflexivity.
Defined.

(** The digest taken for a new file name does not see what a
    [//# sourceMappingURL=] comment points at: two texts that differ only
    in what follows the marker on its line are stripped to the same text,
    the one left when the comment is empty, and so get the same digest and
    the same file name. *)
Theorem source_map_url_not_hashed :
  forall (pre url url' post : string) (chunk : OutputChunk) (key : string),
    oneLine url = true -> oneLine url' = true ->
    let text := pre ++ sourceMappingURL ++ url ++ post in
    let text' := pre ++ sourceMappingURL ++ url' ++ post in
    stripSourceMaps text = stripSourceMaps text'
    /\ stripSourceMaps text = stripSourceMaps (pre ++ sourceMappingURL ++ post)
    /\ newFileNameOf chunk key (computeHash (stripSourceMaps text))
       = newFileNameOf chunk key (computeHash (stripSourceMaps text')).
Proof.
  intros pre url url' post chunk key Hu Hu' text text'.
  assert (E : stripSourceMaps text = stripSourceMaps text')
    by (apply stripFrom_url; assumption).
  split; [exact E|]. split; [|rewrite E; reflexivity].
  unfold stripSourceMaps, text.
  change (pre ++ sourceMappingURL ++ post)
    with (pre ++ sourceMappingURL ++ EmptyString ++ post).
  apply stripFrom_url; [assumption|reflexivity].
Qed.

Lemma source_map_url_not_hashed_witness :
  stripSourceMaps ("export const z = 1;" ++ sourceMappingURL ++ "app-1a2b3c4d.js.map" ++ "")
  = stripSourceMaps ("export const z = 1;" ++ sourceMappingURL ++ "app-9f8e7d6c.js.map" ++ "").
Proof.
  exact (proj1 (source_map_url_not_hashed "export const z = 1;" "app-1a2b3c4d.js.map"
                  "app-9f8e7d6c.js.map" "" appChunk "assets/app-1a2b3c4d.js"
                  eq_refl eq_refl)).
Defined.

(** Stripping leaves no [//# sourceMappingURL=] marker anywhere, so
    stripping twice is stripping once; a text in which the marker starts
    nowhere is returned as it is. *)
Theorem stripSourceMaps_idempotent :
  forall code : string,
    markerFree (stripSourceMaps code)
    /\ stripSourceMaps (stripSourceMaps code) = stripSourceMaps code
    /\ (markerFree code -> stripSourceMaps code = code).
Proof.
  intros code.
  assert (H : markerFree (stripSourceMaps code))
    by (intros i; apply stripFrom_markerFree).
  split; [exact H|]. split.
  - apply stripFrom_fixed. exact H.
  - apply stripFrom_fixed.
Qed.

(* ------------------------------------------------------------------ *)
(** ** The fingerprint *)

Import JsString StringFacts PathFacts DigestFacts.

Module CodecFacts.

Lemma sextet_symbol (i : N) : (i < 64)%N -> sextetOf (Base64Url.symbol i) = i.
Proof.
  intro H. unfold Base64Url.symbol.
  rewrite <- (N2Nat.id i) at 2.
  assert (Hn : N.to_nat i < 64) by lia.
  generalize dependent (N.to_nat i). intros n Hn.
  do 64 (destruct n as [|n]; [reflexivity|]). lia.
Qed.

Lemma byte_listed (x : N) : In (N.land x 255) byteValues.
Proof.
  assert (H : (N.land x 255 < 256)%N).
  { change 255%N with (N.ones 8). rewrite N.land_ones. now apply N.mod_lt. }
  unfold byteValues. rewrite <- (N2Nat.id (N.land x 255)).
  apply in_map. apply in_seq. lia.
Qed.

(** A test that holds on all pairs of byte values holds on two bytes. *)
Lemma on_bytes (P : N -> N -> bool) :
  forallb (fun a => forallb (P a) byteValues) byteValues = true ->
  forall x y, P (N.land x 255) (N.land y 255) = true.
Proof.
  intros H x y. rewrite forallb_forall in H.
  specialize (H _ (byte_listed x)). rewrite forallb_forall in H.
  exact (H _ (byte_listed y)).
Qed.

Local Open Scope N_scope.

Lemma first_byte (x y : N) :
  let a := N.land x 255 in let b := N.land y 255 in
  N.shiftr a 2 * 4 + sextet1 a b / 16 = a.
Proof.
  cbv zeta. apply N.eqb_eq.
  apply (on_bytes (fun a b => N.shiftr a 2 * 4 + sextet1 a b / 16 =? a)).
  vm_compute. reflexivity.
Qed.

Lemma second_byte_high (x y : N) :
  let a := N.land x 255 in let b := N.land y 255 in
  sextet1 a b mod 16 = b / 16.
Proof.
  cbv zeta. apply N.eqb_eq.
  apply (on_bytes (fun a b => sextet1 a b mod 16 =? b / 16)).
  vm_compute. reflexivity.
Qed.

Lemma second_byte_low (x y : N) :
  let b := N.land x 255 in let c := N.land y 255 in
  sextet2 b c / 4 = b mod 16.
Proof.
  cbv zeta. apply N.eqb_eq.
  apply (on_bytes (fun b c => sextet2 b c / 4 =? b mod 16)).
  vm_compute. reflexivity.
Qed.

Lemma third_byte (x y : N) :
  let b := N.land x 255 in let c := N.land y 255 in
  sextet2 b c mod 4 * 64 + N.land c 63 = c.
Proof.
  cbv zeta. apply N.eqb_eq.
  apply (on_bytes (fun b c => sextet2 b c mod 4 * 64 + N.land c 63 =? c)).
  vm_compute. reflexivity.
Qed.

(** Four characters give their three bytes back. *)
Lemma decode_triple (x y z : N) (rest : list N) :
  let a := N.land x 255 in let b := N.land y 255 in let c := N.land z 255 in
  decodeQuads (Base64Url.encode (a :: b :: c :: rest))
  = a :: b :: c :: decodeQuads (Base64Url.encode rest).
Proof.
  cbv zeta. cbn [Base64Url.encode decodeQuads].
  rewrite !sextet_symbol by (try apply land_63; apply shiftr_byte).
  fold (sextet1 (N.land x 255) (N.land y 255)).
  fold (sextet2 (N.land y 255) (N.land z 255)).
  rewrite first_byte, second_byte_high, second_byte_low, third_byte.
  f_equal. f_equal.
  rewrite N.mul_comm. symmetry. apply N.div_mod. discriminate.
Qed.

End CodecFacts.

Import CodecFacts.

Lemma digest_length (msg : list N) : List.length (Sha256.digest msg) = 32%nat.
Proof. reflexivity. Qed.

(** The fingerprint of [computeHash] is the first 48 bits of the SHA-256
    digest and nothing else: the digest has 32 bytes, the eight characters
    are the base64url form of its first six, they belong to the base64url
    alphabet (so none is a slash), and two inputs get the same fingerprint
    exactly when their digests agree on the first six bytes. *)
Theorem fingerprint_is_six_bytes :
  forall input : string,
    List.length (Sha256.digest (utf8 input)) = 32%nat
    /\ computeHash input = Base64Url.encode (List.firstn 6 (Sha256.digest (utf8 input)))
    /\ String.length (computeHash input) = 8%nat
    /\ allChars urlSafe (computeHash input) = true
    /\ includesChar slash (computeHash input) = false
    /\ (forall input' : string,
           computeHash input = computeHash input'
           <-> List.firstn 6 (Sha256.digest (utf8 input))
               = List.firstn 6 (Sha256.digest (utf8 input'))).
Proof.
  intros input.
  assert (Hsix : forall i, computeHash i
                           = Base64Url.encode (List.firstn 6 (Sha256.digest (utf8 i)))).
  { intros i. unfold computeHash.
    destruct (digest_six (utf8 i)) as (b0 & b1 & b2 & b3 & b4 & b5 & rest & ->).
    reflexivity. }
  destruct (computeHash_shape input) as [Hlen Hsafe].
  split; [apply digest_length|]. split; [apply Hsix|].
  split; [exact Hlen|]. split; [exact Hsafe|]. split.
  - revert Hsafe. generalize (computeHash input). intros s.
    induction s as [|c s IH]; cbn [allChars includesChar]; [reflexivity|].
    intros H. apply andb_prop in H. destruct H as [Hc Hs].
    rewrite (IH Hs), orb_false_r.
    destruct (Ascii.eqb slash c) eqn:E; [|reflexivity].
    apply Ascii.eqb_eq in E. subst c. discriminate.
  - intros input'. rewrite !Hsix. split; [|intros ->; reflexivity].
    destruct (digest_six (utf8 input)) as (b0 & b1 & b2 & b3 & b4 & b5 & rest & ->).
    destruct (digest_six (utf8 input')) as (c0 & c1 & c2 & c3 & c4 & c5 & rest' & ->).
    cbn [List.firstn]. intros H.
    apply (f_equal decodeQuads) in H.
    rewrite !(decode_triple _ _ _ (_ :: _ :: _ :: _)) in H.
    rewrite !(decode_triple _ _ _ []) in H.
    exact H.
Qed.

(* ------------------------------------------------------------------ *)
(** ** What the closure keeps *)

Import JsString StringFacts PathFacts PassFacts ThirdPassFacts CommitFacts RewriteFacts BuildFacts SortFacts SiteFacts.

Module InvariantFacts.


(** The table after one turn of the second pass. *)
Lemma mapEntry_table (p : Plugin) (entry : string * Output) (spec : string) :
  JsObject.get spec (imports (mapEntry p entry))
  = match entry with
    | (key, Chunk chunk) =>
        if endsWith key dotJs && (moduleSpecOf (baseNameCounts p) chunk =? spec)
        then Some (resolvedPath p (filenameOnlyOf key))
        else JsObject.get spec (imports p)
    | (_, Asset _) => JsObject.get spec (imports p)
    end.
Proof.
  destruct entry as [key [chunk | asset]]; [|reflexivity].
  unfold mapEntry.
  destruct (endsWith key dotJs); cbn [negb andb imports]; [|reflexivity].
  destruct (String.eqb_spec (moduleSpecOf (baseNameCounts p) chunk) spec) as [<- | Hne].
  - apply ObjectFacts.obj_get_set_same.
  - apply ObjectFacts.obj_get_set_other. congruence.
Qed.










Lemma configResolved_tables (buildAssetsDir : option string) (p : Plugin) :
  chunkMapping (configResolved buildAssetsDir p) = chunkMapping p
  /\ baseNameCounts (configResolved buildAssetsDir p) = baseNameCounts p
  /\ imports (configResolved buildAssetsDir p) = imports p
  /\ options (configResolved buildAssetsDir p) = options p
  /\ useAbsolutePaths (configResolved buildAssetsDir p) = useAbsolutePaths p.
Proof.
  unfold configResolved. destruct buildAssetsDir as [d|]; [|now repeat split].
  destruct (_ && _); now repeat split.
Qed.

(** A value inside the assets directory stays so while the settings do. *)
Lemma insideAssets_settings (p q : Plugin) (value : string) :
  sameSettings p q -> insideAssets p value -> insideAssets q value.
Proof.
  intros Hs (file & Hfile & ->). exists file. split; [exact Hfile|].
  symmetry. now apply sameSettings_path.
Qed.

Lemma mapEntry_inside (p : Plugin) (entry : string * Output) :
  tableInsideAssets p -> tableInsideAssets (mapEntry p entry).
Proof.
  intros Hp spec value. rewrite mapEntry_table.
  pose proof (proj1 (mapEntry_settings p entry)) as Hs.
  destruct entry as [key [chunk | asset]].
  - destruct (_ && _).
    + intros [= <-]. apply (insideAssets_settings p); [exact Hs|].
      exists (filenameOnlyOf key). split; [apply filenameOnlyOf_bare|reflexivity].
    + intros H. apply (insideAssets_settings p); [exact Hs|]. exact (Hp _ _ H).
  - intros H. exact (Hp _ _ H).
Qed.

Lemma secondPass_inside (entries : list (string * Output)) :
  forall p, tableInsideAssets p -> tableInsideAssets (secondPass entries p).
Proof.
  unfold secondPass. induction entries as [|e rest IH]; intros p Hp; [exact Hp|].
  cbn [fold_left]. apply IH. apply mapEntry_inside. exact Hp.
Qed.

Lemma commit_inside (state : OutputBundle * Plugin) (rename : string * string) :
  tableInsideAssets (snd state) -> tableInsideAssets (snd (commitRename state rename)).
Proof.
  destruct state as [bundle p]. destruct rename as [o n]. cbn [snd]. intros Hp.
  unfold commitRename.
  destruct (JsObject.get o bundle) as [[chunk | asset]|]; cbn [snd]; try exact Hp.
  destruct (JsMap.get (filenameOnlyOf o) (chunkMapping p)) as [[|c spec]|] eqn:E;
    cbn [snd]; try exact Hp.
  intros k value. cbn [imports].
  assert (Hs : forall v, insideAssets p v ->
                         insideAssets
                           (mkPlugin (options p) (useAbsolutePaths p)
                              (JsMap.set (filenameOnlyOf o) (String c spec)
                                 (JsMap.set (filenameOnlyOf n) (String c spec)
                                    (JsMap.set n (String c spec) (chunkMapping p))))
                              (baseNameCounts p)
                              (JsObject.set (String c spec)
                                 (resolvedPath p (filenameOnlyOf n)) (imports p))
                              (resolvedAssetsDir p)) v).
  { intros v (file & Hfile & ->). exists file. split; [exact Hfile|reflexivity]. }
  destruct (String.eqb_spec (String c spec) k) as [<- | Hne].
  - rewrite ObjectFacts.obj_get_set_same. intros [= <-]. apply Hs.
    exists (filenameOnlyOf n). split; [apply filenameOnlyOf_bare|reflexivity].
  - rewrite ObjectFacts.obj_get_set_other by congruence. intros H. apply Hs. exact (Hp _ _ H).
Qed.

Lemma commitAll_inside (renames : list (string * string)) :
  forall state, tableInsideAssets (snd state) ->
                tableInsideAssets (snd (commitAll renames state)).
Proof.
  unfold commitAll. induction renames as [|r rest IH]; intros state H; [exact H|].
  cbn [fold_left]. apply IH. apply commit_inside. exact H.
Qed.

End InvariantFacts.

Import InvariantFacts.



(** Every path of the table lies directly in the assets directory.  On a
    closure that [configResolved] has seen, and after any number of bundles,
    a table value is the prefix, the assets directory, a slash and a file
    name without a slash: the directories of a chunk's key below the assets
    directory are not part of the path.  The assets directory is the
    [assetsDir] option when it is a non-empty string, else the bundler's
    [build.assetsDir] when that is one, else the option or ['assets']. *)
Theorem table_paths_inside_assets :
  forall (parse : string -> ParseResult)
         (generateMap : MagicString.t -> string -> string -> option SourceMap)
         (replaceMapComment : string -> string -> string)
         (opts : option ImportMapPluginOptions) (buildAssetsDir : option string),
    let p0 := configResolved buildAssetsDir (importMapPlugin opts) in
    tableInsideAssets p0
    /\ resolvedAssetsDir p0
       = match optionsAssetsDir opts, buildAssetsDir with
         | Some (String c d), _ => String c d
         | _, Some (String c d) => String c d
         | Some EmptyString, _ => EmptyString
         | None, _ => "assets"
         end
    /\ pathPrefix p0
       = match opts with
         | Some (mkOptions _ (Some false)) => "./"
         | _ => "/"
         end
    /\ (forall p bundle final q,
           tableInsideAssets p ->
           generateBundle parse generateMap replaceMapComment p bundle = Ok (final, q) ->
           tableInsideAssets q
           /\ resolvedAssetsDir q = resolvedAssetsDir p
           /\ pathPrefix q = pathPrefix p).
Proof.
  intros parse generateMap replaceMapComment opts cfg p0.
  split.
  { intros spec value. unfold p0.
    destruct (configResolved_tables cfg (importMapPlugin opts)) as (_ & _ & -> & _).
    discriminate. }
  split.
  { unfold p0, configResolved, importMapPlugin. cbn [options resolvedAssetsDir].
    destruct (optionsAssetsDir opts) as [[|c d]|]; destruct cfg as [[|c' d']|]; reflexivity. }
  split.
  { unfold p0, pathPrefix.
    destruct (configResolved_tables cfg (importMapPlugin opts)) as (_ & _ & _ & _ & ->).
    destruct opts as [[dir [[|]|]]|]; reflexivity. }
  intros p bundle final q Hp Hgen.
  destruct (generateBundle_passes parse generateMap replaceMapComment _ _ _ _ Hgen)
    as (entries' & renames & Hthird & Hstaged & Hcommit).
  assert (H2 : tableInsideAssets (afterSecondPass p bundle)).
  { apply secondPass_inside. intros spec value H.
    apply (insideAssets_settings p); [apply firstPass_settings|].
    apply Hp with spec.
    destruct (firstPass_tables (JsObject.entries bundle) p) as [_ <-]. exact H. }
  pose proof (commitAll_inside renames (entries', afterSecondPass p bundle) H2) as H.
  pose proof (commitAll_settings renames (entries', afterSecondPass p bundle)) as [Hs _].
  rewrite Hcommit in H, Hs. cbn [snd] in H, Hs.
  pose proof (sameSettings_trans _ _ _ (afterSecondPass_settings p bundle) Hs)
    as (Ho & Hu & Hd).
  split; [exact H|]. split; [exact Hd|].
  unfold pathPrefix. now rewrite Hu.
Qed.

(* ------------------------------------------------------------------ *)
(** ** Orders, frames and failures *)

Import JsString StringFacts PathFacts PassFacts ThirdPassFacts CommitFacts RewriteFacts BuildFacts SortFacts SiteFacts InvariantFacts.

Module OrderFacts.

(** Two sorted lists with the same elements are the same list when no two
    different elements may stand either way round. *)
Lemma sorted_unique {A : Type} (R : A -> A -> Prop) (l1 : list A) :
  forall l2,
    StronglySorted R l1 -> StronglySorted R l2 -> Permutation l1 l2 ->
    (forall a b, In a l1 -> In b l1 -> R a b -> R b a -> a = b) ->
    l1 = l2.
Proof.
  induction l1 as [|x l1 IH]; intros l2 H1 H2 Hperm Hanti.
  - apply Permutation_nil in Hperm. now subst.
  - destruct l2 as [|y l2].
    { apply Permutation_sym, Permutation_nil in Hperm. discriminate. }
    inversion H1 as [|? ? H1' Hx]; subst. inversion H2 as [|? ? H2' Hy]; subst.
    rewrite Forall_forall in Hx, Hy.
    assert (Exy : x = y).
    { assert (Hin : In x (y :: l2)) by (apply (Permutation_in _ Hperm); now left).
      assert (Hin' : In y (x :: l1))
        by (apply (Permutation_in _ (Permutation_sym Hperm)); now left).
      destruct Hin as [-> | Hin]; [reflexivity|].
      destruct Hin' as [-> | Hin']; [reflexivity|].
      apply Hanti; [now left | now right | now apply Hx | now apply Hy]. }
    subst y. f_equal. apply IH; try assumption.
    + now apply Permutation_cons_inv in Hperm.
    + intros a b Ha Hb. apply Hanti; now right.
Qed.

Lemma importsToTransform_perm (p : Plugin) (fileName : string) (visited visited' : list Node) :
  Permutation visited visited' ->
  Permutation (importsToTransform p fileName visited) (importsToTransform p fileName visited').
Proof.
  induction 1 as [|x l l' _ IH|x y l|l l' l'' _ IH1 _ IH2]; cbn [importsToTransform].
  - constructor.
  - destruct (visit p fileName x); [exact IH | exact IH | now constructor].
  - destruct (visit p fileName x), (visit p fileName y);
      try apply Permutation_refl; apply perm_swap.
  - now transitivity (importsToTransform p fileName l').
Qed.

(** Operations with well-formed ranges are told apart by where they start. *)
Lemma wellFormed_start (len : nat) (ops : list RewriteOp) (a b : RewriteOp) :
  wellFormedOps len ops -> In a ops -> In b ops -> op_start a = op_start b -> a = b.
Proof.
  intros [Hrange Hapart] Ha Hb Hstart.
  rewrite Forall_forall in Hrange.
  pose proof (Hrange _ Ha) as [Hla _]. pose proof (Hrange _ Hb) as [Hlb _].
  destruct (ForallOrdPairs_In Hapart _ _ Ha Hb) as [E | [H | H]]; [exact E| |];
    unfold apart in H; lia.
Qed.

Lemma sort_order_free (len : nat) (ops ops' : list RewriteOp) :
  wellFormedOps len ops -> Permutation ops ops' ->
  JsArray.sort byStartDescending ops = JsArray.sort byStartDescending ops'.
Proof.
  intros Hwf Hperm.
  assert (Hsorted : forall l, StronglySorted (precedes byStartDescending)
                                (JsArray.sort byStartDescending l))
    by (intros l; apply sort_sorted; unfold precedes, byStartDescending; intros; lia).
  apply (sorted_unique (precedes byStartDescending)).
  - apply Hsorted.
  - apply Hsorted.
  - transitivity ops; [apply Permutation_sym, sort_perm|].
    transitivity ops'; [exact Hperm | apply sort_perm].
  - intros a b Ha Hb Hab Hba.
    apply (Permutation_in _ (Permutation_sym (sort_perm byStartDescending ops))) in Ha, Hb.
    apply (wellFormed_start len ops); try assumption.
    unfold precedes, byStartDescending in Hab, Hba. lia.
Qed.

End OrderFacts.

Module FrameFacts.

Lemma countEntry_other (counts : JsMap.t N) (entry : string * Output) :
  isScript entry = false -> countEntry counts entry = counts.
Proof.
  destruct entry as [key [chunk | asset]]; cbn; [|reflexivity].
  now intros ->.
Qed.

Lemma mapEntry_other (p : Plugin) (entry : string * Output) :
  isScript entry = false -> mapEntry p entry = p.
Proof.
  destruct entry as [key [chunk | asset]]; cbn; [|reflexivity].
  now intros ->.
Qed.

Lemma firstPass_other (entries : list (string * Output)) (p : Plugin) :
  forallb (fun e => negb (isScript e)) entries = true -> firstPass entries p = p.
Proof.
  intros H. unfold firstPass.
  assert (E : fold_left countEntry entries (baseNameCounts p) = baseNameCounts p).
  { generalize (baseNameCounts p). induction entries as [|e rest IH]; intros counts;
      [reflexivity|].
    cbn [forallb] in H. apply andb_prop in H. destruct H as [He Hrest].
    cbn [fold_left]. rewrite countEntry_other by now apply negb_true_iff.
    now apply IH. }
  rewrite E. now destruct p.
Qed.

Lemma secondPass_other (entries : list (string * Output)) (p : Plugin) :
  forallb (fun e => negb (isScript e)) entries = true -> secondPass entries p = p.
Proof.
  intros H. unfold secondPass. induction entries as [|e rest IH]; [reflexivity|].
  cbn [forallb] in H. apply andb_prop in H. destruct H as [He Hrest].
  cbn [fold_left]. rewrite mapEntry_other by now apply negb_true_iff.
  now apply IH.
Qed.

Section Host.
Variable parse : string -> ParseResult.
Variable generateMap : MagicString.t -> string -> string -> option SourceMap.
Variable replaceMapComment : string -> string -> string.

Lemma transformEntry_other (p : Plugin) (key : string) (out : Output) :
  isScript (key, out) = false ->
  transformEntry parse generateMap replaceMapComment p key out = Ok (out, None).
Proof.
  destruct out as [chunk | asset]; cbn [isScript transformEntry]; [|reflexivity].
  intros ->. cbn [negb]. now rewrite orb_true_r.
Qed.

Lemma thirdPass_other (p : Plugin) (entries : list (string * Output)) :
  forallb (fun e => negb (isScript e)) entries = true ->
  forall renames,
    thirdPass parse generateMap replaceMapComment p entries renames = Ok (entries, renames).
Proof.
  induction entries as [|[key out] rest IH]; intros H renames; [reflexivity|].
  cbn [forallb] in H. apply andb_prop in H. destruct H as [He Hrest].
  cbn [thirdPass]. rewrite transformEntry_other by now apply negb_true_iff.
  cbn [bind]. rewrite (IH Hrest). reflexivity.
Qed.

(** A throw of the third pass is the throw of one of its turns. *)
Lemma thirdPass_throw_inv (p : Plugin) (entries : list (string * Output)) :
  forall renames message,
    thirdPass parse generateMap replaceMapComment p entries renames = Throw message ->
    exists key out,
      In (key, out) entries
      /\ transformEntry parse generateMap replaceMapComment p key out = Throw message.
Proof.
  induction entries as [|[key out] rest IH]; intros renames message H; [discriminate|].
  cbn [thirdPass] in H.
  destruct (transformEntry parse generateMap replaceMapComment p key out)
    as [[out' staged]|e] eqn:E; cbn [bind] in H.
  - destruct (thirdPass parse generateMap replaceMapComment p rest _)
      as [[rest' renames']|e] eqn:E'; cbn [bind] in H; [discriminate|].
    injection H as <-. destruct (IH _ _ E') as (key' & out'' & Hin & Hthrow).
    exists key', out''. split; [now right | exact Hthrow].
  - injection H as <-. exists key, out. split; [now left | exact E].
Qed.

Lemma transformEntry_throw_inv (p : Plugin) (key : string) (out : Output) (message : string) :
  transformEntry parse generateMap replaceMapComment p key out = Throw message ->
  exists chunk,
    out = Chunk chunk /\ truthy (code chunk) = true /\ endsWith key dotJs = true
    /\ rewriteCode parse p key (code chunk) = Throw message.
Proof.
  unfold transformEntry. destruct out as [chunk | asset]; [|discriminate].
  destruct (truthy (code chunk)) eqn:Hcode; [|discriminate].
  destruct (endsWith key dotJs) eqn:Hjs; [|discriminate]. cbn [negb orb].
  destruct (rewriteCode parse p key (code chunk)) as [[transformed ms]|e] eqn:Hrw.
  - cbn [bind]. destruct transformed; cbn [negb]; [|discriminate].
    match goal with
    | |- context [updateMap ?gm ?rc ?ch ?fn ?nn ?tc ?m] =>
        destruct (updateMap gm rc ch fn nn tc m) as [finalCode newMap]
    end.
    discriminate.
  - cbn [bind]. intros [= <-]. exists chunk. now repeat split.
Qed.

(** Why a rewrite throws. *)
Lemma rewriteCode_throw_inv (p : Plugin) (key code : string) (message : string) :
  rewriteCode parse p key code = Throw message ->
  (exists error, parse code = SyntaxError error
                 /\ message = cat ["Error parsing code: "; error])
  \/ (exists visited detail,
         parse code = Parsed visited
         /\ ~ wellFormedOps (String.length code) (importsToTransform p key visited)
         /\ message = cat ["Error parsing code: "; "Error: "; detail]).
Proof.
  intros H. destruct (parse code) as [visited | error] eqn:Hparse.
  - right. exists visited.
    unfold rewriteCode in H. rewrite Hparse in H.
    destruct (overwriteAll _ _) as [ms | detail] eqn:E; [discriminate|].
    injection H as <-. exists detail. split; [reflexivity|]. split; [|reflexivity].
    intros Hwf.
    destruct (rewriteCode_splice parse p key code visited Hparse Hwf) as (ms & Hok & _).
    unfold rewriteCode in Hok. rewrite Hparse, E in Hok. discriminate.
  - left. exists error. unfold rewriteCode in H. rewrite Hparse in H.
    injection H as <-. now split.
Qed.

Lemma generateBundle_throw_inv (p : Plugin) (bundle : OutputBundle) (message : string) :
  generateBundle parse generateMap replaceMapComment p bundle = Throw message ->
  exists key chunk,
    In (key, Chunk chunk) bundle
    /\ truthy (code chunk) = true /\ endsWith key dotJs = true
    /\ rewriteCode parse (afterSecondPass p bundle) key (code chunk) = Throw message.
Proof.
  unfold generateBundle. fold (afterSecondPass p bundle). intros H.
  destruct (thirdPass parse generateMap replaceMapComment (afterSecondPass p bundle)
              (JsObject.entries bundle) JsMap.empty) as [[bundle3 renames]|e] eqn:E;
    cbn [bind] in H; [discriminate|].
  injection H as <-.
  destruct (thirdPass_throw_inv _ _ _ _ E) as (key & out & Hin & Hthrow).
  destruct (transformEntry_throw_inv _ _ _ _ Hthrow) as (chunk & -> & Hcode & Hjs & Hrw).
  exists key, chunk. now repeat split.
Qed.


End Host.

(** Filling an object: what a key holds afterwards. *)
Lemma fill_get_out (entries : list (string * string)) :
  forall (acc : JsObject.t string) (k : string),
    ~ In k (List.map fst entries) ->
    JsObject.get k (fold_left (fun o kv => JsObject.set (fst kv) (snd kv) o) entries acc)
    = JsObject.get k acc.
Proof.
  induction entries as [|[k0 v0] rest IH]; intros acc k Hout; [reflexivity|].
  cbn [fold_left fst snd]. cbn [List.map fst In] in Hout.
  rewrite IH by tauto. apply ObjectFacts.obj_get_set_other. intros ->. tauto.
Qed.

Lemma fill_get_in (entries : list (string * string)) :
  NoDup (List.map fst entries) ->
  forall (acc : JsObject.t string) (k v : string),
    In (k, v) entries ->
    JsObject.get k (fold_left (fun o kv => JsObject.set (fst kv) (snd kv) o) entries acc)
    = Some v.
Proof.
  induction entries as [|[k0 v0] rest IH]; intros Hnd acc k v Hin; [contradiction|].
  cbn [List.map fst] in Hnd. inversion Hnd as [|? ? Hk0 Hrest]; subst.
  cbn [fold_left fst snd]. destruct Hin as [[= -> ->] | Hin].
  - rewrite fill_get_out by exact Hk0. apply ObjectFacts.obj_get_set_same.
  - now apply IH.
Qed.

Lemma fill_NoDup (entries : list (string * string)) :
  forall acc : JsObject.t string,
    NoDup (JsObject.keys acc) ->
    NoDup (JsObject.keys
             (fold_left (fun o kv => JsObject.set (fst kv) (snd kv) o) entries acc)).
Proof.
  induction entries as [|[k0 v0] rest IH]; intros acc H; [exact H|].
  cbn [fold_left]. apply IH. now apply ObjectFacts.obj_NoDup_set.
Qed.

(** Sorting for the emission keeps what every key holds. *)
Lemma sortedImportsOf_get (cmp : string -> string -> Z) (table : JsObject.t string)
    (k : string) :
  NoDup (JsObject.keys table) ->
  JsObject.get k (sortedImportsOf cmp table) = JsObject.get k table.
Proof.
  intros Hnd. unfold sortedImportsOf, JsObject.entries.
  set (sorted := JsArray.sort _ table).
  assert (Hperm : Permutation table sorted) by apply sort_perm.
  assert (Hnd' : NoDup (List.map fst sorted)).
  { apply (Permutation_NoDup (Permutation_map fst Hperm)). exact Hnd. }
  destruct (JsObject.get k table) as [v|] eqn:E.
  - apply fill_get_in; [exact Hnd'|].
    apply (Permutation_in _ Hperm). now apply ObjectFacts.obj_get_in.
  - rewrite fill_get_out; [reflexivity|].
    apply ObjectFacts.obj_get_none_keys in E. intros Hin. apply E.
    apply (Permutation_in _ (Permutation_sym (Permutation_map fst Hperm))). exact Hin.
Qed.

Lemma mapEntry_NoDup (p : Plugin) (entry : string * Output) :
  NoDup (JsObject.keys (imports p)) -> NoDup (JsObject.keys (imports (mapEntry p entry))).
Proof.
  intros H. destruct entry as [key [chunk | asset]]; [|exact H].
  unfold mapEntry. destruct (endsWith key dotJs); cbn [negb imports]; [|exact H].
  now apply ObjectFacts.obj_NoDup_set.
Qed.

Lemma commit_table_NoDup (state : OutputBundle * Plugin) (rename : string * string) :
  NoDup (JsObject.keys (imports (snd state))) ->
  NoDup (JsObject.keys (imports (snd (commitRename state rename)))).
Proof.
  destruct state as [bundle p]. destruct rename as [o n]. cbn [snd]. intros H.
  unfold commitRename.
  destruct (JsObject.get o bundle) as [[chunk | asset]|]; cbn [snd]; try exact H.
  destruct (JsMap.get (filenameOnlyOf o) (chunkMapping p)) as [[|c spec]|];
    cbn [snd imports]; try exact H.
  now apply ObjectFacts.obj_NoDup_set.
Qed.

Lemma secondPass_table_NoDup (entries : list (string * Output)) :
  forall p, NoDup (JsObject.keys (imports p)) ->
            NoDup (JsObject.keys (imports (secondPass entries p))).
Proof.
  unfold secondPass. induction entries as [|e rest IH]; intros p H; [exact H|].
  cbn [fold_left]. apply IH. now apply mapEntry_NoDup.
Qed.

Lemma commitAll_table_NoDup (renames : list (string * string)) :
  forall state, NoDup (JsObject.keys (imports (snd state))) ->
                NoDup (JsObject.keys (imports (snd (commitAll renames state)))).
Proof.
  unfold commitAll. induction renames as [|r rest IH]; intros state H; [exact H|].
  cbn [fold_left]. apply IH. now apply commit_table_NoDup.
Qed.

End FrameFacts.

(* ------------------------------------------------------------------ *)
(** ** Properties of a build *)

Import JsString StringFacts PathFacts PassFacts ThirdPassFacts CommitFacts RewriteFacts BuildFacts SortFacts SiteFacts InvariantFacts OrderFacts FrameFacts.

(** The rewritten text does not depend on the order in which the walker
    hands the reference sites to the visitors.  The sort of line 168 puts
    the recorded operations in one order whatever order they were pushed
    in, so two walks over the same sites give the same result, and the text
    is the original with the recorded ranges replaced. *)
Theorem rewrite_independent_of_visiting_order :
  forall (parse parse' : string -> ParseResult) (p : Plugin) (key code : string)
         (visited visited' : list Node),
    parse code = Parsed visited -> parse' code = Parsed visited' ->
    Permutation visited visited' ->
    wellFormedOps (String.length code) (importsToTransform p key visited) ->
    rewriteCode parse' p key code = rewriteCode parse p key code
    /\ exists ms,
         rewriteCode parse' p key code
         = Ok (match importsToTransform p key visited with [] => false | _ :: _ => true end, ms)
         /\ MagicString.toString ms
            = spliceOps code (JsArray.sort byStartDescending (importsToTransform p key visited)).
Proof.
  intros parse parse' p key code visited visited' Hparse Hparse' Hperm Hwf.
  assert (E : rewriteCode parse' p key code = rewriteCode parse p key code).
  { unfold rewriteCode. rewrite Hparse, Hparse'.
    rewrite (sort_order_free _ _ _ Hwf (importsToTransform_perm p key _ _ Hperm)).
    reflexivity. }
  split; [exact E|]. rewrite E. now apply rewriteCode_splice.
Qed.

Lemma rewrite_independent_of_visiting_order_witness :
  rewriteCode (acornOn [(twoImports, List.rev twoImportsVisited)]) twoImportsPlugin
    "assets/app-1a2b3c4d.js" twoImports
  = rewriteCode (acornOn [(twoImports, twoImportsVisited)]) twoImportsPlugin
      "assets/app-1a2b3c4d.js" twoImports.
Proof.
  refine (proj1 (rewrite_independent_of_visiting_order
                   (acornOn [(twoImports, twoImportsVisited)])
                   (acornOn [(twoImports, List.rev twoImportsVisited)])
                   twoImportsPlugin "assets/app-1a2b3c4d.js" twoImports
                   twoImportsVisited (List.rev twoImportsVisited) eq_refl eq_refl _ _)).
  - apply Permutation_rev.
  - split.
    + constructor; [cbn; lia|]. constructor; [cbn; lia|]. constructor.
    + constructor; [|constructor; constructor].
      constructor; [|constructor]. left. cbn. lia.
Defined.

(** A bundle without script chunks passes through the hook untouched.  With
    only assets and chunks whose key does not end in [.js], [generateBundle]
    returns the bundle and the closure as they were, whatever the parser
    would say about the texts: it is not asked. *)
Theorem bundle_without_scripts_unchanged :
  forall (parse : string -> ParseResult)
         (generateMap : MagicString.t -> string -> string -> option SourceMap)
         (replaceMapComment : string -> string -> string)
         (p : Plugin) (bundle : OutputBundle),
    forallb (fun entry => negb (isScript entry)) bundle = true ->
    generateBundle parse generateMap replaceMapComment p bundle = Ok (bundle, p).
Proof.
  intros parse generateMap replaceMapComment p bundle H.
  unfold generateBundle, JsObject.entries.
  rewrite firstPass_other, secondPass_other by exact H.
  rewrite thirdPass_other by exact H. reflexivity.
Qed.

Lemma bundle_without_scripts_unchanged_witness :
  generateBundle (fun _ => SyntaxError "SyntaxError: Unexpected token (1:0)")
    noGenerateMap keepMapComment (importMapPlugin None) staticBundle
  = Ok (staticBundle, importMapPlugin None).
Proof.
  apply (bundle_without_scripts_unchanged
           (fun _ => SyntaxError "SyntaxError: Unexpected token (1:0)")
           noGenerateMap keepMapComment (importMapPlugin None) staticBundle).
  reflexivity.
Defined.

(** Assets and chunks whose key does not end in [.js] are left alone in
    every build.  When the keys of the bundle are distinct and the staged
    names are fresh, such an entry is under its key in the bundle the hook
    leaves, as it was, and no rename is staged for it. *)
Theorem non_script_entries_kept :
  forall (parse : string -> ParseResult)
         (generateMap : MagicString.t -> string -> string -> option SourceMap)
         (replaceMapComment : string -> string -> string)
         (p : Plugin) (bundle final : OutputBundle) (q : Plugin)
         (renames : JsMap.t string) (key : string) (out : Output),
    NoDup (JsObject.keys bundle) ->
    generateBundle parse generateMap replaceMapComment p bundle = Ok (final, q) ->
    stagedRenames parse generateMap replaceMapComment p bundle = Ok renames ->
    freshTargets bundle renames ->
    In (key, out) bundle -> isScript (key, out) = false ->
    JsObject.get key final = Some out /\ JsMap.get key renames = None.
Proof.
  intros parse generateMap replaceMapComment p bundle final q renames key out
         Hnd Hgen Hstaged [_ Hfresh] Hin Hscript.
  destruct (generateBundle_passes parse generateMap replaceMapComment _ _ _ _ Hgen)
    as (entries' & renames' & Hthird & Hstaged' & Hcommit).
  rewrite Hstaged in Hstaged'. injection Hstaged' as <-.
  destruct (thirdPass_staged parse generateMap replaceMapComment _ _ _ _ Hnd Hthird)
    as (Hkeys & Hturn & _).
  destruct (Hturn _ _ Hin) as (out' & staged & Hturn' & Hin' & Hget).
  rewrite transformEntry_other in Hturn' by exact Hscript.
  injection Hturn' as <- <-.
  split; [|exact Hget].
  assert (Hother : forall o n, In (o, n) renames -> key <> o /\ key <> n).
  { intros o n Hon. split.
    - intros <-. apply MapFacts.map_get_none_keys in Hget. apply Hget.
      apply (in_map fst) in Hon. exact Hon.
    - intros <-. apply (Hfresh _ _ Hon). apply (in_map fst) in Hin. exact Hin. }
  pose proof (commitAll_bundle_other renames key (entries', afterSecondPass p bundle) Hother)
    as Hkept.
  rewrite Hcommit in Hkept. cbn [fst] in Hkept. rewrite Hkept.
  apply ObjectFacts.obj_in_get; [|exact Hin'].
  unfold JsObject.keys in *. rewrite Hkeys. exact Hnd.
Qed.

Lemma styledBundle_NoDup : NoDup (JsObject.keys styledBundle).
Proof.
  repeat (constructor; [cbn; intuition discriminate|]). constructor.
Qed.

Lemma non_script_entries_kept_witness :
  exists final q,
    generateBundle exampleHost noGenerateMap keepMapComment (importMapPlugin None) styledBundle
    = Ok (final, q)
    /\ JsObject.get "assets/style-1a2b3c4d.css" final = Some (Asset "assets/style-1a2b3c4d.css").
Proof.
  do 2 eexists. split; [vm_compute; reflexivity|].
  match goal with
  | |- JsObject.get _ ?final = _ =>
      refine (proj1 (non_script_entries_kept exampleHost noGenerateMap keepMapComment
                       (importMapPlugin None) styledBundle final _
                       [("assets/app-1a2b3c4d.js", "assets/app-tfL_2xSU.js")]
                       "assets/style-1a2b3c4d.css" (Asset "assets/style-1a2b3c4d.css")
                       styledBundle_NoDup _ _ _ _ _))
  end.
  - vm_compute. reflexivity.
  - vm_compute. reflexivity.
  - split.
    + constructor; [intros []|constructor].
    + intros o n [[= <- <-] | []]. cbn. intuition discriminate.
  - right. right. left. reflexivity.
  - reflexivity.
Defined.

(** A build completes when every script chunk parses.  If every script
    chunk with code is accepted by the parser, with the ranges of its
    rewritten literals inside the text and apart from each other, the hook
    returns a bundle and a closure: it throws nothing. *)
Theorem build_completes :
  forall (parse : string -> ParseResult)
         (generateMap : MagicString.t -> string -> string -> option SourceMap)
         (replaceMapComment : string -> string -> string)
         (p : Plugin) (bundle : OutputBundle),
    (forall key chunk,
        In (key, Chunk chunk) bundle ->
        endsWith key dotJs = true -> truthy (code chunk) = true ->
        exists visited,
          parse (code chunk) = Parsed visited
          /\ wellFormedOps (String.length (code chunk))
               (importsToTransform (afterSecondPass p bundle) key visited)) ->
    exists final q,
      generateBundle parse generateMap replaceMapComment p bundle = Ok (final, q).
Proof.
  intros parse generateMap replaceMapComment p bundle Hall.
  destruct (generateBundle parse generateMap replaceMapComment p bundle)
    as [[final q]|message] eqn:E; [now exists final, q|].
  destruct (generateBundle_throw_inv _ _ _ _ _ _ E) as (key & chunk & Hin & Hcode & Hjs & Hrw).
  destruct (Hall _ _ Hin Hjs Hcode) as (visited & Hparse & Hwf).
  destruct (rewriteCode_splice parse _ key _ visited Hparse Hwf) as (ms & Hok & _).
  rewrite Hok in Hrw. discriminate.
Qed.

Lemma build_completes_witness :
  exists final q,
    generateBundle exampleHost noGenerateMap keepMapComment (importMapPlugin None) flatBundle
    = Ok (final, q).
Proof.
  apply (build_completes exampleHost noGenerateMap keepMapComment (importMapPlugin None)
           flatBundle).
  intros key chunk [[= <- <-] | [[= <- <-] | []]] _ _.
  - exists importButtonVisited. split; [reflexivity|]. split.
    + constructor; [cbn; lia|constructor].
    + constructor; constructor.
  - exists exportConstVisited. split; [reflexivity|]. split; constructor.
Defined.

(** A build fails only on a script chunk.  Whatever [generateBundle]
    throws, it throws for a script chunk of the bundle with code, and for
    one of two reasons: the parser rejects the text, and the message is
    ['Error parsing code: '] followed by the parser's error; or the parser
    accepts it and the ranges recorded for its literals are not well
    formed, and the message carries the same prefix before the error of
    the string editor. *)
Theorem build_fails_only_on_a_chunk :
  forall (parse : string -> ParseResult)
         (generateMap : MagicString.t -> string -> string -> option SourceMap)
         (replaceMapComment : string -> string -> string)
         (p : Plugin) (bundle : OutputBundle) (message : string),
    generateBundle parse generateMap replaceMapComment p bundle = Throw message ->
    exists key chunk,
      In (key, Chunk chunk) bundle
      /\ endsWith key dotJs = true /\ truthy (code chunk) = true
      /\ ((exists error,
              parse (code chunk) = SyntaxError error
              /\ message = cat ["Error parsing code: "; error])
          \/ (exists visited detail,
                 parse (code chunk) = Parsed visited
                 /\ ~ wellFormedOps (String.length (code chunk))
                        (importsToTransform (afterSecondPass p bundle) key visited)
                 /\ message = cat ["Error parsing code: "; "Error: "; detail])).
Proof.
  intros parse generateMap replaceMapComment p bundle message E.
  destruct (generateBundle_throw_inv _ _ _ _ _ _ E) as (key & chunk & Hin & Hcode & Hjs & Hrw).
  exists key, chunk. split; [exact Hin|]. split; [exact Hjs|]. split; [exact Hcode|].
  now apply rewriteCode_throw_inv.
Qed.

Lemma build_fails_only_on_a_chunk_witness :
  exists key chunk,
    In (key, Chunk chunk)
       [("assets/one-1a2b3c4d.js", plainChunk "assets/one-1a2b3c4d.js" "one" importBroken)]
    /\ endsWith key dotJs = true /\ truthy (code chunk) = true
    /\ ((exists error,
            brokenHost (code chunk) = SyntaxError error
            /\ cat ["Error parsing code: "; "SyntaxError: Unexpected token (1:8)"]
               = cat ["Error parsing code: "; error])
        \/ (exists visited detail,
               brokenHost (code chunk) = Parsed visited
               /\ ~ wellFormedOps (String.length (code chunk))
                      (importsToTransform
                         (afterSecondPass (importMapPlugin None)
                            [("assets/one-1a2b3c4d.js",
                              plainChunk "assets/one-1a2b3c4d.js" "one" importBroken)])
                         key visited)
               /\ cat ["Error parsing code: "; "SyntaxError: Unexpected token (1:8)"]
                  = cat ["Error parsing code: "; "Error: "; detail])).
Proof.
  apply (build_fails_only_on_a_chunk brokenHost noGenerateMap keepMapComment
           (importMapPlugin None)
           [("assets/one-1a2b3c4d.js", plainChunk "assets/one-1a2b3c4d.js" "one" importBroken)]
           (cat ["Error parsing code: "; "SyntaxError: Unexpected token (1:8)"])).
  reflexivity.
Defined.

(** Sorting the table for the emission changes no resolution.  Whatever
    the comparator answers, the table [transformIndexHtml] leaves and
    serialises holds for every key what the table held before, has the same
    keys, each once, and the rest of the closure is as it was.  The keys of
    the table are distinct from the start and stay so through every
    bundle. *)
Theorem emitted_table_resolves_the_same :
  forall (localeCompare : string -> string -> Z),
    (forall p,
        NoDup (JsObject.keys (imports p)) ->
        let q := fst (transformIndexHtml localeCompare p) in
        snd (transformIndexHtml localeCompare p) = imports q
        /\ (forall k, JsObject.get k (imports q) = JsObject.get k (imports p))
        /\ NoDup (JsObject.keys (imports q))
        /\ Permutation (JsObject.keys (imports p)) (JsObject.keys (imports q))
        /\ chunkMapping q = chunkMapping p
        /\ baseNameCounts q = baseNameCounts p
        /\ sameSettings p q)
    /\ (forall options, NoDup (JsObject.keys (imports (importMapPlugin options))))
    /\ (forall parse generateMap replaceMapComment p bundle final q,
           NoDup (JsObject.keys (imports p)) ->
           generateBundle parse generateMap replaceMapComment p bundle = Ok (final, q) ->
           NoDup (JsObject.keys (imports q))).
Proof.
  intros cmp. split; [|split].
  - intros p Hnd q.
    assert (Hget : forall k, JsObject.get k (imports q) = JsObject.get k (imports p))
      by (intros k; now apply sortedImportsOf_get).
    assert (Hnd' : NoDup (JsObject.keys (imports q))).
    { cbn [q transformIndexHtml fst imports]. unfold sortedImportsOf.
      apply fill_NoDup. constructor. }
    split; [reflexivity|]. split; [exact Hget|]. split; [exact Hnd'|].
    split; [|now repeat split].
    apply NoDup_Permutation; [exact Hnd | exact Hnd'|].
    intros k. split; intros Hin.
    + destruct (JsObject.get k (imports q)) eqn:E.
      * apply ObjectFacts.obj_get_in in E. apply (in_map fst) in E. exact E.
      * rewrite Hget in E. apply ObjectFacts.obj_get_none_keys in E. contradiction.
    + destruct (JsObject.get k (imports p)) eqn:E.
      * apply ObjectFacts.obj_get_in in E. apply (in_map fst) in E. exact E.
      * rewrite <- Hget in E. apply ObjectFacts.obj_get_none_keys in E. contradiction.
  - intros options. constructor.
  - intros parse generateMap replaceMapComment p bundle final q Hnd Hgen.
    destruct (generateBundle_passes parse generateMap replaceMapComment _ _ _ _ Hgen)
      as (entries' & renames & _ & _ & Hcommit).
    assert (H2 : NoDup (JsObject.keys (imports (afterSecondPass p bundle))))
      by (apply secondPass_table_NoDup; exact Hnd).
    pose proof (commitAll_table_NoDup renames (entries', afterSecondPass p bundle) H2) as H4.
    rewrite Hcommit in H4. exact H4.
Qed.



(* ------------------------------------------------------------------ *)
(** ** The bundle and the mapping after a build *)

Import JsString StringFacts PathFacts PassFacts ThirdPassFacts CommitFacts RewriteFacts BuildFacts SortFacts SiteFacts InvariantFacts OrderFacts FrameFacts.

Module AliasFacts.

Lemma commitAll_NoDup (renames : list (string * string)) :
  forall state, NoDup (JsObject.keys (fst state)) ->
                NoDup (JsObject.keys (fst (commitAll renames state))).
Proof.
  unfold commitAll. induction renames as [|r rest IH]; intros state H; [exact H|].
  cbn [fold_left]. apply IH. now apply commit_NoDup.
Qed.

(** A commit writes non-empty specifiers only. *)
Lemma commit_aliased (state : OutputBundle * Plugin) (rename : string * string) (k : string) :
  aliased k (snd state) -> aliased k (snd (commitRename state rename)).
Proof.
  destruct state as [bundle p]. destruct rename as [o n]. cbn [snd]. intros H.
  unfold commitRename.
  destruct (JsObject.get o bundle) as [[chunk | asset]|]; cbn [snd]; try exact H.
  destruct (JsMap.get (filenameOnlyOf o) (chunkMapping p)) as [[|c spec]|] eqn:E;
    cbn [snd]; try exact H.
  unfold aliased. cbn [chunkMapping].
  destruct (String.eqb_spec (filenameOnlyOf o) k) as [<- | H1].
  { rewrite MapFacts.map_get_set_same. now exists c, spec. }
  rewrite MapFacts.map_get_set_other by congruence.
  destruct (String.eqb_spec (filenameOnlyOf n) k) as [<- | H2].
  { rewrite MapFacts.map_get_set_same. now exists c, spec. }
  rewrite MapFacts.map_get_set_other by congruence.
  destruct (String.eqb_spec n k) as [<- | H3].
  { rewrite MapFacts.map_get_set_same. now exists c, spec. }
  rewrite MapFacts.map_get_set_other by congruence. exact H.
Qed.

Lemma commitAll_aliased (renames : list (string * string)) (k : string) :
  forall state, aliased k (snd state) -> aliased k (snd (commitAll renames state)).
Proof.
  unfold commitAll. induction renames as [|r rest IH]; intros state H; [exact H|].
  cbn [fold_left]. apply IH. now apply commit_aliased.
Qed.

(** The commit of a chunk enters its new name and the bare filename of it. *)
Lemma commit_new_aliases (bundle : OutputBundle) (p : Plugin) (o n : string)
    (chunk : OutputChunk) :
  JsObject.get o bundle = Some (Chunk chunk) ->
  aliased (filenameOnlyOf o) p ->
  aliased n (snd (commitRename (bundle, p) (o, n)))
  /\ aliased (filenameOnlyOf n) (snd (commitRename (bundle, p) (o, n))).
Proof.
  intros Hget (c & spec & Hspec). unfold commitRename. rewrite Hget, Hspec. cbn [snd].
  unfold aliased. cbn [chunkMapping]. split.
  - destruct (String.eqb_spec (filenameOnlyOf o) n) as [<- | H1].
    { rewrite MapFacts.map_get_set_same. now exists c, spec. }
    rewrite MapFacts.map_get_set_other by congruence.
    destruct (String.eqb_spec (filenameOnlyOf n) n) as [E | H2].
    { rewrite E. rewrite MapFacts.map_get_set_same. now exists c, spec. }
    rewrite MapFacts.map_get_set_other by congruence.
    rewrite MapFacts.map_get_set_same. now exists c, spec.
  - destruct (String.eqb_spec (filenameOnlyOf o) (filenameOnlyOf n)) as [<- | H1].
    { rewrite MapFacts.map_get_set_same. now exists c, spec. }
    rewrite MapFacts.map_get_set_other by congruence.
    rewrite MapFacts.map_get_set_same. now exists c, spec.
Qed.

Lemma commitAll_new_aliases (renames : list (string * string)) :
  forall state,
    NoDup (JsObject.keys (fst state)) -> committable (fst state) renames ->
    forall o n,
      In (o, n) renames -> aliased (filenameOnlyOf o) (snd state) ->
      aliased n (snd (commitAll renames state))
      /\ aliased (filenameOnlyOf n) (snd (commitAll renames state)).
Proof.
  induction renames as [|[o1 n1] rest IH]; intros [bundle p] Hnd Hc o n Hin Halias;
    [destruct Hin|].
  cbn [fst snd] in Hnd, Hc, Halias.
  destruct (committable_step bundle p o1 n1 rest Hnd Hc) as (Hc' & Hkeep & Hsep).
  pose proof (commit_NoDup (bundle, p) (o1, n1) Hnd) as Hnd'.
  unfold commitAll. cbn [List.fold_left]. fold (commitAll rest (commitRename (bundle, p) (o1, n1))).
  destruct Hin as [[= -> ->] | Hin].
  - destruct Hc as (_ & _ & Hall). destruct (Hall o n (or_introl eq_refl)) as [[chunk Hget] _].
    destruct (commit_new_aliases bundle p o n chunk Hget Halias) as [H1 H2].
    split; now apply commitAll_aliased.
  - apply (IH _ Hnd' Hc' o n Hin). now apply commit_aliased.
Qed.

Lemma prefix_app_l (q1 q2 s : string) :
  String.prefix (q1 ++ q2) s = true -> String.prefix q1 s = true.
Proof.
  revert s. induction q1 as [|c q1 IH]; intros s H.
  - destruct s; reflexivity.
  - destruct s as [|d s]; [discriminate|]. cbn in H |- *.
    destruct (ascii_dec c d); [now apply IH | discriminate].
Qed.

End AliasFacts.

Import AliasFacts.

(** The keys of the bundle the hook leaves.  With distinct keys and fresh
    staged names no entry is lost and none is doubled: the final bundle has
    distinct keys, and a key is in it exactly when it is a key of the
    original bundle for which no rename is staged, or the new name of a
    staged rename. *)
Theorem final_bundle_keys :
  forall (parse : string -> ParseResult)
         (generateMap : MagicString.t -> string -> string -> option SourceMap)
         (replaceMapComment : string -> string -> string)
         (p : Plugin) (bundle final : OutputBundle) (q : Plugin)
         (renames : JsMap.t string),
    NoDup (JsObject.keys bundle) ->
    generateBundle parse generateMap replaceMapComment p bundle = Ok (final, q) ->
    stagedRenames parse generateMap replaceMapComment p bundle = Ok renames ->
    freshTargets bundle renames ->
    NoDup (JsObject.keys final)
    /\ forall k,
         JsObject.has k final = true
         <-> (JsObject.has k bundle = true /\ JsMap.get k renames = None)
             \/ (exists o, In (o, k) (JsMap.entries renames)).
Proof.
  intros parse generateMap replaceMapComment p bundle final q renames
         Hnd Hgen Hstaged Hfresh.
  destruct (generateBundle_passes parse generateMap replaceMapComment _ _ _ _ Hgen)
    as (entries' & renames' & Hthird & Hstaged' & Hcommit).
  rewrite Hstaged in Hstaged'. injection Hstaged' as <-.
  destruct (thirdPass_staged parse generateMap replaceMapComment _ _ _ _ Hnd Hthird)
    as (Hkeys & _ & _).
  destruct (staged_committable parse generateMap replaceMapComment _ _ _ _ Hnd Hthird Hfresh)
    as (Hnd' & Hc).
  assert (Hfinal : final = fst (commitAll renames (entries', afterSecondPass p bundle)))
    by now rewrite Hcommit.
  assert (Hsame : forall k, JsObject.has k entries' = JsObject.has k bundle).
  { intros k. destruct (JsObject.has k bundle) eqn:E.
    - apply ObjectFacts.obj_has_get. apply ObjectFacts.obj_has_get in E.
      intros Hnone. apply E. apply ObjectFacts.obj_get_none_keys.
      apply ObjectFacts.obj_get_none_keys in Hnone. unfold JsObject.keys in *.
      now rewrite <- Hkeys.
    - apply ObjectFacts.obj_has_false_get. apply ObjectFacts.obj_has_false_get in E.
      apply ObjectFacts.obj_get_none_keys. apply ObjectFacts.obj_get_none_keys in E.
      unfold JsObject.keys in *. now rewrite Hkeys. }
  split.
  { rewrite Hfinal. apply commitAll_NoDup. exact Hnd'. }
  intros k. unfold JsMap.entries.
  destruct (in_dec string_dec k (List.map snd renames)) as [Hnew | Hnew].
  - apply in_map_iff in Hnew. destruct Hnew as ([o n] & Hk & Hin). cbn in Hk. subst n.
    destruct Hc as (Hc1 & Hc2 & Hall). destruct (Hall o k Hin) as [[chunk Hget] _].
    destruct (commitAll_bundle renames (entries', afterSecondPass p bundle) Hnd'
                (conj Hc1 (conj Hc2 Hall)) o k chunk Hin Hget) as [Hk _].
    rewrite <- Hfinal in Hk. split.
    + intros _. right. now exists o.
    + intros _. apply ObjectFacts.obj_has_get. rewrite Hk. discriminate.
  - destruct (in_dec string_dec k (List.map fst renames)) as [Hold | Hold].
    + apply in_map_iff in Hold. destruct Hold as ([o n] & Hk & Hin). cbn in Hk. subst o.
      destruct Hc as (Hc1 & Hc2 & Hall). destruct (Hall k n Hin) as [[chunk Hget] _].
      destruct (commitAll_bundle renames (entries', afterSecondPass p bundle) Hnd'
                  (conj Hc1 (conj Hc2 Hall)) k n chunk Hin Hget) as [_ Hk].
      rewrite <- Hfinal in Hk. split.
      * intros H. apply ObjectFacts.obj_has_get in H. contradiction.
      * intros [[_ Hnone] | [o Ho]].
        -- apply MapFacts.map_get_none_keys in Hnone. exfalso. apply Hnone.
           apply (in_map fst) in Hin. exact Hin.
        -- exfalso. apply Hnew. apply (in_map snd) in Ho. exact Ho.
    + assert (Hother : forall o n, In (o, n) renames -> k <> o /\ k <> n).
      { intros o n Hin. split; intros <-.
        - apply Hold. apply (in_map fst) in Hin. exact Hin.
        - apply Hnew. apply (in_map snd) in Hin. exact Hin. }
      pose proof (commitAll_bundle_other renames k (entries', afterSecondPass p bundle) Hother)
        as Hkept.
      rewrite <- Hfinal in Hkept. cbn [fst] in Hkept.
      assert (Hhas : JsObject.has k final = JsObject.has k bundle).
      { rewrite <- Hsame. destruct (JsObject.has k entries') eqn:E.
        - apply ObjectFacts.obj_has_get. rewrite Hkept. now apply ObjectFacts.obj_has_get.
        - apply ObjectFacts.obj_has_false_get. rewrite Hkept. now apply ObjectFacts.obj_has_false_get. }
      rewrite Hhas. split.
      * intros H. left. split; [exact H|]. now apply MapFacts.map_get_none_keys.
      * intros [[H _] | [o Ho]]; [exact H|].
        exfalso. apply Hnew. apply (in_map snd) in Ho. exact Ho.
Qed.

Lemma final_bundle_keys_witness :
  exists final q,
    generateBundle exampleHost noGenerateMap keepMapComment (importMapPlugin None) flatBundle
    = Ok (final, q)
    /\ NoDup (JsObject.keys final).
Proof.
  do 2 eexists. split; [vm_compute; reflexivity|].
  match goal with
  | |- NoDup (JsObject.keys ?final) =>
      refine (proj1 (final_bundle_keys exampleHost noGenerateMap keepMapComment
                       (importMapPlugin None) flatBundle final _
                       [("assets/app-1a2b3c4d.js", "assets/app-tfL_2xSU.js")]
                       flatBundle_NoDup _ _ _))
  end.
  - vm_compute. reflexivity.
  - vm_compute. reflexivity.
  - split.
    + constructor; [intros []|constructor].
    + intros o n [[= <- <-] | []]. cbn. intuition discriminate.
Defined.

(** After a build the closure knows the new names.  For every staged
    rename whose old bare filename is an alias of a non-empty specifier when
    the second pass is over, the commit pass enters the new name and its
    bare filename in the mapping, each with a non-empty specifier, next to
    the aliases that were there. *)
Theorem new_names_become_aliases :
  forall (parse : string -> ParseResult)
         (generateMap : MagicString.t -> string -> string -> option SourceMap)
         (replaceMapComment : string -> string -> string)
         (p : Plugin) (bundle final : OutputBundle) (q : Plugin)
         (renames : JsMap.t string) (oldName newName : string),
    NoDup (JsObject.keys bundle) ->
    generateBundle parse generateMap replaceMapComment p bundle = Ok (final, q) ->
    stagedRenames parse generateMap replaceMapComment p bundle = Ok renames ->
    freshTargets bundle renames ->
    In (oldName, newName) (JsMap.entries renames) ->
    aliased (filenameOnlyOf oldName) (afterSecondPass p bundle) ->
    aliased newName q /\ aliased (filenameOnlyOf newName) q
    /\ aliased (filenameOnlyOf oldName) q.
Proof.
  intros parse generateMap replaceMapComment p bundle final q renames oldName newName
         Hnd Hgen Hstaged Hfresh Hin Halias.
  destruct (generateBundle_passes parse generateMap replaceMapComment _ _ _ _ Hgen)
    as (entries' & renames' & Hthird & Hstaged' & Hcommit).
  rewrite Hstaged in Hstaged'. injection Hstaged' as <-.
  destruct (staged_committable parse generateMap replaceMapComment _ _ _ _ Hnd Hthird Hfresh)
    as (Hnd' & Hc).
  destruct (commitAll_new_aliases renames (entries', afterSecondPass p bundle) Hnd' Hc
              oldName newName Hin Halias) as [H1 H2].
  pose proof (commitAll_aliased renames (filenameOnlyOf oldName)
                (entries', afterSecondPass p bundle) Halias) as H3.
  rewrite Hcommit in H1, H2, H3. now repeat split.
Qed.

Lemma new_names_become_aliases_witness :
  exists final q,
    generateBundle exampleHost noGenerateMap keepMapComment (importMapPlugin None) flatBundle
    = Ok (final, q)
    /\ aliased "assets/app-tfL_2xSU.js" q
    /\ aliased (filenameOnlyOf "assets/app-tfL_2xSU.js") q.
Proof.
  do 2 eexists.
  match goal with
  | |- _ = Ok (?final, ?q) /\ _ =>
      destruct (new_names_become_aliases exampleHost noGenerateMap keepMapComment
                  (importMapPlugin None) flatBundle final q
                  [("assets/app-1a2b3c4d.js", "assets/app-tfL_2xSU.js")]
                  "assets/app-1a2b3c4d.js" "assets/app-tfL_2xSU.js" flatBundle_NoDup)
        as (H1 & H2 & _)
  end.
  - vm_compute. reflexivity.
  - vm_compute. reflexivity.
  - split.
    + constructor; [intros []|constructor].
    + intros o n [[= <- <-] | []]. cbn. intuition discriminate.
  - left. reflexivity.
  - exists "a"%char, "pp". vm_compute. reflexivity.
  - split; [reflexivity|]. split; assumption.
Defined.

(** How a reference is resolved.  The test of lines 134-137 comes down to
    two prefixes, ['./'] and the assets directory between slashes: the
    dotted form of the assets directory starts with ['./'] already.  And
    the mapping is asked for the last segment of the specifier only, so two
    candidate specifiers that end in the same file name are rewritten
    alike, whatever directories they name. *)
Theorem reference_resolved_by_last_segment :
  forall (p : Plugin) (key : string),
    (forall s,
        isCandidate p s
        = startsWith s "./" || startsWith s (cat ["/"; resolvedAssetsDir p; "/"]))
    /\ (forall node node' s s' a b,
           siteLiteral node = Some (s, a, b) -> siteLiteral node' = Some (s', a, b) ->
           isCandidate p s = true -> isCandidate p s' = true ->
           pop (split slash s) = pop (split slash s') ->
           forall op, visit p key node = Push op <-> visit p key node' = Push op).
Proof.
  intros p key. split.
  - intros s. unfold isCandidate.
    destruct (startsWith s (cat ["./"; resolvedAssetsDir p; "/"])) eqn:E;
      [|now rewrite orb_false_r].
    unfold startsWith, cat in E. cbn [String.concat] in E.
    change ("./" ++ "" ++ resolvedAssetsDir p ++ "" ++ "/")
      with ("./" ++ (resolvedAssetsDir p ++ "/")) in E.
    apply prefix_app_l in E. unfold startsWith. rewrite E. reflexivity.
  - intros node node' s s' a b Hs Hs' Hc Hc' Hlast op.
    rewrite !visit_push.
    assert (Hspec : stableSpecifierFor p s = stableSpecifierFor p s')
      by (unfold stableSpecifierFor; now rewrite Hlast).
    split; intros (s0 & a0 & b0 & m & Hsite & _ & Hm & ->).
    + rewrite Hs in Hsite. injection Hsite as <- <- <-.
      exists s', a, b, m. rewrite <- Hspec. now repeat split.
    + rewrite Hs' in Hsite. injection Hsite as <- <- <-.
      exists s, a, b, m. rewrite Hspec. now repeat split.
Qed.

(* ------------------------------------------------------------------ *)
(** ** Examples for the properties above *)

Import JsString StringFacts.

Lemma stripSourceMaps_idempotent_witness :
  stripSourceMaps
    (stripSourceMaps ("export const z = 1;" ++ sourceMappingURL ++ "app-1a2b3c4d.js.map"))
  = stripSourceMaps ("export const z = 1;" ++ sourceMappingURL ++ "app-1a2b3c4d.js.map").
Proof.
  exact (proj1 (proj2 (stripSourceMaps_idempotent
                         ("export const z = 1;" ++ sourceMappingURL ++ "app-1a2b3c4d.js.map")))).
Defined.


Lemma table_paths_inside_assets_witness :
  exists final q,
    generateBundle exampleHost noGenerateMap keepMapComment
      (configResolved (Some "static") (importMapPlugin None)) flatBundle
    = Ok (final, q)
    /\ tableInsideAssets q /\ resolvedAssetsDir q = "static".
Proof.
  do 2 eexists. split; [vm_compute; reflexivity|].
  destruct (table_paths_inside_assets exampleHost noGenerateMap keepMapComment
              None (Some "static")) as (Hfresh & _ & _ & Hbuild).
  destruct (Hbuild (configResolved (Some "static") (importMapPlugin None)) flatBundle _ _
              Hfresh ltac:(vm_compute; reflexivity)) as (Hinside & Hdir & _).
  split; [exact Hinside | exact Hdir].
Defined.

Lemma emitted_table_resolves_the_same_witness :
  JsObject.get "app" (imports (fst (transformIndexHtml codeUnitCompare flatTablePlugin)))
  = JsObject.get "app" (imports flatTablePlugin).
Proof.
  destruct (emitted_table_resolves_the_same codeUnitCompare) as (Hsort & _).
  refine (proj1 (proj2 (Hsort flatTablePlugin _)) "app").
  constructor; [cbn; intuition discriminate|]. constructor; [intros []|constructor].
Defined.

Lemma reference_resolved_by_last_segment_witness :
  isCandidate buttonPlugin "./assets/button-abc123.js"
  = startsWith "./assets/button-abc123.js" "./"
    || startsWith "./assets/button-abc123.js" (cat ["/"; resolvedAssetsDir buttonPlugin; "/"]).
Proof.
  exact (proj1 (reference_resolved_by_last_segment buttonPlugin "assets/app-1a2b3c4d.js")
           "./assets/button-abc123.js").
Defined.
